(** * Exercise export scripts: records to CSV

    A shallow embedding of the export scripts of the repository
    ([complete_export.py], [export_all_exercises.py], [json_to_csv.py],
    [export_exercises.py]) together with the part of Python's [csv]
    module they drive, and the properties of the export that the
    specification states about them, and [export_complete.py], which
    runs the block of [complete_export.py] on one inline record.

    The destination is a buffered text file on a device: [write] hands
    text to the file object, and what the device takes of it is settled
    when the file is flushed, at the latest by the [close] that ends the
    [with] block. *)

From Stdlib Require Import ZArith Ascii String List Lia.
From stdpp Require Import base tactics option list strings pretty.

(** Let [simpl] compute the append of strings, which stdpp switches off. *)
Local Arguments String.append !_ _ : simpl nomatch.

(** ** Characters the CSV dialect treats specially *)

Definition LF : ascii := "010"%char.
Definition CR : ascii := "013"%char.
Definition COMMA : ascii := ","%char.
Definition DQUOTE : ascii := "034"%char.

(** A Python [str] is modelled by the string of its UTF-8 bytes.  The four
    characters above are ASCII and never occur inside a multi-byte
    sequence, so every test the csv writer makes on a character gives the
    same answer on the bytes.  The text of a file stands for its bytes:
    the model does not encode.  A text that the encoding of the file
    cannot encode (a lone surrogate under utf-8, whatever the encoding of
    the locale lacks under that one) is refused by [write]; which texts
    these are is left to the destination. *)

(** ** Python values found in a record *)

(** The scalar values [json.loads] and the inline literals produce:
    [None], [bool], [int] and [str].  Floats, lists and nested objects are
    not represented. *)
Inductive value : Type :=
  | VNone
  | VBool (b : bool)
  | VInt (z : Z)
  | VStr (s : string).

Global Instance value_eq_dec : EqDecision value.
Proof. solve_decision. Defined.

(** [value is None] *)
Definition is_None (v : value) : bool :=
  match v with VNone => true | _ => false end.

(** Python's [str(v)]. *)
Definition str (v : value) : string :=
  match v with
  | VNone => "None"
  | VBool true => "True"
  | VBool false => "False"
  | VInt z => pretty z
  | VStr s => s
  end.

(** ** Python dictionaries

    A [dict] keeps its entries in insertion order and has no two entries
    with the same key; it is an association list, with the second property
    as the well-formedness predicate [dict_wf]. *)

Abbreviation dict := (list (string * value)).

Definition keys (d : dict) : list string := d.*1.

Definition dict_wf (d : dict) : Prop := NoDup (keys d).

Global Instance dict_wf_dec d : Decision (dict_wf d).
Proof. unfold dict_wf. apply _. Defined.

(** [d.items()] *)
Definition items (d : dict) : list (string * value) := d.

(** [d[key]], when the key is present. *)
Fixpoint getitem (d : dict) (key : string) : option value :=
  match d with
  | [] => None
  | (k, v) :: d' => if decide (k = key) then Some v else getitem d' key
  end.

(** [d.get(key, default)] *)
Definition get (d : dict) (key : string) (default : value) : value :=
  match getitem d key with
  | Some v => v
  | None => default
  end.

(** [d[key] = v]: the value of an existing key is replaced where it stands,
    a new key is added at the end. *)
Fixpoint setitem (d : dict) (key : string) (v : value) : dict :=
  match d with
  | [] => [(key, v)]
  | (k, v') :: d' =>
      if decide (k = key) then (k, v) :: d' else (k, v') :: setitem d' key v
  end.

(** ** The [csv] module of the Python standard library

    The scripts only construct [csv.DictWriter(csvfile, fieldnames=...)],
    so every writer has the defaults: [restval=''], [extrasaction='raise']
    and the [excel] dialect, that is a comma as delimiter, the double
    quote as quote character, [doublequote=True], line terminator CR LF
    and [QUOTE_MINIMAL].  The
    definitions follow [Lib/csv.py] and, for the row formatter,
    [Modules/_csv.c]. *)

Module csv.

Definition delimiter : ascii := COMMA.
Definition quotechar : ascii := DQUOTE.
Definition lineterminator : string := String CR (String LF "").

(** A character that forces the field to be quoted under
    [QUOTE_MINIMAL]: the delimiter, the quote character, or a character
    of the line terminator. *)
Definition special (c : ascii) : bool :=
  bool_decide (c = delimiter) || bool_decide (c = quotechar)
  || bool_decide (c = CR) || bool_decide (c = LF).

Fixpoint needs_quotes (s : string) : bool :=
  match s with
  | EmptyString => false
  | String c s' => special c || needs_quotes s'
  end.

(** [doublequote=True]: a quote character inside a field is written
    twice. *)
Fixpoint escape (s : string) : string :=
  match s with
  | EmptyString => EmptyString
  | String c s' =>
      if bool_decide (c = quotechar)
      then String quotechar (String quotechar (escape s'))
      else String c (escape s')
  end.

(** The text of one field of a row: [None] is written as the empty
    field, a [str] as it is, anything else through [str()]. *)
Definition field_text (v : value) : string :=
  match v with
  | VNone => ""
  | _ => str v
  end.

Definition format_field (s : string) : string :=
  if needs_quotes s
  then String quotechar (escape s +:+ String quotechar "")
  else s.

Fixpoint join_fields (fs : list string) : string :=
  match fs with
  | [] => ""
  | [f] => format_field f
  | f :: fs' => format_field f +:+ String delimiter (join_fields fs')
  end.

(** [writer.writerow(row)]: the line handed to the file's [write].  A
    row of one empty field is written as a pair of quotes, so that it
    is not an empty line. *)
Definition format_row (row : list value) : string :=
  match row with
  | [v] => if decide (field_text v = "")
           then String quotechar (String quotechar lineterminator)
           else format_field (field_text v) +:+ lineterminator
  | _ => join_fields (field_text <$> row) +:+ lineterminator
  end.

End csv.

(** ** Exceptions, the destination file and the state of a run *)

Inductive exn : Type :=
  | OSError (msg : string)
      (** raised by [open], and by the file object when the device does
          not take what is flushed to it *)
  | ValueError (wrong_fields : list string)
      (** [dict contains fields not in fieldnames: ...], raised by
          [DictWriter]; Python lists the fields in set order, the model in
          the order of the record *)
  | LoadError (msg : string)
      (** reading or decoding [exercises_data.json] failed *)
  | UnicodeEncodeError (encoding : option string) (reason : string)
      (** raised by [write] when the encoding of the file cannot encode
          the text; [None] stands for the encoding of the locale *)
  | AttributeError (type_name attribute : string)
      (** ['{type_name}' object has no attribute '{attribute}'] *)
  | TypeError (msg : string).
      (** raised by [len] and by [for] on a value that has no length and
          cannot be iterated over *)

Global Instance exn_eq_dec : EqDecision exn.
Proof. solve_decision. Defined.

(** The destination path as the run finds it.  [open_error] is the error
    [open(path, 'w')] raises, if it does; [writes_left] is the number of
    [write] calls whose text the encoding of the file takes before it
    refuses one, with [write_error] as the reason ([None]: it refuses
    none); [content] is the text of the file at the path, [None] while
    there is no file.  Between [open] and [close], [content] is the text
    the file object has taken: how much of it is in the file is settled
    when the file is closed. *)
Record destination : Type := Destination {
  open_error : option string;
  writes_left : option nat;
  write_error : string;
  content : option string
}.

(** The device the destination is on.  [capacity] is how much of the text
    of the file it still takes ([None]: all of it), [device_error] what
    the [OSError] says once it is full.  The file object holds back what
    it is given and hands it to the device when its buffers are full and
    when it is closed.  Which [write] does so depends on the sizes of the
    buffers and of the texts: [flushes n] says whether the [write] that
    brings the text to [n] characters does. *)
Record device : Type := Device {
  capacity : option nat;
  device_error : string;
  flushes : nat → bool
}.

(** A device that takes whatever is written. *)
Definition sound : device := Device None "" (λ _, false).

(** A text of [n] characters is more than the device takes. *)
Definition overflows (disk : device) (n : nat) : bool :=
  match capacity disk with
  | Some c => bool_decide (c < n)
  | None => false
  end.

(** The [write] that brings the text to [n] characters flushes, and the
    device is full. *)
Definition detects (disk : device) (n : nat) : bool :=
  flushes disk n && overflows disk n.

(** The first [n] characters of [s]. *)
Fixpoint first_bytes (n : nat) (s : string) : string :=
  match n, s with
  | Datatypes.S n', String c s' => String c (first_bytes n' s')
  | _, _ => ""
  end.

(** The file object [open] returns: the encoding it was opened with
    ([None]: that of the locale) and the device under it. *)
Record TextIOWrapper : Type := TextIO {
  encoding : option string;
  raw : device
}.

(** What a script prints: one constructor per [print] template. *)
Inductive line : Type :=
  | Created                 (** [CSV file created successfully at ...] *)
  | Exported (count : nat)  (** [Exported {count} exercises] *)
  | Error (e : exn)         (** [Error: {e}] *)
  | Writing (count : nat)   (** [Writing {len(exercises)} exercises to CSV...] *)
  | Text (s : string).      (** a fixed text *)

Global Instance line_eq_dec : EqDecision line.
Proof. solve_decision. Defined.

(** [heap] holds the record objects the list [exercises_data] refers to,
    by position: the scripts never change the list itself, only the
    records, and [json.loads] and a list literal give every position an
    object of its own. *)
Record world : Type := World {
  heap : list dict;
  csvfile : destination;
  stdout : list line
}.

Inductive result (A : Type) : Type :=
  | Ok (a : A)
  | Raised (e : exn).
Arguments Ok {A} a.
Arguments Raised {A} e.

Global Instance result_eq_dec `{EqDecision A} : EqDecision (result A).
Proof. solve_decision. Defined.

(** Statements run in a state and exception monad. *)
Definition M (A : Type) : Type := world → result A * world.

Global Instance M_ret : MRet M := λ A a w, (Ok a, w).
Global Instance M_bind : MBind M := λ A B f m w,
  match m w with
  | (Ok a, w') => f a w'
  | (Raised e, w') => (Raised e, w')
  end.

Definition raise {A} (e : exn) : M A := λ w, (Raised e, w).

(** [try: body / except Exception as e: handler] *)
Definition try_except (body : M unit) (handler : exn → M unit) : M unit :=
  λ w, match body w with
       | (Ok a, w') => (Ok a, w')
       | (Raised e, w') => handler e w'
       end.

(** [try: body / finally: cleanup], with a cleanup that may raise: the
    cleanup runs on every way out of the body, and an exception it raises
    takes the place of the outcome of the body. *)
Definition finally {A} (body : M A) (cleanup : M unit) : M A :=
  λ w, match body w with
       | (r, w') =>
           match cleanup w' with
           | (Ok _, w'') => (r, w'')
           | (Raised e, w'') => (Raised e, w'')
           end
       end.

(** [for x in xs: body], with the local variables the body assigns
    threaded through as [s]. *)
Fixpoint for_in {A S} (xs : list A) (body : A → S → M S) (s : S) : M S :=
  match xs with
  | [] => mret s
  | x :: xs' => s' ← body x s; for_in xs' body s'
  end.

Definition print (l : line) : M unit := λ w,
  (Ok (), World (heap w) (csvfile w) (stdout w ++ [l])).

(** [len(exercises_data)] *)
Definition len_exercises : M nat := λ w, (Ok (length (heap w)), w).

(** The record at position [i], read through the reference. *)
Definition load (i : nat) : M dict := λ w,
  (Ok (default [] (heap w !! i)), w).

(** What a JSON text decodes to, as far as the scripts can tell.  They
    take its length, its truth value and its items in order, and they
    treat every item as a [dict]:
    - [Records exercises]: a list of objects, the case the scripts are
      written for.  An empty string and an empty object have no items
      either and go the way of the empty list.
    - [Broken front type_name rest]: the items can be gone through, and
      after the objects [front] comes one that is no [dict] but a
      [type_name], followed by [rest] more.  These are the lists with
      such an item, and also the strings, whose items are their
      characters, and the objects, whose items are their keys (for both,
      [front] is empty and [type_name] is [str]).
    - [Scalar type_name truth]: [None], a [bool], an [int] or a [float];
      no length, no items. *)
Inductive decoded : Type :=
  | Records (exercises : list dict)
  | Broken (front : list dict) (type_name : string) (rest : nat)
  | Scalar (type_name : string) (truth : bool).

(** The records at the front of the document, the ones a loop over it
    reaches.  They are what the [heap] holds. *)
Definition records (exercises : decoded) : list dict :=
  match exercises with
  | Records exercises => exercises
  | Broken front _ _ => front
  | Scalar _ _ => []
  end.

(** [len(exercises)] *)
Definition len (exercises : decoded) : M nat :=
  match exercises with
  | Records exercises => mret (length exercises)
  | Broken front _ rest => mret (length front + 1 + rest)
  | Scalar type_name _ =>
      raise (TypeError ("object of type '" +:+ type_name +:+ "' has no len()"))
  end.

(** [if exercises:] *)
Definition truth_value (exercises : decoded) : bool :=
  match exercises with
  | Records exercises => negb (bool_decide (exercises = []))
  | Broken _ _ _ => true
  | Scalar _ truth => truth
  end.

(** How a loop over the document that uses [attribute] of each item ends
    once it is through the records of the [heap]: the items are
    exhausted; or the next item has no such attribute; or, for a value
    without items, the loop did not start. *)
Definition after_records (exercises : decoded) (attribute : string) : M unit :=
  match exercises with
  | Records _ => mret ()
  | Broken _ type_name _ => raise (AttributeError type_name attribute)
  | Scalar type_name _ =>
      raise (TypeError ("'" +:+ type_name +:+ "' object is not iterable"))
  end.

(** [exercise[key] = v] on the record at position [i]. *)
Definition store_setitem (i : nat) (key : string) (v : value) : M unit := λ w,
  (Ok (), World (alter (λ d, setitem d key v) i (heap w)) (csvfile w) (stdout w)).

(** [open(path, 'w', newline='', encoding=encoding)] on the device
    [disk]: truncates the file or raises. *)
Definition open_w (disk : device) (encoding : option string)
    : M TextIOWrapper := λ w,
  let f := csvfile w in
  match open_error f with
  | Some msg => (Raised (OSError msg), w)
  | None =>
      (Ok (TextIO encoding disk),
       World (heap w)
         (Destination None (writes_left f) (write_error f) (Some ""))
         (stdout w))
  end.

(** [file.write(s)]; [newline=''] leaves line ends as they are.  The text
    is encoded, which may fail, and joins what the file object holds; if
    the file object then flushes and the device is full, the [write]
    raises. *)
Definition write (file : TextIOWrapper) (s : string) : M unit := λ w,
  let f := csvfile w in
  match writes_left f with
  | Some 0 =>
      (Raised (UnicodeEncodeError (encoding file) (write_error f)), w)
  | quota =>
      let text := default "" (content f) +:+ s in
      let w' :=
        World (heap w)
          (Destination (open_error f) (pred <$> quota) (write_error f)
             (Some text))
          (stdout w) in
      if detects (raw file) (String.length text)
      then (Raised (OSError (device_error (raw file))), w')
      else (Ok (), w')
  end.

(** The destination when the file is closed on it: the device has what
    it took of the text. *)
Definition closed (disk : device) (f : destination) : destination :=
  match capacity disk with
  | Some c =>
      Destination (open_error f) (writes_left f) (write_error f)
        (first_bytes c <$> content f)
  | None => f
  end.

(** [file.close()]: what the file object still holds is flushed, and the
    file is closed whether that works or not. *)
Definition close (file : TextIOWrapper) : M unit := λ w,
  let f := csvfile w in
  if overflows (raw file) (String.length (default "" (content f)))
  then (Raised (OSError (device_error (raw file))),
        World (heap w) (closed (raw file) f) (stdout w))
  else (Ok (), w).

(** [with open(...) as file: body]: the file is closed on every way out
    of the body. *)
Definition with_open (disk : device) (encoding : option string)
    (body : TextIOWrapper → M unit) : M unit :=
  file ← open_w disk encoding;
  finally (body file) (close file).

(** *** [csv.DictWriter] *)

Module DictWriter.

Record t : Type := Make {
  file : TextIOWrapper;
  fieldnames : list string;
  restval : value
}.

(** [csv.DictWriter(csvfile, fieldnames=fieldnames)] *)
Definition new (file : TextIOWrapper) (fieldnames : list string) : t :=
  Make file fieldnames (VStr "").

(** [_dict_to_list] with [extrasaction='raise']. *)
Definition _dict_to_list (self : t) (rowdict : dict) : M (list value) :=
  let wrong_fields := filter (λ k, k ∉ fieldnames self) (keys rowdict) in
  match wrong_fields with
  | [] => mret ((λ key, get rowdict key (restval self)) <$> fieldnames self)
  | _ => raise (ValueError wrong_fields)
  end.

Definition writerow (self : t) (rowdict : dict) : M unit :=
  row ← _dict_to_list self rowdict;
  write (file self) (csv.format_row row).

(** [header = dict(zip(fieldnames, fieldnames))] *)
Definition writeheader (self : t) : M unit :=
  let header := (λ f, (f, VStr f)) <$> fieldnames self in
  writerow self header.

(** [writerows] maps [_dict_to_list] lazily over the rows, so each row
    is converted just before it is written. *)
Definition writerows (self : t) (rowdicts : list dict) : M unit :=
  for_in rowdicts (λ rowdict _, writerow self rowdict) ().

End DictWriter.

(** ** The scripts *)

(** The eleven columns, in the order of [fieldnames] in
    [complete_export.py], [export_complete.py] and
    [export_all_exercises.py] and of [fields] in [json_to_csv.py]. *)
Definition fieldnames : list string :=
  ["id"; "name"; "instructions"; "video_url"; "created_at"; "type";
   "difficulty"; "category_id"; "is_variation"; "equipment"; "muscle"].

(** The record loop of [complete_export.py] (lines 32-39), which
    [export_all_exercises.py] (lines 48-55) and [export_complete.py]
    (lines 30-37) repeat word for word.  [exercise] is the position of the
    record the loop variable refers to.  The inner loop walks the items
    the record has when it starts: assigning to a key the record already
    has neither moves nor adds an entry, so the live view yields the same
    items. *)
Definition write_exercises (writer : DictWriter.t) : M nat :=
  n ← len_exercises;
  for_in (seq 0 n) (λ exercise count,
    d ← load exercise;
    for_in (items d) (λ '(key, value) _,
      if is_None value
      then store_setitem exercise key (VStr "")
      else mret ()) () ;;
    d ← load exercise;
    DictWriter.writerow writer d ;;
    mret (count + 1)) 0.

Module complete_export.

(** The module body on the device [disk]; [exercises_data] is the
    initial [heap]. *)
Definition main (disk : device) : M unit :=
  try_except
    (with_open disk (Some "utf-8") (λ file,
       let writer := DictWriter.new file fieldnames in
       DictWriter.writeheader writer ;;
       count ← write_exercises writer;
       print Created ;;
       print (Exported count)))
    (λ e, print (Error e)) ;;
  print (Text (String LF "Instructions for creating a complete export:")) ;;
  print (Text "1. Replace the 'exercises_data' list in this script with ALL exercises from Supabase") ;;
  print (Text "2. To get the complete data, run: mcp_supabase_execute_sql with:") ;;
  print (Text "   - project_id: 'rokicoqziukzgvhpoclk'") ;;
  print (Text "   - query: 'SELECT * FROM exercises;'") ;;
  print (Text "3. Copy the ENTIRE result and replace the sample data in the exercises_data list") ;;
  print (Text "4. Run this script again to generate the complete CSV file").

End complete_export.

Module export_all_exercises.

(** [exercises_data.json] as the run finds it: missing, unreadable (the
    [open] or [json.load] raises), or holding a JSON text, of which
    [exercises_data] is what it decodes to. *)
Inductive data_file : Type :=
  | Missing
  | Unreadable (msg : string)
  | Holds (exercises_data : decoded).

(** [exercises_data = json.load(f)]: the records of the document are on
    the [heap] from here on. *)
Definition json_load (f : data_file) : M decoded := λ w,
  match f with
  | Holds exercises_data =>
      (Ok exercises_data,
       World (records exercises_data) (csvfile w) (stdout w))
  | Unreadable msg => (Raised (LoadError msg), w)
  | Missing => (Raised (LoadError "No such file or directory"), w)
  end.

(** The loop of lines 49-55 is [write_exercises] on the records of the
    [heap], and ends as [after_records] says: an item that is no [dict]
    stops it at [exercise.items()]. *)

Definition export_exercises (disk : device) (f : data_file) : M unit :=
  try_except
    (print (Text "Exporting exercises to CSV...") ;;
     match f with
     | Missing =>
         print (Text "Error: exercises_data.json file not found.") ;;
         print (Text "Please first run: mcp_supabase_execute_sql with the query 'SELECT * FROM exercises;'") ;;
         print (Text "Save the results to 'exercises_data.json' in the same directory as this script.")
     | _ =>
         exercises_data ← json_load f;
         with_open disk (Some "utf-8") (λ file,
           let writer := DictWriter.new file fieldnames in
           DictWriter.writeheader writer ;;
           count ← write_exercises writer;
           after_records exercises_data "items" ;;
           print Created ;;
           print (Exported count))
     end)
    (λ e,
       print (Error e) ;;
       print (Text "Please make sure the exercises_data.json file exists and is formatted correctly.")).

End export_all_exercises.

Module json_to_csv.

(** The module body on the device [disk]; [exercises] is the initial
    [heap].  The file is opened without [encoding], so with that of the
    locale.  Nothing catches an exception here: it ends the run. *)
Definition main (disk : device) : M unit :=
  with_open disk None (λ file,
    let writer := DictWriter.new file fieldnames in
    DictWriter.writeheader writer ;;
    n ← len_exercises;
    for_in (seq 0 n) (λ exercise _,
      d ← load exercise;
      DictWriter.writerow writer d) ()) ;;
  print Created ;;
  n ← len_exercises;
  print (Exported n).

End json_to_csv.

Module export_exercises.

(** The columns of [export_to_csv], in its own order. *)
Definition fields : list string :=
  ["id"; "name"; "type"; "muscle"; "instructions"; "equipment"; "video_url";
   "difficulty"; "category_id"; "is_variation"; "created_at"].

(** [export_to_csv(exercises)] on the device [disk]; the records of
    [exercises] are on the [heap].  The file is opened with the encoding
    of the locale.  [writerows] goes through the records, and ends as
    [after_records] says: an item that is no [dict] stops it at
    [rowdict.keys()] in [_dict_to_list]. *)
Definition export_to_csv (disk : device) (exercises : decoded) : M unit :=
  n ← len exercises;
  print (Writing n) ;;
  with_open disk None (λ file,
    let writer := DictWriter.new file fields in
    DictWriter.writeheader writer ;;
    rowdicts ← (λ w, (Ok (heap w), w));
    DictWriter.writerows writer rowdicts ;;
    after_records exercises "keys") ;;
  print Created ;;
  print (Exported n).

(** The [__main__] block, after [fetch_exercises()] has returned
    [exercises]. *)
Definition main (disk : device) (exercises : decoded) : M unit :=
  if truth_value exercises
  then export_to_csv disk exercises
  else print (Text "No exercises to export").

End export_exercises.

(** A run of a script on the records [exercises] and the destination
    [dest]: what it returns or raises, and the state it leaves. *)
Definition run {A} (script : M A) (exercises : list dict) (dest : destination)
  : result A * world :=
  script (World exercises dest []).

(** A destination that opens and takes every write. *)
Definition fresh : destination := Destination None None "" None.

(** ** Reading CSV back: RFC 4180

    The reader the specification appeals to is no part of the repository.
    [parse] follows the grammar of RFC 4180, section 2: records end with
    CR LF (the last one may leave it out), fields are separated by commas,
    a field is either free of quotes, commas and line breaks, or enclosed
    in quotes with every quote inside written twice.  TEXTDATA is widened
    to every character other than those four.  [parse st input] returns
    the records of [input] read from state [st]; the first field of the
    first record is the one being read. *)

Module rfc4180.

Inductive state : Type :=
  | RecordStart   (** before the first character of a record *)
  | FieldStart    (** after a comma *)
  | Unquoted      (** inside a field that did not open with a quote *)
  | Quoted        (** inside a quoted field *)
  | QuoteSeen     (** after a quote inside a quoted field *)
  | CRSeen.       (** after the CR that ends a record *)

Abbreviation records := (list (list string)).

(** [c] is one more character in front of the field being read. *)
Definition push_char (c : ascii) (rs : records) : option records :=
  match rs with
  | (f :: fs) :: rs' => Some ((String c f :: fs) :: rs')
  | _ => None
  end.

(** The field being read is complete: a new one starts in front. *)
Definition end_field (rs : records) : option records :=
  match rs with
  | fs :: rs' => Some (("" :: fs) :: rs')
  | [] => None
  end.

(** The record being read is complete. *)
Definition end_record (rs : records) : option records :=
  Some ([""] :: rs).

Fixpoint parse (st : state) (input : string) : option records :=
  match input with
  | EmptyString =>
      match st with
      | RecordStart => Some []
      | FieldStart | Unquoted | QuoteSeen => Some [[""]]
      | Quoted | CRSeen => None
      end
  | String c rest =>
      match st with
      | RecordStart | FieldStart =>
          if decide (c = DQUOTE) then parse Quoted rest
          else if decide (c = COMMA) then parse FieldStart rest ≫= end_field
          else if decide (c = CR) then parse CRSeen rest
          else if decide (c = LF) then None
          else parse Unquoted rest ≫= push_char c
      | Unquoted =>
          if decide (c = DQUOTE) then None
          else if decide (c = COMMA) then parse FieldStart rest ≫= end_field
          else if decide (c = CR) then parse CRSeen rest
          else if decide (c = LF) then None
          else parse Unquoted rest ≫= push_char c
      | Quoted =>
          if decide (c = DQUOTE) then parse QuoteSeen rest
          else parse Quoted rest ≫= push_char c
      | QuoteSeen =>
          if decide (c = DQUOTE) then parse Quoted rest ≫= push_char DQUOTE
          else if decide (c = COMMA) then parse FieldStart rest ≫= end_field
          else if decide (c = CR) then parse CRSeen rest
          else None
      | CRSeen =>
          if decide (c = LF) then parse RecordStart rest ≫= end_record
          else None
      end
  end.

(** The records of a whole document. *)
Definition read (document : string) : option records :=
  parse RecordStart document.

End rfc4180.

(** ** What a run writes, as functions of the records *)

(** The effect of the inner loop of [write_exercises] on a record. *)
Definition none_to_empty (d : dict) : dict :=
  (λ '(key, v), (key, if is_None v then VStr "" else v)) <$> d.

(** No key of the record is outside [fields]: [DictWriter] takes it. *)
Definition accepted (fields : list string) (d : dict) : Prop :=
  Forall (λ key, key ∈ fields) (keys d).

Global Instance accepted_dec fields d : Decision (accepted fields d).
Proof. unfold accepted. apply _. Defined.

(** The values [_dict_to_list] hands to the row formatter. *)
Definition row (fields : list string) (d : dict) : list value :=
  (λ key, get d key (VStr "")) <$> fields.

Definition header_line (fields : list string) : string :=
  csv.format_row (VStr <$> fields).

Definition data_lines (fields : list string) (exs : list dict) : list string :=
  (λ d, csv.format_row (row fields d)) <$> exs.

(** The text of the cell of [field] in the row of [d], as the
    specification gives it: empty for [None], the string form otherwise;
    and empty where the record has no such key. *)
Definition cell (d : dict) (field : string) : string :=
  match getitem d field with
  | Some v => if is_None v then "" else str v
  | None => ""
  end.

Definition cat (ls : list string) : string := foldr String.append "" ls.

(** The destination after the lines [ls] have been written to it. *)
Definition written (f : destination) (ls : list string) : destination :=
  Destination (open_error f) ((λ q, q - length ls) <$> writes_left f)
    (write_error f) (Some (default "" (content f) +:+ cat ls)).

(** The destination once [open] has truncated it. *)
Definition opened (f : destination) : destination :=
  Destination None (writes_left f) (write_error f) (Some "").

(** The encoding of the file takes [n] more writes. *)
Definition room (f : destination) (n : nat) : Prop :=
  match writes_left f with None => True | Some q => n ≤ q end.

Global Instance room_dec f n : Decision (room f n).
Proof. unfold room. destruct (writes_left f); apply _. Defined.

(** The destination opens and takes [n] writes. *)
Definition takes (f : destination) (n : nat) : Prop :=
  open_error f = None ∧ room f n.

Global Instance takes_dec f n : Decision (takes f n).
Proof. unfold takes. apply _. Defined.

(** No [write] of the lines [ls] after the text [before] flushes into a
    full device. *)
Definition calm (disk : device) (before : string) (ls : list string) : Prop :=
  Forall (λ m, detects disk (String.length (before +:+ cat (take (S m) ls)))
               = false)
    (seq 0 (length ls)).

Global Instance calm_dec disk before ls : Decision (calm disk before ls).
Proof. unfold calm. apply _. Defined.

(** Every [write] of the lines [ls] to the file at [f] returns. *)
Definition goes (file : TextIOWrapper) (f : destination) (ls : list string)
    : Prop :=
  room f (length ls) ∧ calm (raw file) (default "" (content f)) ls.

Global Instance goes_dec file f ls : Decision (goes file f ls).
Proof. unfold goes. apply _. Defined.

(** The [write] of the line [l] to the file at [f] returns. *)
Definition accepts (file : TextIOWrapper) (f : destination) (l : string)
    : Prop :=
  writes_left f ≠ Some 0
  ∧ detects (raw file) (String.length (default "" (content f) +:+ l)) = false.

Global Instance accepts_dec file f l : Decision (accepts file f l).
Proof. unfold accepts. apply _. Defined.

(** The device takes the whole text [s]. *)
Definition holds (disk : device) (s : string) : Prop :=
  overflows disk (String.length s) = false.

Global Instance holds_dec disk s : Decision (holds disk s).
Proof. unfold holds. apply _. Defined.

(** The text at the destination after a run. *)
Definition output {A} (r : result A * world) : option string :=
  content (csvfile r.2).

(** ** Vocabulary of the specification *)

(** The runs of the scripts on the records [exs] and the destination
    [dest], on a device that takes whatever is written.
    [export_exercises] loads its records from the data file. *)
Definition complete_export_run (exs : list dict) (dest : destination) :=
  run (complete_export.main sound) exs dest.

Definition export_all_exercises_run (exs : list dict) (dest : destination) :=
  run (export_all_exercises.export_exercises sound
         (export_all_exercises.Holds (Records exs)))
    [] dest.

Definition json_to_csv_run (exs : list dict) (dest : destination) :=
  run (json_to_csv.main sound) exs dest.

Definition export_to_csv_run (exs : list dict) (dest : destination) :=
  run (export_exercises.export_to_csv sound (Records exs)) exs dest.

(** The same runs on the device [disk]. *)
Definition complete_export_on (disk : device) (exs : list dict)
    (dest : destination) :=
  run (complete_export.main disk) exs dest.

Definition export_all_exercises_on (disk : device) (exs : list dict)
    (dest : destination) :=
  run (export_all_exercises.export_exercises disk
         (export_all_exercises.Holds (Records exs)))
    [] dest.

Definition json_to_csv_on (disk : device) (exs : list dict)
    (dest : destination) :=
  run (json_to_csv.main disk) exs dest.

Definition export_to_csv_on (disk : device) (exs : list dict)
    (dest : destination) :=
  run (export_exercises.export_to_csv disk (Records exs)) exs dest.

(** The exception that ends a loop over a document that is no list of
    records, once the loop is through the records at its front. *)
Definition stop (exercises : decoded) (attribute : string) : option exn :=
  match exercises with
  | Records _ => None
  | Broken _ type_name _ => Some (AttributeError type_name attribute)
  | Scalar type_name _ =>
      Some (TypeError ("'" +:+ type_name +:+ "' object is not iterable"))
  end.

(** The errors and the row counts a run printed. *)
Definition errors (w : world) : list exn :=
  omap (λ l, match l with Error e => Some e | _ => None end) (stdout w).

Definition counts (w : world) : list nat :=
  omap (λ l, match l with Exported n => Some n | _ => None end) (stdout w).

(** The export succeeds and reports [n] rows. *)
Definition succeeds (r : result () * world) (n : nat) : Prop :=
  r.1 = Ok () ∧ errors r.2 = [] ∧ counts r.2 = [n].

(** The export fails with the one error [e]: the error ends the run or is
    the only one printed, and no success message or count is printed. *)
Definition fails (r : result () * world) (e : exn) : Prop :=
  (r.1 = Raised e ∧ errors r.2 = [] ∨ r.1 = Ok () ∧ errors r.2 = [e])
  ∧ counts r.2 = [] ∧ Created ∉ stdout r.2.

Global Instance succeeds_dec r n : Decision (succeeds r n).
Proof. unfold succeeds. apply _. Defined.

Global Instance fails_dec r e : Decision (fails r e).
Proof. unfold fails. apply _. Defined.

(** What a reader finds in the output of a run. *)
Definition read_output {A} (r : result A * world) : option rfc4180.records :=
  output r ≫= rfc4180.read.

(** The record has all eleven keys. *)
Definition has_all_keys (d : dict) : Prop :=
  Forall (λ field, field ∈ keys d) fieldnames.

(** The output begins with the line [header]. *)
Definition begins_with (header : string) (text : option string) : Prop :=
  ∃ rest, text = Some (header +:+ rest).

(** The lines of a complete export of [exs], and what a reader finds in
    them. *)
Definition document (fields : list string) (exs : list dict) : list string :=
  header_line fields :: data_lines fields exs.

Definition table (fields : list string) (exs : list dict) : rfc4180.records :=
  fields :: ((λ d, cell d <$> fields) <$> exs).

(** The header lines, letter by letter. *)
Definition header_text : string :=
  "id,name,instructions,video_url,created_at,type,difficulty,category_id,is_variation,equipment,muscle"
  +:+ csv.lineterminator.

Definition export_to_csv_header_text : string :=
  "id,name,type,muscle,instructions,equipment,video_url,difficulty,category_id,is_variation,created_at"
  +:+ csv.lineterminator.

(** The lines [complete_export.py] prints last, whatever happened. *)
Definition instructions : list line :=
  [Text (String LF "Instructions for creating a complete export:");
   Text "1. Replace the 'exercises_data' list in this script with ALL exercises from Supabase";
   Text "2. To get the complete data, run: mcp_supabase_execute_sql with:";
   Text "   - project_id: 'rokicoqziukzgvhpoclk'";
   Text "   - query: 'SELECT * FROM exercises;'";
   Text "3. Copy the ENTIRE result and replace the sample data in the exercises_data list";
   Text "4. Run this script again to generate the complete CSV file"].

(** The lines [export_exercises] prints around the block. *)
Definition exporting : line := Text "Exporting exercises to CSV...".
Definition please : line :=
  Text "Please make sure the exercises_data.json file exists and is formatted correctly.".

(** ** Sample records and destinations *)

(** The record of the example of the specification. *)
Definition push_up : dict :=
  [("id", VStr "1"); ("name", VStr "Push-up");
   ("instructions", VStr ("Step 1" +:+ String LF "Step 2"));
   ("video_url", VStr ""); ("created_at", VStr ""); ("type", VStr "chest");
   ("difficulty", VNone); ("category_id", VNone); ("is_variation", VBool false);
   ("equipment", VStr "{bodyweight}"); ("muscle", VNone)].

(** A record with a key that is no column, and one without its [id]. *)
Definition with_notes : dict := ("notes", VStr "x") :: push_up.
Definition without_id : dict := tail push_up.

(** A destination whose encoding takes the header and one row and
    refuses the next line. *)
Definition two_lines_only : destination :=
  Destination None (Some 2) "character maps to <undefined>" None.

(** A device that is full, under a file object that flushes when it is
    closed, as it does for a text shorter than its buffer. *)
Definition full_disk : device :=
  Device (Some 0) "[Errno 28] No space left on device" (λ _, false).

(** A device with room for 150 characters, under a file object that
    flushes at every write. *)
Definition small_disk : device :=
  Device (Some 150) "[Errno 28] No space left on device" (λ _, true).

(** ** The scripts the claims leave out *)

(** The record that [complete_export.py], [export_complete.py] and
    [create_data_file] carry as inline data, with the line breaks its
    instructions have once the text is decoded. *)
Definition ab_wheel_rollout : dict :=
  [("id", VStr "13ea3417-4c7f-4385-8877-0d82ed594bf1");
   ("name", VStr "Ab wheel rollout");
   ("instructions",
    VStr ("Kneel on the floor holding the ab wheel handles"
          +:+ String LF "Place the wheel in front of your knees and brace your core"
          +:+ String LF "Slowly roll the wheel forward as far as you can without arching your back"
          +:+ String LF "Pause briefly at full extension"
          +:+ String LF "Roll the wheel back by contracting your abs"));
   ("video_url",
    VStr "https://rokicoqziukzgvhpoclk.supabase.co/storage/v1/object/public/exercises-gifs//AB%20Wheel%20Right%20out_Female.gif");
   ("created_at", VStr "2025-04-22 20:37:38.504762+00");
   ("type", VStr "abs"); ("difficulty", VNone); ("category_id", VNone);
   ("is_variation", VBool false); ("equipment", VStr "{ab_wheel}");
   ("muscle", VNone)].

Module export_complete.

(** [exercises_data = json.loads(...)] of line 27: the text is a
    constant of the script and decodes to the one record above. *)
Definition json_loads : M unit := λ w,
  (Ok (), World [ab_wheel_rollout] (csvfile w) (stdout w)).

(** The module body on the device [disk].  The file is opened and the
    header written before the data is decoded; the note is printed inside
    the [try], after the [with] block. *)
Definition main (disk : device) : M unit :=
  try_except
    (with_open disk (Some "utf-8") (λ file,
       let writer := DictWriter.new file fieldnames in
       DictWriter.writeheader writer ;;
       print (Text "Processing exercise data...") ;;
       json_loads ;;
       count ← write_exercises writer;
       print Created ;;
       print (Exported count)) ;;
     print (Text (String LF "Note: This script exports a single exercise as an example.")) ;;
     print (Text "To export all exercises, run 'python3 export_all_exercises.py'"))
    (λ e, print (Error e)).

End export_complete.

(** [fetch_exercises] of [export_exercises.py] and the [__main__] block
    that starts with it. *)
Module export_exercises_fetch.

(** What [requests.get] gives: it raises (no connection), or returns a
    response with a status code, a body text and, when the body is a JSON
    text, what [response.json()] decodes it to. *)
Inductive reply : Type :=
  | ConnectionError (msg : string)
  | Response (status_code : nat) (text : string) (json : option decoded).

Definition fetch_exercises (r : reply) : M decoded :=
  print (Text "Fetching exercises from Supabase...") ;;
  match r with
  | ConnectionError msg => raise (OSError msg)
  | Response status_code text json =>
      if decide (status_code = 200)
      then
        match json with
        | Some exercises =>
            n ← len exercises;
            print (Text ("Successfully fetched " +:+ pretty n
                         +:+ " exercises")) ;;
            mret exercises
        | None => raise (LoadError text)
        end
      else
        print (Text ("Error fetching data: " +:+ pretty status_code)) ;;
        print (Text text) ;;
        mret (Records [])
  end.

(** The [__main__] block: [exercises = fetch_exercises()], whose records
    are on the [heap] from here on, then the guard and the export of
    [export_exercises.main]. *)
Definition main (disk : device) (r : reply) : M unit :=
  exercises ← fetch_exercises r;
  (λ w, (Ok (), World (records exercises) (csvfile w) (stdout w))) ;;
  export_exercises.main disk exercises.

End export_exercises_fetch.

(** ** The file a run leaves on a device that takes whatever is written,
    computed from the records *)

(** The number of records at the front of [exs] that [DictWriter]
    takes. *)
Fixpoint accepted_prefix (fields : list string) (exs : list dict) : nat :=
  match exs with
  | [] => 0
  | d :: exs' =>
      if decide (accepted fields d) then S (accepted_prefix fields exs') else 0
  end.

(** The number of lines the file object takes: the header and the rows of
    the records before the first one with a foreign key, up to the first
    line the encoding of the file refuses.  On a device that takes
    whatever is written these are the lines of the file. *)
Definition lines_written (fields : list string) (exs : list dict)
    (dest : destination) : nat :=
  let attempted := S (accepted_prefix fields exs) in
  match writes_left dest with
  | None => attempted
  | Some q => attempted `min` q
  end.

Definition file_after (fields : list string) (exs : list dict)
    (dest : destination) : destination :=
  match open_error dest with
  | Some _ => dest
  | None =>
      written (opened dest)
        (take (lines_written fields exs dest)
           (header_line fields :: data_lines fields exs))
  end.

(** The ways a run can go on such a device, by the records and the
    destination alone. *)
Inductive situation (fields : list string) (exs : list dict)
    (dest : destination) : Prop :=
  | CannotOpen msg :
      open_error dest = Some msg → situation fields exs dest
  | Complete :
      open_error dest = None → Forall (accepted fields) exs →
      room dest (S (length exs)) → situation fields exs dest
  | ForeignKey k d :
      open_error dest = None → exs !! k = Some d → ¬ accepted fields d →
      Forall (accepted fields) (take k exs) → room dest (S k) →
      situation fields exs dest
  | WriteRefused q :
      open_error dest = None → writes_left dest = Some q → q ≤ length exs →
      Forall (accepted fields) (take q exs) → situation fields exs dest.

(** Every line of the document is taken by the file object: no record
    has a foreign key, the encoding takes every line, and no [write]
    flushes into a full device. *)
Definition through (disk : device) (fields : list string) (exs : list dict)
    (dest : destination) : Prop :=
  Forall (accepted fields) exs ∧ room dest (S (length exs))
  ∧ calm disk "" (document fields exs).

Global Instance through_dec disk fields exs dest :
  Decision (through disk fields exs dest).
Proof. unfold through. apply _. Defined.

(** The export is complete: the destination opens, every line of the
    document is taken, and the device holds the document. *)
Definition complete_on (disk : device) (fields : list string)
    (exs : list dict) (dest : destination) : Prop :=
  open_error dest = None ∧ through disk fields exs dest
  ∧ holds disk (cat (document fields exs)).

Global Instance complete_on_dec disk fields exs dest :
  Decision (complete_on disk fields exs dest).
Proof. unfold complete_on. apply _. Defined.

(** The ways the body of the [with] block can go on the device [disk],
    once the destination is open: every line is taken; or the lines up to
    the first record with a foreign key are; or the encoding refuses the
    line after the first [q]; or the [write] of that line flushes into
    the full device. *)
Inductive course (disk : device) (fields : list string) (exs : list dict)
    (dest : destination) : Prop :=
  | AllRows :
      through disk fields exs dest → course disk fields exs dest
  | BadKey k d :
      exs !! k = Some d → ¬ accepted fields d →
      Forall (accepted fields) (take k exs) → room dest (S k) →
      calm disk "" (take (S k) (document fields exs)) →
      course disk fields exs dest
  | Unencodable q :
      writes_left dest = Some q → q ≤ length exs →
      Forall (accepted fields) (take q exs) →
      calm disk "" (take q (document fields exs)) →
      course disk fields exs dest
  | DeviceFull q :
      q ≤ length exs → Forall (accepted fields) (take q exs) →
      room dest (S q) → calm disk "" (take q (document fields exs)) →
      detects disk (String.length (cat (take (S q) (document fields exs))))
      = true →
      course disk fields exs dest.

(** The runs of the further scripts. *)
Definition export_complete_run (dest : destination) :=
  run (export_complete.main sound) [] dest.

Definition export_complete_on (disk : device) (dest : destination) :=
  run (export_complete.main disk) [] dest.

Definition fetch_and_export_run (r : export_exercises_fetch.reply)
    (dest : destination) :=
  run (export_exercises_fetch.main sound r) [] dest.

Definition fetch_and_export_on (disk : device)
    (r : export_exercises_fetch.reply) (dest : destination) :=
  run (export_exercises_fetch.main disk r) [] dest.

(** * Properties *)

(** ** Strings *)

Lemma append_nil_r (s : string) : s +:+ "" = s.
Proof. induction s as [|c s IH]; simpl; congruence. Qed.

Lemma append_assoc (s t u : string) : (s +:+ t) +:+ u = s +:+ (t +:+ u).
Proof. induction s as [|c s IH]; simpl; congruence. Qed.

Lemma append_cons (c : ascii) (s t : string) :
  String c s +:+ t = String c (s +:+ t).
Proof. done. Qed.

Lemma cat_app (ls ms : list string) : cat (ls ++ ms) = cat ls +:+ cat ms.
Proof.
  induction ls as [|l ls IH]; simpl; [done|].
  by rewrite IH, append_assoc.
Qed.

(** ** The reader undoes the row formatter *)

Section reader.
Import rfc4180.

(** The characters of [s] in front of the field being read. *)
Fixpoint push_string (s : string) (o : option records) : option records :=
  match s with
  | EmptyString => o
  | String c s' => push_string s' o ≫= push_char c
  end.

Lemma push_string_Some s f fs rs :
  push_string s (Some ((f :: fs) :: rs)) = Some (((s +:+ f) :: fs) :: rs).
Proof. induction s as [|c s IH]; simpl; [done|]. by rewrite IH. Qed.

(** A state in which a field may begin. *)
Definition starting (st : state) : Prop := st = RecordStart ∨ st = FieldStart.

(** What follows a field in a line the writer produces. *)
Definition closes_field (rest : string) : Prop :=
  ∃ r, rest = String COMMA r ∨ rest = String CR r.

Lemma parse_closes_field st rest :
  closes_field rest → st ≠ Quoted → st ≠ CRSeen →
  parse st rest = parse Unquoted rest.
Proof.
  intros [r [-> | ->]] ??; destruct st; simpl; done.
Qed.

Lemma special_false c :
  csv.special c = false → c ≠ DQUOTE ∧ c ≠ COMMA ∧ c ≠ CR ∧ c ≠ LF.
Proof.
  unfold csv.special, csv.delimiter, csv.quotechar.
  intros H. repeat (apply orb_false_elim in H as [H ?]).
  repeat split; by apply (bool_decide_eq_false_1 _).
Qed.

Lemma parse_plain st s rest :
  csv.needs_quotes s = false → closes_field rest →
  starting st ∨ st = Unquoted →
  parse st (s +:+ rest) = push_string s (parse Unquoted rest).
Proof.
  revert st. induction s as [|c s IH]; intros st Hq Hrest Hst.
  - simpl. apply parse_closes_field; [done| |];
      destruct Hst as [[-> | ->] | ->]; done.
  - simpl in Hq. apply orb_false_elim in Hq as [Hc Hq].
    apply special_false in Hc as (? & ? & ? & ?).
    assert (parse st (String c s +:+ rest)
            = parse Unquoted (s +:+ rest) ≫= push_char c) as ->.
    { destruct Hst as [[-> | ->] | ->]; simpl;
        repeat (case_decide; [done|]); done. }
    rewrite IH by auto. done.
Qed.

Lemma parse_escaped s rest :
  parse Quoted (csv.escape s +:+ String DQUOTE rest)
  = push_string s (parse QuoteSeen rest).
Proof.
  induction s as [|c s IH]; simpl; [done|].
  unfold csv.quotechar. case_bool_decide as Hc; simpl.
  - subst c. simpl. by rewrite IH.
  - rewrite decide_False by done. by rewrite IH.
Qed.

Lemma parse_format_field st s rest :
  closes_field rest → starting st →
  parse st (csv.format_field s +:+ rest) = push_string s (parse Unquoted rest).
Proof.
  intros Hrest Hst. unfold csv.format_field.
  destruct (csv.needs_quotes s) eqn:Hq.
  - assert (parse st (String csv.quotechar
              (csv.escape s +:+ String csv.quotechar "") +:+ rest)
            = parse Quoted (csv.escape s +:+ String DQUOTE rest)) as ->.
    { simpl. rewrite append_assoc. simpl.
      destruct Hst as [-> | ->]; simpl; done. }
    rewrite parse_escaped. f_equal. by apply parse_closes_field.
  - apply parse_plain; auto.
Qed.

Lemma parse_join_fields st fs rest rs :
  fs ≠ [] → starting st → parse RecordStart rest = Some rs →
  parse st (csv.join_fields fs +:+ csv.lineterminator +:+ rest)
  = Some (fs :: rs).
Proof.
  intros Hfs Hst Hrest. revert st Hst.
  induction fs as [|f fs IH]; intros st Hst; [done|].
  destruct fs as [|f' fs].
  - simpl csv.join_fields.
    rewrite parse_format_field; [|by eexists; right|done].
    simpl. rewrite Hrest. simpl. unfold end_record.
    by rewrite push_string_Some, append_nil_r.
  - change (csv.join_fields (f :: f' :: fs))
      with (csv.format_field f
            +:+ String csv.delimiter (csv.join_fields (f' :: fs))).
    rewrite append_assoc, append_cons.
    rewrite parse_format_field; [|by eexists; left|done].
    assert (parse Unquoted (String csv.delimiter
              (csv.join_fields (f' :: fs) +:+ csv.lineterminator +:+ rest))
            = parse FieldStart
                (csv.join_fields (f' :: fs) +:+ csv.lineterminator +:+ rest)
              ≫= end_field) as -> by done.
    rewrite IH; [|done|by right]. simpl.
    by rewrite push_string_Some, append_nil_r.
Qed.

Lemma parse_format_row row rest rs :
  row ≠ [] → parse RecordStart rest = Some rs →
  parse RecordStart (csv.format_row row +:+ rest)
  = Some ((csv.field_text <$> row) :: rs).
Proof.
  intros Hrow Hrest. unfold csv.format_row.
  destruct row as [|v [|v' row]]; [done| |].
  - case_decide as Hv.
    + simpl. rewrite Hrest, Hv. done.
    + rewrite append_assoc.
      apply (parse_join_fields _ [csv.field_text v]); [done|by left|done].
  - rewrite append_assoc. apply parse_join_fields; [done|by left|done].
Qed.

(** Reading a document of formatted rows gives back the text of every
    field of every row. *)
Lemma read_format_rows (rows : list (list value)) :
  Forall (λ row, row ≠ []) rows →
  read (cat (csv.format_row <$> rows))
  = Some ((λ row : list value, csv.field_text <$> row) <$> rows).
Proof.
  unfold read. induction 1 as [|row rows Hrow _ IH]; [done|].
  simpl. by apply parse_format_row.
Qed.

End reader.

(** ** Records and rows *)

Lemma keys_none_to_empty d : keys (none_to_empty d) = keys d.
Proof.
  unfold keys, none_to_empty. rewrite <- list_fmap_compose.
  apply list_fmap_ext. by intros _ [k v] _.
Qed.

Lemma none_to_empty_app d1 d2 :
  none_to_empty (d1 ++ d2) = none_to_empty d1 ++ none_to_empty d2.
Proof. apply fmap_app. Qed.

Lemma getitem_none_to_empty d key :
  getitem (none_to_empty d) key
  = (λ v, if is_None v then VStr "" else v) <$> getitem d key.
Proof.
  induction d as [|[k v] d IH]; simpl; [done|].
  case_decide; [done|]. apply IH.
Qed.

Lemma none_to_empty_id d :
  Forall (λ v, v ≠ VNone) d.*2 → none_to_empty d = d.
Proof.
  induction d as [|[k v] d IH]; simpl; [done|].
  intros [Hv Hd]%Forall_cons. rewrite IH by done.
  by destruct v.
Qed.

Lemma setitem_app_fresh d1 d2 key v v' :
  key ∉ keys d1 →
  setitem (d1 ++ (key, v) :: d2) key v' = d1 ++ (key, v') :: d2.
Proof.
  induction d1 as [|[k u] d1 IH]; simpl; intros Hkey.
  - by rewrite decide_True.
  - apply not_elem_of_cons in Hkey as [? ?].
    rewrite decide_False by done. by rewrite IH.
Qed.

Lemma accepted_filter fields d :
  accepted fields d ↔ filter (λ key, key ∉ fields) (keys d) = [].
Proof.
  unfold accepted. induction (keys d) as [|k ks IH]; [done|].
  rewrite Forall_cons, filter_cons. case_decide as Hk.
  - split; [by intros [? ?]|done].
  - rewrite <- IH. tauto.
Qed.

Lemma accepted_none_to_empty fields d :
  accepted fields (none_to_empty d) ↔ accepted fields d.
Proof. unfold accepted. by rewrite keys_none_to_empty. Qed.

(** The text of a cell is what the specification says, whether or not
    the record went through [none_to_empty] first. *)
Lemma field_text_get d key : csv.field_text (get d key (VStr "")) = cell d key.
Proof.
  unfold get, cell. destruct (getitem d key) as [v|]; [|done]. by destruct v.
Qed.

Lemma cell_none_to_empty d key : cell (none_to_empty d) key = cell d key.
Proof.
  unfold cell. rewrite getitem_none_to_empty.
  destruct (getitem d key) as [v|]; [|done]. by destruct v.
Qed.

Lemma field_text_row fields d :
  csv.field_text <$> row fields d = cell d <$> fields.
Proof.
  unfold row. rewrite <- list_fmap_compose.
  apply list_fmap_ext. intros _ key _. apply field_text_get.
Qed.

Lemma format_row_ext row1 row2 :
  csv.field_text <$> row1 = csv.field_text <$> row2 →
  csv.format_row row1 = csv.format_row row2.
Proof.
  intros H. unfold csv.format_row.
  destruct row1 as [|v1 [|u1 row1]], row2 as [|v2 [|u2 row2]]; try done.
  - injection H as H. by rewrite H.
  - by rewrite H.
Qed.

Lemma format_row_none_to_empty fields d :
  csv.format_row (row fields (none_to_empty d)) = csv.format_row (row fields d).
Proof.
  apply format_row_ext. rewrite !field_text_row.
  apply list_fmap_ext. intros _ key _. apply cell_none_to_empty.
Qed.

(** ** Statements *)

Lemma world_eta w : World (heap w) (csvfile w) (stdout w) = w.
Proof. by destruct w. Qed.

Lemma bind_Ok {A B} (m : M A) (f : A → M B) w a w' :
  m w = (Ok a, w') → (m ≫= f) w = f a w'.
Proof. unfold mbind, M_bind. by intros ->. Qed.

Lemma bind_Raised {A B} (m : M A) (f : A → M B) w e w' :
  m w = (Raised e, w') → (m ≫= f) w = (Raised e, w').
Proof. unfold mbind, M_bind. by intros ->. Qed.

Lemma for_in_app {A S} (xs ys : list A) (body : A → S → M S) s w :
  for_in (xs ++ ys) body s w = (for_in xs body s ≫= for_in ys body) w.
Proof.
  revert s w. induction xs as [|x xs IH]; intros s w; simpl; [done|].
  unfold mbind, M_bind in *. destruct (body x s w) as [[s'|e] w']; [|done].
  apply IH.
Qed.

(** A loop over positions whose every turn goes through. *)
Lemma for_in_seq_Ok {S} (body : nat → S → M S) (c : nat → S)
    (W : nat → world) n :
  (∀ k, k < n → body k (c k) (W k) = (Ok (c (Datatypes.S k)), W (Datatypes.S k))) →
  for_in (seq 0 n) body (c 0) (W 0) = (Ok (c n), W n).
Proof.
  induction n as [|n IH]; intros Hbody; [done|].
  rewrite seq_S, for_in_app. simpl.
  erewrite bind_Ok; [|apply IH; intros; apply Hbody; lia].
  simpl. erewrite bind_Ok; [done|]. apply Hbody. lia.
Qed.

(** A loop over positions whose turn [k] raises. *)
Lemma for_in_seq_Raised {S} (body : nat → S → M S) (c : nat → S)
    (W : nat → world) n k e w' :
  k < n →
  (∀ j, j < k → body j (c j) (W j) = (Ok (c (Datatypes.S j)), W (Datatypes.S j))) →
  body k (c k) (W k) = (Raised e, w') →
  for_in (seq 0 n) body (c 0) (W 0) = (Raised e, w').
Proof.
  intros Hk Hbody Hraise.
  replace n with (k + Datatypes.S (n - Datatypes.S k)) by lia.
  rewrite seq_app, for_in_app.
  erewrite bind_Ok; [|by apply for_in_seq_Ok].
  simpl. by erewrite bind_Raised.
Qed.

(** ** The destination file *)

Lemma written_written f ls ms : written (written f ls) ms = written f (ls ++ ms).
Proof.
  unfold written. simpl. f_equal.
  - destruct (writes_left f) as [q|]; simpl; [|done].
    f_equal. rewrite length_app. lia.
  - by rewrite cat_app, append_assoc.
Qed.

Lemma room_written f ls :
  room f (length ls + 1) → writes_left (written f ls) ≠ Some 0.
Proof.
  unfold room, written. simpl.
  destruct (writes_left f) as [q|]; simpl; [|done].
  intros ? [=]. lia.
Qed.

Lemma room_le f n m : m ≤ n → room f n → room f m.
Proof. unfold room. destruct (writes_left f); [lia|done]. Qed.

Lemma content_written f ls :
  default "" (content (written f ls)) = default "" (content f) +:+ cat ls.
Proof. done. Qed.

(** *** The device *)

Lemma first_bytes_ge n s : String.length s ≤ n → first_bytes n s = s.
Proof.
  revert n. induction s as [|c s IH]; intros [|n] Hn; simpl in *; try done.
  - lia.
  - rewrite IH; [done|lia].
Qed.

Lemma first_bytes_append n s t :
  first_bytes n (s +:+ t)
  = first_bytes n s +:+ first_bytes (n - String.length s) t.
Proof.
  revert n. induction s as [|c s IH]; intros n; simpl.
  - rewrite Nat.sub_0_r. by destruct n.
  - destruct n as [|n]; simpl; [by destruct t|]. by rewrite IH.
Qed.

Lemma first_bytes_0 s : first_bytes 0 s = "".
Proof. by destruct s. Qed.

Lemma holds_sound s : holds sound s.
Proof. done. Qed.

(** What fits on the device is there after [close]. *)
Lemma closed_holds disk f :
  holds disk (default "" (content f)) → closed disk f = f.
Proof.
  unfold holds, overflows, closed. destruct f as [oe wl we [s|]]; simpl;
    destruct (capacity disk) as [c|]; try done.
  intros Hc%bool_decide_eq_false. rewrite first_bytes_ge; [done|lia].
Qed.

Lemma calm_sound before ls : calm sound before ls.
Proof. unfold calm. by apply Forall_forall. Qed.

Lemma calm_lookup disk before ls m :
  calm disk before ls → m < length ls →
  detects disk (String.length (before +:+ cat (take (S m) ls))) = false.
Proof.
  unfold calm. rewrite Forall_seq. intros Hcalm Hm. apply Hcalm. lia.
Qed.

Lemma calm_app_l disk before ls ms :
  calm disk before (ls ++ ms) → calm disk before ls.
Proof.
  unfold calm. rewrite !Forall_seq. intros Hcalm m Hm.
  specialize (Hcalm m). rewrite length_app in Hcalm.
  rewrite take_app_le in Hcalm by lia. apply Hcalm. lia.
Qed.

Lemma calm_snoc disk before ls l :
  calm disk before (ls ++ [l]) →
  detects disk (String.length ((before +:+ cat ls) +:+ l)) = false.
Proof.
  intros Hcalm.
  pose proof (calm_lookup disk before (ls ++ [l]) (length ls) Hcalm) as H.
  rewrite length_app in H. simpl in H.
  rewrite take_ge in H by (rewrite length_app; simpl; lia).
  rewrite cat_app in H. simpl in H.
  rewrite append_nil_r, <- append_assoc in H. apply H. lia.
Qed.

Lemma calm_app disk before ls ms :
  calm disk before ls → calm disk (before +:+ cat ls) ms →
  calm disk before (ls ++ ms).
Proof.
  unfold calm. rewrite !Forall_seq. intros Hls Hms m Hm.
  rewrite length_app in Hm.
  destruct (decide (m < length ls)) as [Hlt|Hge].
  - rewrite take_app_le by lia. apply Hls. lia.
  - rewrite take_app_ge by lia. rewrite cat_app, <- append_assoc.
    replace (S m - length ls) with (S (m - length ls)) by lia.
    apply Hms. lia.
Qed.

Lemma goes_sound enc f ls : room f (length ls) → goes (TextIO enc sound) f ls.
Proof. intros Hroom. split; [done|]. apply calm_sound. Qed.

Lemma goes_app_l file f ls ms : goes file f (ls ++ ms) → goes file f ls.
Proof.
  intros [Hroom Hcalm]. split.
  - eapply room_le; [|done]. rewrite length_app. lia.
  - by eapply calm_app_l.
Qed.

Lemma goes_accepts file f ls l :
  goes file f (ls ++ [l]) → accepts file (written f ls) l.
Proof.
  intros [Hroom Hcalm]. split.
  - apply room_written. by rewrite length_app in Hroom.
  - rewrite content_written. by apply calm_snoc.
Qed.

Lemma goes_first file f l ls : goes file f (l :: ls) → accepts file f l.
Proof.
  intros [Hroom Hcalm]. split.
  - unfold room in Hroom. simpl in Hroom.
    destruct (writes_left f) as [[|q]|]; [lia|done..].
  - pose proof (calm_lookup _ _ _ 0 Hcalm) as H. simpl in H.
    rewrite ?take_0 in H. simpl in H. rewrite append_nil_r in H.
    apply H. lia.
Qed.

(** On a file just opened, with nothing written yet. *)
Lemma goes_opened enc disk dest ls :
  room dest (length ls) → calm disk "" ls →
  goes (TextIO enc disk) (opened dest) ls.
Proof. intros Hroom Hcalm. by split. Qed.

(** *** [open], [write] and [close] *)

Lemma open_w_Ok disk enc w :
  open_error (csvfile w) = None →
  open_w disk enc w
  = (Ok (TextIO enc disk), World (heap w) (opened (csvfile w)) (stdout w)).
Proof. unfold open_w. by intros ->. Qed.

Lemma open_w_Raised disk enc w msg :
  open_error (csvfile w) = Some msg →
  open_w disk enc w = (Raised (OSError msg), w).
Proof. unfold open_w. by intros ->. Qed.

Lemma write_Ok file l w :
  accepts file (csvfile w) l →
  write file l w = (Ok (), World (heap w) (written (csvfile w) [l]) (stdout w)).
Proof.
  unfold write, written. intros [Hq Hcalm].
  destruct (writes_left (csvfile w)) as [[|q]|]; [done| |]; simpl;
    rewrite Hcalm, append_nil_r; [|done].
  by rewrite Nat.sub_0_r.
Qed.

(** The encoding refuses the text: nothing of it joins the file. *)
Lemma write_refused file l w :
  writes_left (csvfile w) = Some 0 →
  write file l w
  = (Raised (UnicodeEncodeError (encoding file) (write_error (csvfile w))), w).
Proof. unfold write. by intros ->. Qed.

(** The text joins what the file object holds, and the flush fails. *)
Lemma write_detected file l w :
  writes_left (csvfile w) ≠ Some 0 →
  detects (raw file) (String.length (default "" (content (csvfile w)) +:+ l))
  = true →
  write file l w
  = (Raised (OSError (device_error (raw file))),
     World (heap w) (written (csvfile w) [l]) (stdout w)).
Proof.
  unfold write, written. intros Hq Hfull.
  destruct (writes_left (csvfile w)) as [[|q]|]; [done| |]; simpl;
    rewrite Hfull, append_nil_r; [|done].
  by rewrite Nat.sub_0_r.
Qed.

Lemma close_Ok file w :
  holds (raw file) (default "" (content (csvfile w))) → close file w = (Ok (), w).
Proof. unfold close, holds. by intros ->. Qed.

Lemma close_Raised file w :
  ¬ holds (raw file) (default "" (content (csvfile w))) →
  close file w
  = (Raised (OSError (device_error (raw file))),
     World (heap w) (closed (raw file) (csvfile w)) (stdout w)).
Proof.
  unfold close, holds. intros Hfull.
  by destruct (overflows _ _).
Qed.

(** Leaving the [with] block: the outcome of the body stands when the
    device holds the text, and gives way to the [OSError] of [close]
    when it does not. *)
Lemma finally_close_Ok {A} (body : M A) file w r w' :
  body w = (r, w') → holds (raw file) (default "" (content (csvfile w'))) →
  finally body (close file) w = (r, w').
Proof. intros Hbody Hfits. unfold finally. by rewrite Hbody, close_Ok. Qed.

Lemma finally_close_Raised {A} (body : M A) file w r w' :
  body w = (r, w') → ¬ holds (raw file) (default "" (content (csvfile w'))) →
  finally body (close file) w
  = (Raised (OSError (device_error (raw file))),
     World (heap w') (closed (raw file) (csvfile w')) (stdout w')).
Proof. intros Hbody Hfull. unfold finally. by rewrite Hbody, close_Raised. Qed.

Lemma finally_close_sound {A} (body : M A) enc w :
  finally body (close (TextIO enc sound)) w = body w.
Proof. unfold finally. by destruct (body w) as [r w']. Qed.

(** ** [DictWriter] *)

Lemma writerow_Ok file fields d w :
  accepted fields d → accepts file (csvfile w) (csv.format_row (row fields d)) →
  DictWriter.writerow (DictWriter.new file fields) d w
  = (Ok (), World (heap w) (written (csvfile w) [csv.format_row (row fields d)])
              (stdout w)).
Proof.
  intros Hd%accepted_filter Hq.
  unfold DictWriter.writerow, DictWriter._dict_to_list. simpl.
  rewrite Hd. erewrite bind_Ok; [|done]. by apply write_Ok.
Qed.

Lemma writerow_ValueError file fields d w :
  ¬ accepted fields d →
  DictWriter.writerow (DictWriter.new file fields) d w
  = (Raised (ValueError (filter (λ key, key ∉ fields) (keys d))), w).
Proof.
  intros Hd. unfold DictWriter.writerow, DictWriter._dict_to_list. simpl.
  destruct (filter _ (keys d)) as [|k ks] eqn:Hf.
  - by apply accepted_filter in Hf.
  - done.
Qed.

Lemma writerow_refused file fields d w :
  accepted fields d → writes_left (csvfile w) = Some 0 →
  DictWriter.writerow (DictWriter.new file fields) d w
  = (Raised (UnicodeEncodeError (encoding file) (write_error (csvfile w))), w).
Proof.
  intros Hd%accepted_filter Hq.
  unfold DictWriter.writerow, DictWriter._dict_to_list. simpl.
  rewrite Hd. erewrite bind_Ok; [|done]. by apply write_refused.
Qed.

Lemma writerow_detected file fields d w :
  accepted fields d → writes_left (csvfile w) ≠ Some 0 →
  detects (raw file)
    (String.length (default "" (content (csvfile w))
                    +:+ csv.format_row (row fields d))) = true →
  DictWriter.writerow (DictWriter.new file fields) d w
  = (Raised (OSError (device_error (raw file))),
     World (heap w) (written (csvfile w) [csv.format_row (row fields d)])
       (stdout w)).
Proof.
  intros Hd%accepted_filter Hq Hfull.
  unfold DictWriter.writerow, DictWriter._dict_to_list. simpl.
  rewrite Hd. erewrite bind_Ok; [|done]. by apply write_detected.
Qed.

(** The header record has the field names as keys and as values. *)
Lemma header_accepted fields :
  accepted fields ((λ f, (f, VStr f)) <$> fields).
Proof.
  unfold accepted, keys. rewrite <- list_fmap_compose.
  apply Forall_forall. intros k Hk.
  apply list_elem_of_fmap in Hk as (f & -> & Hf). done.
Qed.

Lemma header_row fields :
  row fields ((λ f, (f, VStr f)) <$> fields) = VStr <$> fields.
Proof.
  unfold row. apply list_fmap_ext. intros _ key Hkey%list_elem_of_lookup_2.
  unfold get. induction fields as [|f fields IH]; [by apply elem_of_nil in Hkey|].
  simpl. case_decide as Hf; [by subst|].
  apply elem_of_cons in Hkey as [->|Hkey]; [done|]. by apply IH.
Qed.

Lemma writeheader_Ok file fields w :
  accepts file (csvfile w) (header_line fields) →
  DictWriter.writeheader (DictWriter.new file fields) w
  = (Ok (), World (heap w) (written (csvfile w) [header_line fields]) (stdout w)).
Proof.
  intros Hq. unfold DictWriter.writeheader. simpl.
  rewrite writerow_Ok; rewrite ?header_row; auto using header_accepted.
Qed.

Lemma writeheader_refused file fields w :
  writes_left (csvfile w) = Some 0 →
  DictWriter.writeheader (DictWriter.new file fields) w
  = (Raised (UnicodeEncodeError (encoding file) (write_error (csvfile w))), w).
Proof.
  intros Hq. unfold DictWriter.writeheader. simpl.
  by rewrite writerow_refused by auto using header_accepted.
Qed.

Lemma writeheader_detected file fields w :
  writes_left (csvfile w) ≠ Some 0 →
  detects (raw file)
    (String.length (default "" (content (csvfile w)) +:+ header_line fields))
  = true →
  DictWriter.writeheader (DictWriter.new file fields) w
  = (Raised (OSError (device_error (raw file))),
     World (heap w) (written (csvfile w) [header_line fields]) (stdout w)).
Proof.
  intros Hq Hfull. unfold DictWriter.writeheader. simpl.
  rewrite writerow_detected; rewrite ?header_row; auto using header_accepted.
Qed.

(** ** The inner loop: [None] becomes the empty string *)

(** The body of the inner loop of [write_exercises]. *)
Local Definition blank (exercise : nat) : string * value → () → M () :=
  λ '(key, value) _,
    if is_None value
    then store_setitem exercise key (VStr "")
    else mret ().

Lemma inner_loop_from i d1 d2 w :
  dict_wf (d1 ++ d2) →
  heap w !! i = Some (none_to_empty d1 ++ d2) →
  for_in d2 (blank i) () w
  = (Ok (), World (<[i := none_to_empty (d1 ++ d2)]> (heap w))
              (csvfile w) (stdout w)).
Proof.
  revert d1 w. induction d2 as [|[key v] d2 IH]; intros d1 w Hwf Hi.
  - simpl. rewrite app_nil_r in *. rewrite list_insert_id by done.
    by rewrite world_eta.
  - assert (key ∉ keys (none_to_empty d1)) as Hfresh.
    { rewrite keys_none_to_empty. unfold dict_wf, keys in *.
      rewrite fmap_app in Hwf. apply NoDup_app in Hwf as (_ & Hwf & _).
      intros Hk. apply (Hwf key Hk). simpl. left. }
    replace (d1 ++ (key, v) :: d2) with ((d1 ++ [(key, v)]) ++ d2) in *
      by by rewrite <- app_assoc.
    simpl. destruct (is_None v) eqn:Hv.
    + destruct v; try done.
      erewrite bind_Ok; [|done]. rewrite (IH (d1 ++ [(key, VNone)])); simpl.
      * f_equal. f_equal. rewrite !list_insert_alter.
        by rewrite list_alter_alter_eq.
      * done.
      * rewrite list_lookup_alter_eq, Hi. simpl.
        rewrite setitem_app_fresh by done.
        by rewrite none_to_empty_app, <- app_assoc.
    + erewrite bind_Ok; [|done]. rewrite (IH (d1 ++ [(key, v)])); [done..|].
      rewrite Hi, none_to_empty_app, <- app_assoc. simpl. by rewrite Hv.
Qed.

Lemma inner_loop i d w :
  dict_wf d → heap w !! i = Some d →
  for_in (items d) (blank i) () w
  = (Ok (), World (<[i := none_to_empty d]> (heap w)) (csvfile w) (stdout w)).
Proof. intros. by apply (inner_loop_from i []). Qed.

(** ** One turn of the record loop *)

(** The body of the outer loop of [write_exercises]. *)
Local Definition turn (writer : DictWriter.t) : nat → nat → M nat :=
  λ exercise count,
    d ← load exercise;
    for_in (items d) (blank exercise) () ;;
    d ← load exercise;
    DictWriter.writerow writer d ;;
    mret (count + 1).

Lemma write_exercises_turns writer w :
  write_exercises writer w = for_in (seq 0 (length (heap w))) (turn writer) 0 w.
Proof. done. Qed.

(** The turn up to the call of [writerow]. *)
Lemma turn_blank file fields k count w d :
  heap w !! k = Some d → dict_wf d →
  turn (DictWriter.new file fields) k count w
  = (DictWriter.writerow (DictWriter.new file fields) (none_to_empty d) ;;
     mret (count + 1))
      (World (<[k := none_to_empty d]> (heap w)) (csvfile w) (stdout w)).
Proof.
  intros Hk Hwf. unfold turn.
  erewrite bind_Ok; [|by unfold load; rewrite Hk].
  erewrite bind_Ok; [|by apply inner_loop].
  erewrite bind_Ok; [done|]. unfold load. simpl.
  rewrite list_lookup_insert_eq by by eapply lookup_lt_Some. done.
Qed.

Lemma turn_Ok file fields k count w d :
  heap w !! k = Some d → dict_wf d → accepted fields d →
  accepts file (csvfile w) (csv.format_row (row fields d)) →
  turn (DictWriter.new file fields) k count w
  = (Ok (S count),
     World (<[k := none_to_empty d]> (heap w))
       (written (csvfile w) [csv.format_row (row fields d)]) (stdout w)).
Proof.
  intros Hk Hwf Hd Hq. erewrite turn_blank by done.
  erewrite bind_Ok; cycle 1.
  { apply writerow_Ok; [by apply accepted_none_to_empty|].
    by rewrite format_row_none_to_empty. }
  simpl. rewrite format_row_none_to_empty, Nat.add_1_r. done.
Qed.

Lemma turn_ValueError file fields k count w d :
  heap w !! k = Some d → dict_wf d → ¬ accepted fields d →
  turn (DictWriter.new file fields) k count w
  = (Raised (ValueError (filter (λ key, key ∉ fields) (keys d))),
     World (<[k := none_to_empty d]> (heap w)) (csvfile w) (stdout w)).
Proof.
  intros Hk Hwf Hd. erewrite turn_blank by done.
  erewrite bind_Raised; [done|].
  rewrite writerow_ValueError by by rewrite accepted_none_to_empty.
  by rewrite keys_none_to_empty.
Qed.

Lemma turn_refused file fields k count w d :
  heap w !! k = Some d → dict_wf d → accepted fields d →
  writes_left (csvfile w) = Some 0 →
  turn (DictWriter.new file fields) k count w
  = (Raised (UnicodeEncodeError (encoding file) (write_error (csvfile w))),
     World (<[k := none_to_empty d]> (heap w)) (csvfile w) (stdout w)).
Proof.
  intros Hk Hwf Hd Hq. erewrite turn_blank by done.
  erewrite bind_Raised; [done|].
  by rewrite writerow_refused by by rewrite ?accepted_none_to_empty.
Qed.

Lemma turn_detected file fields k count w d :
  heap w !! k = Some d → dict_wf d → accepted fields d →
  writes_left (csvfile w) ≠ Some 0 →
  detects (raw file)
    (String.length (default "" (content (csvfile w))
                    +:+ csv.format_row (row fields d))) = true →
  turn (DictWriter.new file fields) k count w
  = (Raised (OSError (device_error (raw file))),
     World (<[k := none_to_empty d]> (heap w))
       (written (csvfile w) [csv.format_row (row fields d)]) (stdout w)).
Proof.
  intros Hk Hwf Hd Hq Hfull. erewrite turn_blank by done.
  erewrite bind_Raised; [done|].
  rewrite writerow_detected; rewrite ?format_row_none_to_empty;
    by rewrite ?accepted_none_to_empty.
Qed.

(** ** The record loop *)

Section record_loop.
Variables (file : TextIOWrapper) (fields : list string) (exs : list dict).
Variables (g : destination) (ls0 : list string) (out : list line).

(** The loop starts on the records [exs] with the lines [ls0] already
    taken by the file object.  [after k] is the state after [k] turns
    have gone through: the first [k] records have their [None] replaced
    and their lines have joined the text. *)
Definition after (k : nat) : world :=
  World ((none_to_empty <$> take k exs) ++ drop k exs)
    (written g (ls0 ++ data_lines fields (take k exs))) out.

Lemma after_0 : after 0 = World exs (written g ls0) out.
Proof. unfold after. rewrite take_0, drop_0. simpl. by rewrite app_nil_r. Qed.

Lemma after_all :
  after (length exs)
  = World (none_to_empty <$> exs) (written g (ls0 ++ data_lines fields exs)) out.
Proof.
  unfold after. rewrite take_ge, drop_ge by done. by rewrite app_nil_r.
Qed.

Lemma after_lookup k d : exs !! k = Some d → heap (after k) !! k = Some d.
Proof.
  intros Hk. simpl. pose proof (lookup_lt_Some _ _ _ Hk).
  rewrite lookup_app_r; rewrite length_fmap, length_take_le by lia; [|done].
  by rewrite Nat.sub_diag, lookup_drop, Nat.add_0_r.
Qed.

Lemma after_blank k d :
  exs !! k = Some d →
  <[k := none_to_empty d]> (heap (after k)) = heap (after (S k)).
Proof.
  intros Hk. simpl. pose proof (lookup_lt_Some _ _ _ Hk).
  rewrite insert_app_r_alt; rewrite length_fmap, length_take_le by lia; [|done].
  rewrite Nat.sub_diag, (drop_S _ _ _ Hk), (take_S_r _ _ _ Hk). simpl.
  by rewrite fmap_app, <- app_assoc.
Qed.

Lemma after_written k d :
  exs !! k = Some d →
  written (csvfile (after k)) [csv.format_row (row fields d)]
  = csvfile (after (S k)).
Proof.
  intros Hk. simpl. rewrite written_written, (take_S_r _ _ _ Hk).
  unfold data_lines. by rewrite fmap_app, <- app_assoc.
Qed.

Lemma lines_S k d :
  exs !! k = Some d →
  ls0 ++ data_lines fields (take (S k) exs)
  = (ls0 ++ data_lines fields (take k exs)) ++ [csv.format_row (row fields d)].
Proof.
  intros Hk. rewrite (take_S_r _ _ _ Hk). unfold data_lines.
  by rewrite fmap_app, <- app_assoc.
Qed.

Lemma goes_le j k :
  j ≤ k → goes file g (ls0 ++ data_lines fields (take k exs)) →
  goes file g (ls0 ++ data_lines fields (take j exs)).
Proof.
  intros Hj Hgoes.
  replace (take j exs) with (take j (take k exs))
    by by rewrite take_take, Nat.min_l.
  rewrite <- (take_drop j (take k exs)) in Hgoes at 1.
  unfold data_lines in *. rewrite fmap_app, app_assoc in Hgoes.
  by eapply goes_app_l.
Qed.

Lemma after_accepts k d :
  exs !! k = Some d →
  goes file g (ls0 ++ data_lines fields (take (S k) exs)) →
  accepts file (csvfile (after k)) (csv.format_row (row fields d)).
Proof.
  intros Hk Hg. rewrite (lines_S k d Hk) in Hg. simpl.
  by apply goes_accepts.
Qed.

Lemma after_room k :
  k ≤ length exs → room g (length ls0 + k + 1) →
  writes_left (csvfile (after k)) ≠ Some 0.
Proof.
  intros Hk Hg. simpl. apply room_written.
  unfold data_lines. by rewrite length_app, length_fmap, length_take_le.
Qed.

Lemma after_quota k :
  k ≤ length exs → writes_left g = Some (length ls0 + k) →
  writes_left (csvfile (after k)) = Some 0.
Proof.
  intros Hk Hg. simpl. rewrite Hg. simpl. f_equal.
  unfold data_lines. rewrite length_app, length_fmap, length_take_le by lia.
  lia.
Qed.

(** *** [write_exercises] *)

Lemma turn_after k d :
  exs !! k = Some d → dict_wf d → accepted fields d →
  goes file g (ls0 ++ data_lines fields (take (S k) exs)) →
  turn (DictWriter.new file fields) k k (after k) = (Ok (S k), after (S k)).
Proof.
  intros Hk Hwf Hd Hg. pose proof (lookup_lt_Some _ _ _ Hk).
  erewrite turn_Ok; eauto using after_lookup, after_accepts.
  by rewrite after_blank, after_written.
Qed.

Lemma turns_after k :
  Forall dict_wf (take k exs) → Forall (accepted fields) (take k exs) →
  goes file g (ls0 ++ data_lines fields (take k exs)) →
  ∀ j, j < k → j < length exs →
    turn (DictWriter.new file fields) j j (after j) = (Ok (S j), after (S j)).
Proof.
  intros Hwf Hacc Hg j Hj Hlen.
  destruct (lookup_lt_is_Some_2 exs j Hlen) as [d Hd].
  assert (take k exs !! j = Some d) as Htake by by rewrite lookup_take_lt.
  apply (turn_after j d); [done|..].
  - eapply Forall_lookup_1; eauto.
  - eapply Forall_lookup_1; eauto.
  - apply (goes_le (S j) k); [lia|done].
Qed.

(** Every turn goes through. *)
Lemma write_exercises_Ok :
  Forall dict_wf exs → Forall (accepted fields) exs →
  goes file g (ls0 ++ data_lines fields exs) →
  write_exercises (DictWriter.new file fields) (World exs (written g ls0) out)
  = (Ok (length exs),
     World (none_to_empty <$> exs)
       (written g (ls0 ++ data_lines fields exs)) out).
Proof.
  intros Hwf Hacc Hg. rewrite write_exercises_turns. simpl.
  rewrite <- after_0, <- after_all.
  apply (for_in_seq_Ok _ id after). intros k Hk.
  apply (turns_after (length exs)); rewrite ?take_ge; auto.
Qed.

(** Turn [k] meets a record with a key outside [fields]. *)
Lemma write_exercises_ValueError k d :
  exs !! k = Some d →
  Forall dict_wf (take (S k) exs) → Forall (accepted fields) (take k exs) →
  ¬ accepted fields d → goes file g (ls0 ++ data_lines fields (take k exs)) →
  write_exercises (DictWriter.new file fields) (World exs (written g ls0) out)
  = (Raised (ValueError (filter (λ key, key ∉ fields) (keys d))),
     World (heap (after (S k))) (csvfile (after k)) out).
Proof.
  intros Hk Hwf Hacc Hd Hg. pose proof (lookup_lt_Some _ _ _ Hk).
  rewrite write_exercises_turns. simpl. rewrite <- after_0.
  apply (for_in_seq_Raised _ id after _ k); [done| |].
  - intros j Hj. apply (turns_after k); auto; [|lia].
    rewrite (take_S_r _ _ _ Hk) in Hwf. by apply Forall_app in Hwf as [? _].
  - unfold id. erewrite turn_ValueError; eauto using after_lookup.
    + by rewrite after_blank.
    + rewrite (take_S_r _ _ _ Hk) in Hwf.
      apply Forall_app in Hwf as [_ Hwf]. by apply Forall_inv in Hwf.
Qed.

(** Turn [k] is the first whose text the encoding refuses. *)
Lemma write_exercises_refused k d :
  exs !! k = Some d →
  Forall dict_wf (take (S k) exs) → Forall (accepted fields) (take (S k) exs) →
  goes file g (ls0 ++ data_lines fields (take k exs)) →
  writes_left g = Some (length ls0 + k) →
  write_exercises (DictWriter.new file fields) (World exs (written g ls0) out)
  = (Raised (UnicodeEncodeError (encoding file) (write_error g)),
     World (heap (after (S k))) (csvfile (after k)) out).
Proof.
  intros Hk Hwf Hacc Hgoes Hg. pose proof (lookup_lt_Some _ _ _ Hk).
  rewrite (take_S_r _ _ _ Hk) in Hwf, Hacc.
  apply Forall_app in Hwf as [Hwf Hwfd], Hacc as [Hacc Haccd].
  apply Forall_inv in Hwfd, Haccd.
  rewrite write_exercises_turns. simpl. rewrite <- after_0.
  apply (for_in_seq_Raised _ id after _ k); [done| |].
  - intros j Hj. apply (turns_after k); auto. lia.
  - unfold id. erewrite turn_refused; eauto using after_lookup.
    + by rewrite after_blank.
    + apply after_quota; [lia|done].
Qed.

(** Turn [k] is the first whose [write] flushes into the full device. *)
Lemma write_exercises_detected k d :
  exs !! k = Some d →
  Forall dict_wf (take (S k) exs) → Forall (accepted fields) (take (S k) exs) →
  goes file g (ls0 ++ data_lines fields (take k exs)) →
  room g (length ls0 + k + 1) →
  detects (raw file)
    (String.length
       (default "" (content g)
        +:+ cat (ls0 ++ data_lines fields (take (S k) exs)))) = true →
  write_exercises (DictWriter.new file fields) (World exs (written g ls0) out)
  = (Raised (OSError (device_error (raw file))),
     World (heap (after (S k))) (csvfile (after (S k))) out).
Proof.
  intros Hk Hwf Hacc Hgoes Hroom Hfull. pose proof (lookup_lt_Some _ _ _ Hk).
  rewrite (take_S_r _ _ _ Hk) in Hwf, Hacc.
  apply Forall_app in Hwf as [Hwf Hwfd], Hacc as [Hacc Haccd].
  apply Forall_inv in Hwfd, Haccd.
  rewrite write_exercises_turns. simpl. rewrite <- after_0.
  apply (for_in_seq_Raised _ id after _ k); [done| |].
  - intros j Hj. apply (turns_after k); auto. lia.
  - unfold id. erewrite turn_detected; eauto using after_lookup.
    + by rewrite after_blank, after_written.
    + apply after_room; [lia|done].
    + rewrite (lines_S k d Hk), cat_app in Hfull. simpl in Hfull.
      rewrite append_nil_r, <- append_assoc in Hfull.
      exact Hfull.
Qed.

End record_loop.

(** *** The loop of [json_to_csv.py] *)

Section plain_loop.
Variables (file : TextIOWrapper) (fields : list string) (exs : list dict).
Variables (g : destination) (ls0 : list string) (out : list line).

(** The body of the loop of [json_to_csv.main]. *)
Local Definition plain_turn (writer : DictWriter.t) : nat → () → M () :=
  λ exercise _, d ← load exercise; DictWriter.writerow writer d.

(** The state after [k] turns: the records are as they were. *)
Definition plain_after (k : nat) : world :=
  World exs (written g (ls0 ++ data_lines fields (take k exs))) out.

Lemma plain_after_0 : plain_after 0 = World exs (written g ls0) out.
Proof. unfold plain_after. rewrite take_0. simpl. by rewrite app_nil_r. Qed.

Lemma plain_after_written k d :
  exs !! k = Some d →
  written (csvfile (plain_after k)) [csv.format_row (row fields d)]
  = csvfile (plain_after (S k)).
Proof. apply (after_written fields exs g ls0 out). Qed.

Lemma plain_turns_after k :
  Forall (accepted fields) (take k exs) →
  goes file g (ls0 ++ data_lines fields (take k exs)) →
  ∀ j, j < k → j < length exs →
    plain_turn (DictWriter.new file fields) j () (plain_after j)
    = (Ok (), plain_after (S j)).
Proof.
  intros Hacc Hg j Hj Hlen.
  destruct (lookup_lt_is_Some_2 exs j Hlen) as [d Hd].
  assert (take k exs !! j = Some d) as Htake by by rewrite lookup_take_lt.
  unfold plain_turn. erewrite bind_Ok; [|by unfold load; simpl; rewrite Hd].
  simpl. rewrite writerow_Ok.
  - by rewrite (plain_after_written j d).
  - eapply Forall_lookup_1; eauto.
  - apply (after_accepts file fields exs g ls0 out j d); [done|].
    apply (goes_le file fields exs g ls0 (S j) k); [lia|done].
Qed.

Lemma plain_loop_Ok :
  Forall (accepted fields) exs → goes file g (ls0 ++ data_lines fields exs) →
  for_in (seq 0 (length exs)) (plain_turn (DictWriter.new file fields)) ()
    (World exs (written g ls0) out)
  = (Ok (), World exs (written g (ls0 ++ data_lines fields exs)) out).
Proof.
  intros Hacc Hg. rewrite <- plain_after_0.
  replace (World exs (written g (ls0 ++ data_lines fields exs)) out)
    with (plain_after (length exs))
    by by unfold plain_after; rewrite take_ge.
  apply (for_in_seq_Ok _ (λ _, ()) plain_after). intros k Hk.
  apply (plain_turns_after (length exs)); rewrite ?take_ge; auto.
Qed.

Lemma plain_loop_ValueError k d :
  exs !! k = Some d → Forall (accepted fields) (take k exs) →
  ¬ accepted fields d → goes file g (ls0 ++ data_lines fields (take k exs)) →
  for_in (seq 0 (length exs)) (plain_turn (DictWriter.new file fields)) ()
    (World exs (written g ls0) out)
  = (Raised (ValueError (filter (λ key, key ∉ fields) (keys d))),
     plain_after k).
Proof.
  intros Hk Hacc Hd Hg. pose proof (lookup_lt_Some _ _ _ Hk).
  rewrite <- plain_after_0.
  apply (for_in_seq_Raised _ (λ _, ()) plain_after _ k); [done| |].
  - intros j Hj. apply (plain_turns_after k); auto. lia.
  - unfold plain_turn. erewrite bind_Ok; [|by unfold load; simpl; rewrite Hk].
    simpl. by rewrite writerow_ValueError.
Qed.

Lemma plain_loop_refused k d :
  exs !! k = Some d → Forall (accepted fields) (take (S k) exs) →
  goes file g (ls0 ++ data_lines fields (take k exs)) →
  writes_left g = Some (length ls0 + k) →
  for_in (seq 0 (length exs)) (plain_turn (DictWriter.new file fields)) ()
    (World exs (written g ls0) out)
  = (Raised (UnicodeEncodeError (encoding file) (write_error g)),
     plain_after k).
Proof.
  intros Hk Hacc Hgoes Hg. pose proof (lookup_lt_Some _ _ _ Hk).
  rewrite (take_S_r _ _ _ Hk) in Hacc.
  apply Forall_app in Hacc as [Hacc Haccd]. apply Forall_inv in Haccd.
  rewrite <- plain_after_0.
  apply (for_in_seq_Raised _ (λ _, ()) plain_after _ k); [done| |].
  - intros j Hj. apply (plain_turns_after k); auto. lia.
  - unfold plain_turn. erewrite bind_Ok; [|by unfold load; simpl; rewrite Hk].
    simpl. rewrite writerow_refused; [done..|].
    apply (after_quota fields exs g ls0 out); [lia|done].
Qed.

Lemma plain_loop_detected k d :
  exs !! k = Some d → Forall (accepted fields) (take (S k) exs) →
  goes file g (ls0 ++ data_lines fields (take k exs)) →
  room g (length ls0 + k + 1) →
  detects (raw file)
    (String.length
       (default "" (content g)
        +:+ cat (ls0 ++ data_lines fields (take (S k) exs)))) = true →
  for_in (seq 0 (length exs)) (plain_turn (DictWriter.new file fields)) ()
    (World exs (written g ls0) out)
  = (Raised (OSError (device_error (raw file))), plain_after (S k)).
Proof.
  intros Hk Hacc Hgoes Hroom Hfull. pose proof (lookup_lt_Some _ _ _ Hk).
  rewrite (take_S_r _ _ _ Hk) in Hacc.
  apply Forall_app in Hacc as [Hacc Haccd]. apply Forall_inv in Haccd.
  rewrite <- plain_after_0.
  apply (for_in_seq_Raised _ (λ _, ()) plain_after _ k); [done| |].
  - intros j Hj. apply (plain_turns_after k); auto. lia.
  - unfold plain_turn. erewrite bind_Ok; [|by unfold load; simpl; rewrite Hk].
    simpl. rewrite writerow_detected; [|done| |].
    + by rewrite (plain_after_written k d).
    + apply (after_room fields exs g ls0 out); [lia|done].
    + rewrite (lines_S fields exs ls0 k d Hk), cat_app in Hfull.
      simpl in Hfull. rewrite append_nil_r, <- append_assoc in Hfull.
      exact Hfull.
Qed.

End plain_loop.

(** ** [writerows] *)

(** [writerow] leaves the records and what has been printed. *)
Lemma writerow_frame self d w :
  heap (DictWriter.writerow self d w).2 = heap w
  ∧ stdout (DictWriter.writerow self d w).2 = stdout w.
Proof.
  unfold DictWriter.writerow, DictWriter._dict_to_list, write, mbind, M_bind.
  destruct (filter _ (keys d)); simpl; [|done].
  destruct (writes_left (csvfile w)) as [[|q]|]; simpl; [done|..];
    by destruct (detects _ _).
Qed.

(** Over records that stay as they are, the loop of [json_to_csv.py]
    over the positions does what [writerows] does over the list. *)
Lemma plain_loop_writerows self pre exs f out :
  for_in (seq (length pre) (length exs)) (plain_turn self) ()
    (World (pre ++ exs) f out)
  = DictWriter.writerows self exs (World (pre ++ exs) f out).
Proof.
  unfold DictWriter.writerows.
  revert pre f. induction exs as [|d exs IH]; intros pre f; simpl; [done|].
  assert (plain_turn self (length pre) () (World (pre ++ d :: exs) f out)
          = DictWriter.writerow self d (World (pre ++ d :: exs) f out))
    as Hturn.
  { unfold plain_turn. erewrite bind_Ok; [done|].
    unfold load. simpl. by rewrite list_lookup_middle. }
  unfold mbind, M_bind. rewrite Hturn.
  destruct (writerow_frame self d (World (pre ++ d :: exs) f out))
    as [Hheap Hout].
  destruct (DictWriter.writerow self d _) as [[[]|e] [h f' o]]; [|done].
  simpl in Hheap, Hout. subst h o.
  replace (pre ++ d :: exs) with ((pre ++ [d]) ++ exs)
    by by rewrite <- app_assoc.
  replace (S (length pre)) with (length (pre ++ [d]))
    by (rewrite length_app; simpl; lia).
  apply IH.
Qed.

(** ** The [with] blocks *)

(** The body of the [with] block of [complete_export.main], which
    [export_all_exercises.export_exercises] repeats, and the block. *)
Local Definition export_body (file : TextIOWrapper) : M () :=
  let writer := DictWriter.new file fieldnames in
  DictWriter.writeheader writer ;;
  count ← write_exercises writer;
  print Created ;;
  print (Exported count).

Local Definition export_block (disk : device) : M () :=
  with_open disk (Some "utf-8") export_body.

(** The body of the block of [json_to_csv.main], for any columns. *)
Local Definition rows_body (fields : list string) (file : TextIOWrapper)
    : M () :=
  let writer := DictWriter.new file fields in
  DictWriter.writeheader writer ;;
  n ← len_exercises;
  for_in (seq 0 n) (plain_turn writer) ().

Local Definition plain_block (disk : device) : M () :=
  with_open disk None (rows_body fieldnames).

(** The body of the block of [export_to_csv], and the block. *)
Local Definition fields_body (file : TextIOWrapper) : M () :=
  let writer := DictWriter.new file export_exercises.fields in
  DictWriter.writeheader writer ;;
  exercises ← (λ w, (Ok (heap w), w));
  DictWriter.writerows writer exercises.

Local Definition fields_block (disk : device) : M () :=
  with_open disk None fields_body.

Lemma writeheader_frame self w :
  heap (DictWriter.writeheader self w).2 = heap w
  ∧ stdout (DictWriter.writeheader self w).2 = stdout w.
Proof. apply writerow_frame. Qed.

Lemma fields_body_rows file w :
  fields_body file w = rows_body export_exercises.fields file w.
Proof.
  unfold fields_body, rows_body. cbv zeta.
  unfold mbind, M_bind.
  destruct (writeheader_frame (DictWriter.new file export_exercises.fields) w)
    as [Hheap Hout].
  destruct (DictWriter.writeheader _ w) as [[[]|e] [h f o]]; [|done].
  simpl in Hheap, Hout. subst h o.
  unfold mbind, M_bind, len_exercises. simpl.
  symmetry. apply (plain_loop_writerows _ [] (heap w)).
Qed.

(** Leaving the block: what [close] makes of the outcome of the body. *)
Local Definition settle (disk : device) (rw : result () * world)
    : result () * world :=
  if decide (holds disk (default "" (content (csvfile rw.2)))) then rw
  else (Raised (OSError (device_error disk)),
        World (heap rw.2) (closed disk (csvfile rw.2)) (stdout rw.2)).

Lemma finally_close_settle (body : M ()) file w :
  finally body (close file) w = settle (raw file) (body w).
Proof.
  unfold settle. destruct (body w) as [r w'] eqn:Hbody. simpl.
  case_decide as Hfits.
  - by apply (finally_close_Ok body file w r w').
  - by apply (finally_close_Raised body file w r w').
Qed.

Lemma with_open_settle disk enc body h dest out :
  open_error dest = None →
  with_open disk enc body (World h dest out)
  = settle disk (body (TextIO enc disk) (World h (opened dest) out)).
Proof.
  intros Hopen. unfold with_open.
  erewrite bind_Ok; [|by apply open_w_Ok].
  by rewrite finally_close_settle.
Qed.

Lemma with_open_Raised disk enc body w msg :
  open_error (csvfile w) = Some msg →
  with_open disk enc body w = (Raised (OSError msg), w).
Proof.
  intros Hopen. unfold with_open.
  by erewrite bind_Raised; [|by apply open_w_Raised].
Qed.

Lemma settle_sound rw : settle sound rw = rw.
Proof. unfold settle. by rewrite decide_True by apply holds_sound. Qed.

Lemma settle_holds disk r w :
  holds disk (default "" (content (csvfile w))) → settle disk (r, w) = (r, w).
Proof. intros Hfits. unfold settle. by rewrite decide_True. Qed.

Lemma settle_full disk r w :
  ¬ holds disk (default "" (content (csvfile w))) →
  settle disk (r, w)
  = (Raised (OSError (device_error disk)),
     World (heap w) (closed disk (csvfile w)) (stdout w)).
Proof. intros Hfull. unfold settle. by rewrite decide_False. Qed.


Lemma take_document fields exs k :
  take (S k) (document fields exs)
  = header_line fields :: data_lines fields (take k exs).
Proof. unfold document. simpl. unfold data_lines. by rewrite fmap_take. Qed.

Lemma take_document_all fields exs :
  take (S (length exs)) (document fields exs) = document fields exs.
Proof. rewrite take_document. by rewrite take_ge. Qed.

Lemma length_document fields exs :
  length (document fields exs) = S (length exs).
Proof. unfold document, data_lines. simpl. by rewrite length_fmap. Qed.

Lemma detects_header disk fields exs dest out :
  detects disk (String.length (cat (take 1 (document fields exs)))) = true →
  detects disk
    (String.length
       (default "" (content (csvfile (World exs (opened dest) out)))
        +:+ header_line fields)) = true.
Proof. unfold document. simpl. by rewrite append_nil_r. Qed.

(** *** The body of [json_to_csv.main] and of [export_to_csv] *)

Section rows_body.
Variables (file : TextIOWrapper) (fields : list string).
Variables (exs : list dict) (dest : destination) (out : list line).

Lemma rows_body_Ok :
  Forall (accepted fields) exs →
  goes file (opened dest) (document fields exs) →
  rows_body fields file (World exs (opened dest) out)
  = (Ok (), World exs (written (opened dest) (document fields exs)) out).
Proof.
  intros Hacc Hgoes. unfold rows_body.
  erewrite bind_Ok; cycle 1.
  { apply writeheader_Ok. by eapply goes_first. }
  simpl heap. simpl csvfile. simpl stdout.
  erewrite bind_Ok; [|done]. simpl.
  by apply (plain_loop_Ok file fields exs (opened dest) [header_line fields]).
Qed.

Lemma rows_body_ValueError k d :
  exs !! k = Some d → Forall (accepted fields) (take k exs) →
  ¬ accepted fields d →
  goes file (opened dest) (take (S k) (document fields exs)) →
  rows_body fields file (World exs (opened dest) out)
  = (Raised (ValueError (filter (λ key, key ∉ fields) (keys d))),
     World exs (written (opened dest) (take (S k) (document fields exs))) out).
Proof.
  intros Hk Hacc Hd Hgoes. rewrite take_document in *. unfold rows_body.
  erewrite bind_Ok; cycle 1.
  { apply writeheader_Ok. by eapply goes_first. }
  simpl heap. simpl csvfile. simpl stdout.
  erewrite bind_Ok; [|done]. simpl.
  by rewrite (plain_loop_ValueError file fields exs (opened dest)
                [header_line fields] _ k d).
Qed.

(** The encoding takes [q] lines and refuses the next. *)
Lemma rows_body_refused q :
  writes_left dest = Some q → q ≤ length exs →
  Forall (accepted fields) (take q exs) →
  goes file (opened dest) (take q (document fields exs)) →
  rows_body fields file (World exs (opened dest) out)
  = (Raised (UnicodeEncodeError (encoding file) (write_error dest)),
     World exs (written (opened dest) (take q (document fields exs))) out).
Proof.
  intros Hq Hlen Hacc Hgoes. unfold rows_body.
  destruct q as [|k].
  - erewrite bind_Raised; cycle 1.
    { by apply writeheader_refused. }
    simpl. unfold written, opened. simpl. by rewrite Hq.
  - rewrite take_document in *.
    erewrite bind_Ok; cycle 1.
    { apply writeheader_Ok. by eapply goes_first. }
    simpl heap. simpl csvfile. simpl stdout.
    destruct (lookup_lt_is_Some_2 exs k) as [d Hd]; [lia|].
    erewrite bind_Ok; [|done]. simpl.
    by rewrite (plain_loop_refused file fields exs (opened dest)
                  [header_line fields] _ k d).
Qed.

(** [q] lines go through, and the [write] of the next flushes into the
    full device. *)
Lemma rows_body_detected q :
  q ≤ length exs → Forall (accepted fields) (take q exs) →
  goes file (opened dest) (take q (document fields exs)) →
  room dest (S q) →
  detects (raw file)
    (String.length (cat (take (S q) (document fields exs)))) = true →
  rows_body fields file (World exs (opened dest) out)
  = (Raised (OSError (device_error (raw file))),
     World exs (written (opened dest) (take (S q) (document fields exs))) out).
Proof.
  intros Hlen Hacc Hgoes Hroom Hfull. unfold rows_body.
  destruct q as [|k].
  - erewrite bind_Raised; cycle 1.
    { apply writeheader_detected.
      - simpl. unfold room in Hroom.
        destruct (writes_left dest) as [[|q]|]; [lia|done..].
      - simpl in *. by rewrite append_nil_r in Hfull. }
    done.
  - rewrite !take_document in *.
    erewrite bind_Ok; cycle 1.
    { apply writeheader_Ok. by eapply goes_first. }
    simpl heap. simpl csvfile. simpl stdout.
    destruct (lookup_lt_is_Some_2 exs k) as [d Hd]; [lia|].
    erewrite bind_Ok; [|done]. simpl.
    rewrite (plain_loop_detected file fields exs (opened dest)
               [header_line fields] _ k d); try done.
    simpl. unfold room in *. simpl.
    destruct (writes_left dest); [lia|done].
Qed.

End rows_body.

(** *** The body of the scripts that replace [None] *)

Section export_body.
Variables (file : TextIOWrapper).
Variables (exs : list dict) (dest : destination) (out : list line).

Lemma export_body_Ok :
  Forall dict_wf exs → Forall (accepted fieldnames) exs →
  goes file (opened dest) (document fieldnames exs) →
  export_body file (World exs (opened dest) out)
  = (Ok (),
     World (none_to_empty <$> exs)
       (written (opened dest) (document fieldnames exs))
       (out ++ [Created; Exported (length exs)])).
Proof.
  intros Hwf Hacc Hgoes. unfold export_body.
  erewrite bind_Ok; cycle 1.
  { apply writeheader_Ok. by eapply goes_first. }
  simpl heap. simpl csvfile. simpl stdout.
  erewrite bind_Ok; cycle 1.
  { by apply (write_exercises_Ok file fieldnames exs (opened dest)
                [header_line fieldnames]). }
  unfold mbind, M_bind, print. simpl. by rewrite <- app_assoc.
Qed.

Lemma export_body_ValueError k d :
  exs !! k = Some d →
  Forall dict_wf (take (S k) exs) → Forall (accepted fieldnames) (take k exs) →
  ¬ accepted fieldnames d →
  goes file (opened dest) (take (S k) (document fieldnames exs)) →
  export_body file (World exs (opened dest) out)
  = (Raised (ValueError (filter (λ key, key ∉ fieldnames) (keys d))),
     World ((none_to_empty <$> take (S k) exs) ++ drop (S k) exs)
       (written (opened dest) (take (S k) (document fieldnames exs)))
       out).
Proof.
  intros Hk Hwf Hacc Hd Hgoes. rewrite take_document in *. unfold export_body.
  erewrite bind_Ok; cycle 1.
  { apply writeheader_Ok. by eapply goes_first. }
  simpl heap. simpl csvfile. simpl stdout.
  erewrite bind_Raised; cycle 1.
  { by apply (write_exercises_ValueError file fieldnames exs (opened dest)
                [header_line fieldnames] _ k d). }
  done.
Qed.

Lemma export_body_refused q :
  writes_left dest = Some q → q ≤ length exs →
  Forall dict_wf (take q exs) → Forall (accepted fieldnames) (take q exs) →
  goes file (opened dest) (take q (document fieldnames exs)) →
  export_body file (World exs (opened dest) out)
  = (Raised (UnicodeEncodeError (encoding file) (write_error dest)),
     World ((none_to_empty <$> take q exs) ++ drop q exs)
       (written (opened dest) (take q (document fieldnames exs)))
       out).
Proof.
  intros Hq Hlen Hwf Hacc Hgoes. unfold export_body.
  destruct q as [|k].
  - erewrite bind_Raised; cycle 1.
    { by apply writeheader_refused. }
    rewrite take_0, drop_0. simpl. unfold written, opened. simpl.
    by rewrite Hq.
  - rewrite take_document in *.
    erewrite bind_Ok; cycle 1.
    { apply writeheader_Ok. by eapply goes_first. }
    simpl heap. simpl csvfile. simpl stdout.
    destruct (lookup_lt_is_Some_2 exs k) as [d Hd]; [lia|].
    erewrite bind_Raised; cycle 1.
    { by apply (write_exercises_refused file fieldnames exs (opened dest)
                  [header_line fieldnames] _ k d). }
    done.
Qed.

Lemma export_body_detected q :
  q ≤ length exs →
  Forall dict_wf (take q exs) → Forall (accepted fieldnames) (take q exs) →
  goes file (opened dest) (take q (document fieldnames exs)) →
  room dest (S q) →
  detects (raw file)
    (String.length (cat (take (S q) (document fieldnames exs)))) = true →
  export_body file (World exs (opened dest) out)
  = (Raised (OSError (device_error (raw file))),
     World ((none_to_empty <$> take q exs) ++ drop q exs)
       (written (opened dest) (take (S q) (document fieldnames exs)))
       out).
Proof.
  intros Hlen Hwf Hacc Hgoes Hroom Hfull. unfold export_body.
  destruct q as [|k].
  - erewrite bind_Raised; cycle 1.
    { apply writeheader_detected; [|by apply detects_header].
      unfold room in Hroom. cbn [csvfile opened writes_left].
      destruct (writes_left dest) as [[|q]|]; [lia|done..]. }
    by rewrite take_document, !take_0, drop_0.
  - rewrite !take_document in *.
    erewrite bind_Ok; cycle 1.
    { apply writeheader_Ok. by eapply goes_first. }
    simpl heap. simpl csvfile. simpl stdout.
    destruct (lookup_lt_is_Some_2 exs k) as [d Hd]; [lia|].
    erewrite bind_Raised; cycle 1.
    { apply (write_exercises_detected file fieldnames exs (opened dest)
               [header_line fieldnames] _ k d); try done.
      simpl. unfold room in *. simpl.
      destruct (writes_left dest); [lia|done]. }
    done.
Qed.

End export_body.

(** ** The scripts, in terms of their [with] block *)

Lemma complete_export_block disk w :
  complete_export.main disk w
  = match export_block disk w with
    | (Ok _, w') =>
        (Ok (), World (heap w') (csvfile w') (stdout w' ++ instructions))
    | (Raised e, w') =>
        (Ok (), World (heap w') (csvfile w')
                  (stdout w' ++ Error e :: instructions))
    end.
Proof.
  unfold complete_export.main, try_except, mbind, M_bind.
  change (with_open _ _ _) with (export_block disk).
  destruct (export_block disk w) as [[[]|e] w']; unfold print; simpl;
    by rewrite <- ?app_assoc.
Qed.

Lemma export_all_exercises_block disk exs w :
  export_all_exercises.export_exercises disk
    (export_all_exercises.Holds (Records exs)) w
  = match export_block disk
            (World exs (csvfile w) (stdout w ++ [exporting])) with
    | (Ok _, w') => (Ok (), w')
    | (Raised e, w') =>
        (Ok (), World (heap w') (csvfile w') (stdout w' ++ [Error e; please]))
    end.
Proof.
  unfold export_all_exercises.export_exercises, try_except.
  rewrite (bind_Ok _ _ w ()
             (World (heap w) (csvfile w) (stdout w ++ [exporting]))) by done.
  rewrite (bind_Ok _ _ _ (Records exs)
             (World exs (csvfile w) (stdout w ++ [exporting]))) by done.
  change (with_open _ _ _) with (export_block disk).
  destruct (export_block disk _) as [[[]|e] w'];
    unfold mbind, M_bind, print; simpl; by rewrite <- ?app_assoc.
Qed.

Lemma json_to_csv_block disk w :
  json_to_csv.main disk w
  = match plain_block disk w with
    | (Ok _, w') =>
        (Ok (), World (heap w') (csvfile w')
                  (stdout w' ++ [Created; Exported (length (heap w'))]))
    | (Raised e, w') => (Raised e, w')
    end.
Proof.
  unfold json_to_csv.main, mbind, M_bind.
  change (with_open _ _ _) with (plain_block disk).
  destruct (plain_block disk w) as [[[]|e] w']; unfold print, len_exercises;
    simpl; by rewrite <- ?app_assoc.
Qed.

(** The block depends on its body state by state. *)
Lemma with_open_ext disk enc (body body' : TextIOWrapper → M ()) w :
  (∀ file w', body file w' = body' file w') →
  with_open disk enc body w = with_open disk enc body' w.
Proof.
  intros Hbody. unfold with_open, mbind, M_bind, finally.
  destruct (open_w disk enc w) as [[file|e] w']; [|done].
  by rewrite Hbody.
Qed.

(** On a list of records the block of [export_to_csv] ends with the
    last row. *)
Lemma fields_body_Records disk exs w :
  with_open disk None (λ file,
    let writer := DictWriter.new file export_exercises.fields in
    DictWriter.writeheader writer ;;
    rowdicts ← (λ w, (Ok (heap w), w));
    DictWriter.writerows writer rowdicts ;;
    after_records (Records exs) "keys") w
  = fields_block disk w.
Proof.
  apply with_open_ext. intros file w'. unfold fields_body. cbv zeta.
  unfold mbind, M_bind.
  destruct (DictWriter.writeheader _ w') as [[[]|e] w1]; [|done].
  by destruct (DictWriter.writerows _ _ w1) as [[[]|e] w2].
Qed.

Lemma export_to_csv_block disk exs dest out :
  export_exercises.export_to_csv disk (Records exs) (World exs dest out)
  = match fields_block disk
            (World exs dest (out ++ [Writing (length exs)])) with
    | (Ok _, w') =>
        (Ok (), World (heap w') (csvfile w')
                  (stdout w' ++ [Created; Exported (length exs)]))
    | (Raised e, w') => (Raised e, w')
    end.
Proof.
  unfold export_exercises.export_to_csv.
  rewrite (bind_Ok _ _ _ (length exs) (World exs dest out)) by done.
  rewrite (bind_Ok _ _ _ ()
             (World exs dest (out ++ [Writing (length exs)]))) by done.
  unfold mbind at 1, M_bind at 1. rewrite fields_body_Records.
  destruct (fields_block disk _) as [[[]|e] w'];
    unfold mbind, M_bind, print; simpl; by rewrite <- ?app_assoc.
Qed.

(** The blocks of the scripts that open the file with the encoding of the
    locale, in terms of the body. *)
Lemma plain_block_settle disk exs dest out :
  open_error dest = None →
  plain_block disk (World exs dest out)
  = settle disk (rows_body fieldnames (TextIO None disk)
                   (World exs (opened dest) out)).
Proof. apply with_open_settle. Qed.

Lemma fields_block_settle disk exs dest out :
  open_error dest = None →
  fields_block disk (World exs dest out)
  = settle disk (rows_body export_exercises.fields (TextIO None disk)
                   (World exs (opened dest) out)).
Proof.
  intros Hopen. unfold fields_block.
  by rewrite with_open_settle, fields_body_rows.
Qed.

Lemma export_block_settle disk exs dest out :
  open_error dest = None →
  export_block disk (World exs dest out)
  = settle disk (export_body (TextIO (Some "utf-8") disk)
                   (World exs (opened dest) out)).
Proof. apply with_open_settle. Qed.

(** ** The blocks on a device that takes whatever is written *)

Section export_block.
Variables (exs : list dict) (dest : destination) (out : list line).

Lemma export_block_Ok :
  Forall dict_wf exs → Forall (accepted fieldnames) exs →
  takes dest (S (length exs)) →
  export_block sound (World exs dest out)
  = (Ok (),
     World (none_to_empty <$> exs)
       (written (opened dest)
          (header_line fieldnames :: data_lines fieldnames exs))
       (out ++ [Created; Exported (length exs)])).
Proof.
  intros Hwf Hacc [Hopen Hroom].
  rewrite export_block_settle, settle_sound by done.
  apply export_body_Ok; [done..|].
  apply goes_sound. by rewrite length_document.
Qed.

Lemma export_block_open_error disk msg :
  open_error dest = Some msg →
  export_block disk (World exs dest out)
  = (Raised (OSError msg), World exs dest out).
Proof. intros Hopen. by apply with_open_Raised. Qed.

Lemma export_block_ValueError k d :
  exs !! k = Some d →
  Forall dict_wf (take (S k) exs) → Forall (accepted fieldnames) (take k exs) →
  ¬ accepted fieldnames d → takes dest (S k) →
  export_block sound (World exs dest out)
  = (Raised (ValueError (filter (λ key, key ∉ fieldnames) (keys d))),
     World ((none_to_empty <$> take (S k) exs) ++ drop (S k) exs)
       (written (opened dest)
          (header_line fieldnames :: data_lines fieldnames (take k exs)))
       out).
Proof.
  intros Hk Hwf Hacc Hd [Hopen Hroom]. pose proof (lookup_lt_Some _ _ _ Hk).
  rewrite export_block_settle, settle_sound by done.
  rewrite <- take_document. apply export_body_ValueError; [done..|].
  apply goes_sound.
  by rewrite length_take_le by (rewrite length_document; lia).
Qed.

Lemma export_block_refused q :
  open_error dest = None → writes_left dest = Some q → q ≤ length exs →
  Forall dict_wf (take q exs) → Forall (accepted fieldnames) (take q exs) →
  export_block sound (World exs dest out)
  = (Raised (UnicodeEncodeError (Some "utf-8") (write_error dest)),
     World ((none_to_empty <$> take q exs) ++ drop q exs)
       (written (opened dest)
          (take q (header_line fieldnames :: data_lines fieldnames exs)))
       out).
Proof.
  intros Hopen Hq Hlen Hwf Hacc.
  rewrite export_block_settle, settle_sound by done.
  apply (export_body_refused (TextIO (Some "utf-8") sound)); [done..|].
  apply goes_sound. rewrite length_take_le by (rewrite length_document; lia).
  unfold room. simpl. by rewrite Hq.
Qed.

End export_block.

Section plain_block.
Variables (exs : list dict) (dest : destination) (out : list line).

Lemma plain_block_Ok :
  Forall (accepted fieldnames) exs → takes dest (S (length exs)) →
  plain_block sound (World exs dest out)
  = (Ok (),
     World exs
       (written (opened dest)
          (header_line fieldnames :: data_lines fieldnames exs))
       out).
Proof.
  intros Hacc [Hopen Hroom].
  rewrite plain_block_settle, settle_sound by done.
  apply rows_body_Ok; [done|].
  apply goes_sound. by rewrite length_document.
Qed.

Lemma plain_block_open_error disk msg :
  open_error dest = Some msg →
  plain_block disk (World exs dest out)
  = (Raised (OSError msg), World exs dest out).
Proof. intros Hopen. by apply with_open_Raised. Qed.

Lemma plain_block_ValueError k d :
  exs !! k = Some d → Forall (accepted fieldnames) (take k exs) →
  ¬ accepted fieldnames d → takes dest (S k) →
  plain_block sound (World exs dest out)
  = (Raised (ValueError (filter (λ key, key ∉ fieldnames) (keys d))),
     World exs
       (written (opened dest)
          (header_line fieldnames :: data_lines fieldnames (take k exs)))
       out).
Proof.
  intros Hk Hacc Hd [Hopen Hroom]. pose proof (lookup_lt_Some _ _ _ Hk).
  rewrite plain_block_settle, settle_sound by done.
  rewrite <- take_document. apply rows_body_ValueError; [done..|].
  apply goes_sound.
  by rewrite length_take_le by (rewrite length_document; lia).
Qed.

Lemma plain_block_refused q :
  open_error dest = None → writes_left dest = Some q → q ≤ length exs →
  Forall (accepted fieldnames) (take q exs) →
  plain_block sound (World exs dest out)
  = (Raised (UnicodeEncodeError None (write_error dest)),
     World exs
       (written (opened dest)
          (take q (header_line fieldnames :: data_lines fieldnames exs)))
       out).
Proof.
  intros Hopen Hq Hlen Hacc.
  rewrite plain_block_settle, settle_sound by done.
  apply (rows_body_refused (TextIO None sound)); [done..|].
  apply goes_sound. rewrite length_take_le by (rewrite length_document; lia).
  unfold room. simpl. by rewrite Hq.
Qed.

End plain_block.

(** ** What the file holds after any run *)

Lemma read_document fields exs m :
  fields ≠ [] →
  rfc4180.read (cat (take m (document fields exs)))
  = Some (take m (table fields exs)).
Proof.
  intros Hfields.
  assert (document fields exs
          = csv.format_row <$> ((VStr <$> fields) :: (row fields <$> exs))) as ->.
  { unfold document, data_lines, header_line. simpl.
    by rewrite <- list_fmap_compose. }
  rewrite <- fmap_take, read_format_rows.
  - rewrite fmap_take. do 2 f_equal. unfold table. simpl. f_equal.
    + rewrite <- list_fmap_compose. by apply list_fmap_id.
    + rewrite <- list_fmap_compose. apply list_fmap_ext.
      intros _ d _. apply field_text_row.
  - apply Forall_take. constructor.
    + by destruct fields.
    + apply Forall_fmap, Forall_true. intros d. by destruct fields.
Qed.

Lemma read_document_all fields exs :
  fields ≠ [] →
  rfc4180.read (cat (document fields exs)) = Some (table fields exs).
Proof.
  intros Hfields.
  pose proof (read_document fields exs (S (length exs)) Hfields) as H.
  rewrite !take_ge in H; [done|..].
  - unfold table. simpl. by rewrite length_fmap.
  - unfold document, data_lines. simpl. by rewrite length_fmap.
Qed.

Lemma content_written_opened dest ls :
  content (written (opened dest) ls) = Some (cat ls).
Proof. done. Qed.

(** The first element a predicate fails on, if there is one. *)
Lemma Forall_or_first {A} (P : A → Prop) `{!∀ x, Decision (P x)} (l : list A) :
  Forall P l ∨ ∃ k x, l !! k = Some x ∧ ¬ P x ∧ Forall P (take k l).
Proof.
  induction l as [|a l IH]; [by left|].
  destruct (decide (P a)) as [Ha|Ha].
  - destruct IH as [IH|(k & x & Hk & Hx & Hl)].
    + left. by constructor.
    + right. exists (S k), x. simpl. by repeat split; [..|constructor].
  - right. exists 0, a. simpl. by repeat split; [..|constructor].
Qed.

(** Whatever the records and whichever line the encoding refuses, on a
    device that takes whatever is written the block leaves whole lines: a
    beginning of the complete document. *)
Lemma export_block_prefix exs dest out :
  Forall dict_wf exs → open_error dest = None →
  ∃ m, csvfile (export_block sound (World exs dest out)).2
       = written (opened dest) (take m (document fieldnames exs)).
Proof.
  intros Hwf Hopen.
  assert (∀ q, writes_left dest = Some q → q ≤ length exs →
               Forall (accepted fieldnames) (take q exs) →
               csvfile (export_block sound (World exs dest out)).2
               = written (opened dest) (take q (document fieldnames exs)))
    as Hshort.
  { intros q Hq Hlen Hacc.
    by rewrite (export_block_refused exs dest out q)
      by auto using Forall_take. }
  destruct (Forall_or_first (accepted fieldnames) exs)
    as [Hacc|(k & d & Hk & Hd & Hacc)].
  - destruct (decide (room dest (S (length exs)))) as [Hroom|Hroom].
    + exists (S (length exs)). rewrite export_block_Ok by first [done | by split].
      simpl. rewrite take_ge; [done|].
      unfold data_lines. rewrite length_fmap. lia.
    + unfold room in Hroom. destruct (writes_left dest) as [q|] eqn:Hq; [|done].
      exists q. apply Hshort; auto using Forall_take. lia.
  - pose proof (lookup_lt_Some _ _ _ Hk).
    destruct (decide (room dest (S k))) as [Hroom|Hroom].
    + exists (S k).
      rewrite (export_block_ValueError exs dest out k d)
        by first [done | by apply Forall_take | by split].
      simpl. unfold data_lines. by rewrite <- fmap_take.
    + unfold room in Hroom. destruct (writes_left dest) as [q|] eqn:Hq; [|done].
      exists q. apply Hshort; [done|lia|].
      replace q with (q `min` k) by lia. rewrite <- take_take.
      by apply Forall_take.
Qed.

Lemma plain_block_prefix exs dest out :
  open_error dest = None →
  ∃ m, csvfile (plain_block sound (World exs dest out)).2
       = written (opened dest) (take m (document fieldnames exs)).
Proof.
  intros Hopen.
  assert (∀ q, writes_left dest = Some q → q ≤ length exs →
               Forall (accepted fieldnames) (take q exs) →
               csvfile (plain_block sound (World exs dest out)).2
               = written (opened dest) (take q (document fieldnames exs)))
    as Hshort.
  { intros q Hq Hlen Hacc.
    by rewrite (plain_block_refused exs dest out q). }
  destruct (Forall_or_first (accepted fieldnames) exs)
    as [Hacc|(k & d & Hk & Hd & Hacc)].
  - destruct (decide (room dest (S (length exs)))) as [Hroom|Hroom].
    + exists (S (length exs)). rewrite plain_block_Ok by first [done | by split].
      simpl. rewrite take_ge; [done|].
      unfold data_lines. rewrite length_fmap. lia.
    + unfold room in Hroom. destruct (writes_left dest) as [q|] eqn:Hq; [|done].
      exists q. apply Hshort; auto using Forall_take. lia.
  - pose proof (lookup_lt_Some _ _ _ Hk).
    destruct (decide (room dest (S k))) as [Hroom|Hroom].
    + exists (S k).
      rewrite (plain_block_ValueError exs dest out k d)
        by first [done | by split].
      simpl. unfold data_lines. by rewrite <- fmap_take.
    + unfold room in Hroom. destruct (writes_left dest) as [q|] eqn:Hq; [|done].
      exists q. apply Hshort; [done|lia|].
      replace q with (q `min` k) by lia. rewrite <- take_take.
      by apply Forall_take.
Qed.

(** The file and the records after a script are those after its block. *)
Lemma complete_export_csvfile disk w :
  csvfile (complete_export.main disk w).2 = csvfile (export_block disk w).2.
Proof.
  rewrite complete_export_block.
  by destruct (export_block disk w) as [[[]|e] w'].
Qed.

Lemma export_all_exercises_csvfile disk exs w :
  csvfile (export_all_exercises.export_exercises disk
             (export_all_exercises.Holds (Records exs)) w).2
  = csvfile (export_block disk
               (World exs (csvfile w) (stdout w ++ [exporting]))).2.
Proof.
  rewrite export_all_exercises_block.
  by destruct (export_block disk _) as [[[]|e] w'].
Qed.

Lemma json_to_csv_csvfile disk w :
  csvfile (json_to_csv.main disk w).2 = csvfile (plain_block disk w).2.
Proof.
  rewrite json_to_csv_block.
  by destruct (plain_block disk w) as [[[]|e] w'].
Qed.

Lemma export_to_csv_csvfile disk exs dest out :
  csvfile (export_exercises.export_to_csv disk (Records exs)
             (World exs dest out)).2
  = csvfile (fields_block disk
               (World exs dest (out ++ [Writing (length exs)]))).2.
Proof.
  rewrite export_to_csv_block.
  by destruct (fields_block disk _) as [[[]|e] w'].
Qed.

(** ** Statements only append to the file *)

(** Once the file is open, running [m] leaves the text it has taken and
    may add to it, whether [m] returns or raises. *)
Definition appends {A} (m : M A) : Prop :=
  ∀ w s, content (csvfile w) = Some s →
    ∃ t, content (csvfile (m w).2) = Some (s +:+ t).

Create HintDb appends discriminated.

Lemma appends_same {A} (m : M A) :
  (∀ w, csvfile (m w).2 = csvfile w) → appends m.
Proof.
  intros Hm w s Hs. exists "". by rewrite Hm, append_nil_r.
Qed.

Lemma appends_ret {A} (a : A) : appends (mret a).
Proof. by apply appends_same. Qed.

Lemma appends_raise {A} e : appends (@raise A e).
Proof. by apply appends_same. Qed.

Lemma appends_print l : appends (print l).
Proof. by apply appends_same. Qed.

Lemma appends_load i : appends (load i).
Proof. by apply appends_same. Qed.

Lemma appends_len_exercises : appends len_exercises.
Proof. by apply appends_same. Qed.

Lemma appends_store_setitem i key v : appends (store_setitem i key v).
Proof. by apply appends_same. Qed.

Lemma appends_write file l : appends (write file l).
Proof.
  intros w s Hs. unfold write.
  destruct (writes_left (csvfile w)) as [[|q]|]; simpl.
  - exists "". by rewrite Hs, append_nil_r.
  - exists l. rewrite Hs. by destruct (detects _ _).
  - exists l. rewrite Hs. by destruct (detects _ _).
Qed.

(** Closing the file on a device that takes whatever is written leaves
    the text. *)
Lemma appends_finally_sound {A} (body : M A) enc :
  appends body → appends (finally body (close (TextIO enc sound))).
Proof.
  intros Hbody w s Hs. rewrite finally_close_sound. by apply Hbody.
Qed.

Lemma appends_bind {A B} (m : M A) (f : A → M B) :
  appends m → (∀ a, appends (f a)) → appends (m ≫= f).
Proof.
  intros Hm Hf w s Hs. unfold mbind, M_bind.
  destruct (Hm w s Hs) as [t Ht].
  destruct (m w) as [[a|e] w'] eqn:Hmw; simpl in Ht.
  - destruct (Hf a w' _ Ht) as [u Hu]. exists (t +:+ u).
    by rewrite Hu, append_assoc.
  - by exists t.
Qed.

Lemma appends_try_except body handler :
  appends body → (∀ e, appends (handler e)) → appends (try_except body handler).
Proof.
  intros Hm Hf w s Hs. unfold try_except.
  destruct (Hm w s Hs) as [t Ht].
  destruct (body w) as [[a|e] w'] eqn:Hmw; simpl in Ht.
  - by exists t.
  - destruct (Hf e w' _ Ht) as [u Hu]. exists (t +:+ u).
    by rewrite Hu, append_assoc.
Qed.

Lemma appends_for_in {A S} (xs : list A) (body : A → S → M S) s :
  (∀ x s, appends (body x s)) → appends (for_in xs body s).
Proof.
  intros Hbody. revert s. induction xs as [|x xs IH]; intros s; simpl.
  - apply appends_ret.
  - apply appends_bind; auto.
Qed.

#[local] Hint Resolve appends_ret appends_raise appends_print appends_load
  appends_len_exercises appends_store_setitem appends_write appends_bind
  appends_try_except appends_for_in appends_finally_sound : appends.

Lemma appends_writerow self d : appends (DictWriter.writerow self d).
Proof.
  unfold DictWriter.writerow, DictWriter._dict_to_list.
  destruct (filter _ (keys d)); auto with appends.
Qed.

#[local] Hint Resolve appends_writerow : appends.

Lemma appends_writerows self rows : appends (DictWriter.writerows self rows).
Proof. unfold DictWriter.writerows. auto with appends. Qed.

Lemma appends_blank i x u : appends (blank i x u).
Proof. destruct x as [key v]. simpl. destruct (is_None v); auto with appends. Qed.

#[local] Hint Resolve appends_writerows appends_blank : appends.

Lemma appends_write_exercises writer : appends (write_exercises writer).
Proof.
  unfold write_exercises. apply appends_bind; [auto with appends|].
  intros n. apply appends_for_in. intros exercise count.
  change (appends (turn writer exercise count)). unfold turn.
  auto 10 with appends.
Qed.

#[local] Hint Resolve appends_write_exercises : appends.

(** The text after a block whose body starts with [writeheader] begins
    with the header line. *)
Lemma begins_with_header fields (rest : TextIOWrapper → M ()) enc h dest out :
  takes dest 1 → (∀ file, appends (rest file)) →
  begins_with (header_line fields)
    (content (csvfile
       (with_open sound enc
          (λ file,
             DictWriter.writeheader (DictWriter.new file fields) ;; rest file)
          (World h dest out)).2)).
Proof.
  intros [Hopen Hroom] Hrest.
  rewrite with_open_settle, settle_sound by done.
  erewrite bind_Ok; cycle 1.
  { apply writeheader_Ok. apply (goes_first _ _ _ []). by apply goes_sound. }
  destruct (Hrest (TextIO enc sound)
              (World h (written (opened dest) [header_line fields]) out)
              (header_line fields)) as [t Ht].
  - simpl. by rewrite append_nil_r.
  - by exists t.
Qed.

(** *** Every script writes its header line first *)

Lemma complete_export_header exs dest :
  takes dest 1 →
  begins_with (header_line fieldnames) (output (complete_export_run exs dest)).
Proof.
  intros Hdest. unfold output, complete_export_run, run.
  rewrite complete_export_csvfile. unfold export_block, export_body.
  apply (begins_with_header fieldnames); [done|].
  intros file. auto 20 with appends.
Qed.

Lemma export_all_exercises_header exs dest :
  takes dest 1 →
  begins_with (header_line fieldnames)
    (output (export_all_exercises_run exs dest)).
Proof.
  intros Hdest. unfold output, export_all_exercises_run, run.
  rewrite export_all_exercises_csvfile. unfold export_block, export_body.
  apply (begins_with_header fieldnames); [done|].
  intros file. auto 20 with appends.
Qed.

Lemma json_to_csv_header exs dest :
  takes dest 1 →
  begins_with (header_line fieldnames) (output (json_to_csv_run exs dest)).
Proof.
  intros Hdest. unfold output, json_to_csv_run, run.
  rewrite json_to_csv_csvfile. unfold plain_block, rows_body.
  apply (begins_with_header fieldnames); [done|].
  intros file. apply appends_bind; auto 20 with appends.
  intros n. apply appends_for_in. intros exercise []. unfold plain_turn.
  auto with appends.
Qed.

Lemma export_to_csv_header exs dest :
  takes dest 1 →
  begins_with (header_line export_exercises.fields)
    (output (export_to_csv_run exs dest)).
Proof.
  intros Hdest. unfold output, export_to_csv_run, run.
  rewrite export_to_csv_csvfile. unfold fields_block, fields_body.
  apply (begins_with_header export_exercises.fields); [done|].
  intros file. apply appends_bind; [|auto with appends].
  by apply appends_same.
Qed.

(** ** [export_to_csv] *)

(** The two column lists hold the same names. *)
Lemma accepted_fields d :
  accepted fieldnames d → accepted export_exercises.fields d.
Proof.
  unfold accepted. intros Hd. eapply Forall_impl; [exact Hd|].
  intros key Hkey. simpl in Hkey.
  repeat (apply elem_of_cons in Hkey as [->|Hkey]; [compute_done|]).
  by apply elem_of_nil in Hkey.
Qed.

Section fields_block.
Variables (exs : list dict) (dest : destination) (out : list line).

Lemma fields_block_Ok :
  Forall (accepted export_exercises.fields) exs → takes dest (S (length exs)) →
  fields_block sound (World exs dest out)
  = (Ok (),
     World exs
       (written (opened dest)
          (header_line export_exercises.fields
           :: data_lines export_exercises.fields exs))
       out).
Proof.
  intros Hacc [Hopen Hroom].
  rewrite fields_block_settle, settle_sound by done.
  apply rows_body_Ok; [done|].
  apply goes_sound. by rewrite length_document.
Qed.

Lemma fields_block_open_error disk msg :
  open_error dest = Some msg →
  fields_block disk (World exs dest out)
  = (Raised (OSError msg), World exs dest out).
Proof. intros Hopen. by apply with_open_Raised. Qed.

Lemma fields_block_ValueError k d :
  exs !! k = Some d → Forall (accepted export_exercises.fields) (take k exs) →
  ¬ accepted export_exercises.fields d → takes dest (S k) →
  fields_block sound (World exs dest out)
  = (Raised (ValueError
               (filter (λ key, key ∉ export_exercises.fields) (keys d))),
     World exs
       (written (opened dest)
          (header_line export_exercises.fields
           :: data_lines export_exercises.fields (take k exs)))
       out).
Proof.
  intros Hk Hacc Hd [Hopen Hroom]. pose proof (lookup_lt_Some _ _ _ Hk).
  rewrite fields_block_settle, settle_sound by done.
  rewrite <- take_document. apply rows_body_ValueError; [done..|].
  apply goes_sound.
  by rewrite length_take_le by (rewrite length_document; lia).
Qed.

Lemma fields_block_refused q :
  open_error dest = None → writes_left dest = Some q → q ≤ length exs →
  Forall (accepted export_exercises.fields) (take q exs) →
  fields_block sound (World exs dest out)
  = (Raised (UnicodeEncodeError None (write_error dest)),
     World exs
       (written (opened dest)
          (take q (header_line export_exercises.fields
                   :: data_lines export_exercises.fields exs)))
       out).
Proof.
  intros Hopen Hq Hlen Hacc.
  rewrite fields_block_settle, settle_sound by done.
  apply (rows_body_refused (TextIO None sound)); [done..|].
  apply goes_sound. rewrite length_take_le by (rewrite length_document; lia).
  unfold room. simpl. by rewrite Hq.
Qed.

End fields_block.

Lemma export_to_csv_Ok exs dest :
  Forall (accepted fieldnames) exs → takes dest (S (length exs)) →
  export_to_csv_run exs dest
  = (Ok (),
     World exs
       (written (opened dest)
          (header_line export_exercises.fields
           :: data_lines export_exercises.fields exs))
       [Writing (length exs); Created; Exported (length exs)]).
Proof.
  intros Hacc Hdest. unfold export_to_csv_run, run.
  rewrite export_to_csv_block. cbn [heap csvfile stdout].
  rewrite fields_block_Ok; [done| |done].
  eapply Forall_impl; [done|]. apply accepted_fields.
Qed.

(** * The claims of the specification *)

(** The runs [complete_export_run], [export_all_exercises_run],
    [json_to_csv_run] and [export_to_csv_run] are runs on a device that
    takes whatever is written: a line the file object has taken is in the
    file when the file is closed.  What the scripts do when the device
    fills up is the matter of C7 and of the further properties; their runs
    [complete_export_on] and the like take the device as an argument. *)

(** ** Outcomes of the runs *)

(** After a run whose destination opened, the reader finds a beginning
    of the table of the records. *)
Lemma read_output_prefix exs dest r :
  Forall dict_wf exs → open_error dest = None →
  r ∈ [complete_export_run exs dest; export_all_exercises_run exs dest;
       json_to_csv_run exs dest] →
  ∃ m, read_output r = Some (take m (table fieldnames exs)).
Proof.
  intros Hwf Hopen Hr.
  assert (∃ m, csvfile r.2
               = written (opened dest) (take m (document fieldnames exs)))
    as [m Hm].
  { repeat (apply elem_of_cons in Hr as [->|Hr]).
    - unfold complete_export_run, run. rewrite complete_export_csvfile.
      by apply export_block_prefix.
    - unfold export_all_exercises_run, run.
      rewrite export_all_exercises_csvfile. by apply export_block_prefix.
    - unfold json_to_csv_run, run. rewrite json_to_csv_csvfile.
      by apply plain_block_prefix.
    - by apply elem_of_nil in Hr. }
  exists m. unfold read_output, output. rewrite Hm, content_written_opened.
  simpl. by apply read_document.
Qed.

(** The complete export of the three scripts with the canonical columns. *)
Lemma complete_export_Ok exs dest :
  Forall dict_wf exs → Forall (accepted fieldnames) exs →
  takes dest (S (length exs)) →
  complete_export_run exs dest
  = (Ok (),
     World (none_to_empty <$> exs)
       (written (opened dest) (document fieldnames exs))
       ([Created; Exported (length exs)] ++ instructions)).
Proof.
  intros. unfold complete_export_run, run.
  by rewrite complete_export_block, export_block_Ok.
Qed.

Lemma export_all_exercises_Ok exs dest :
  Forall dict_wf exs → Forall (accepted fieldnames) exs →
  takes dest (S (length exs)) →
  export_all_exercises_run exs dest
  = (Ok (),
     World (none_to_empty <$> exs)
       (written (opened dest) (document fieldnames exs))
       [exporting; Created; Exported (length exs)]).
Proof.
  intros. unfold export_all_exercises_run, run.
  by rewrite export_all_exercises_block, export_block_Ok.
Qed.

Lemma json_to_csv_Ok exs dest :
  Forall (accepted fieldnames) exs → takes dest (S (length exs)) →
  json_to_csv_run exs dest
  = (Ok (),
     World exs (written (opened dest) (document fieldnames exs))
       [Created; Exported (length exs)]).
Proof.
  intros. unfold json_to_csv_run, run.
  by rewrite json_to_csv_block, plain_block_Ok.
Qed.

Lemma read_output_Ok exs dest r :
  Forall dict_wf exs → Forall (accepted fieldnames) exs →
  takes dest (S (length exs)) →
  r ∈ [complete_export_run exs dest; export_all_exercises_run exs dest;
       json_to_csv_run exs dest] →
  output r = Some (cat (document fieldnames exs))
  ∧ read_output r = Some (table fieldnames exs).
Proof.
  intros Hwf Hacc Hdest Hr.
  assert (output r = Some (cat (document fieldnames exs))) as Hout.
  { repeat (apply elem_of_cons in Hr as [->|Hr]).
    - by rewrite complete_export_Ok.
    - by rewrite export_all_exercises_Ok.
    - by rewrite json_to_csv_Ok.
    - by apply elem_of_nil in Hr. }
  split; [done|]. unfold read_output. rewrite Hout.
  by apply read_document_all.
Qed.

Lemma table_lookup exs i d :
  exs !! i = Some d →
  table fieldnames exs !! S i = Some (cell d <$> fieldnames).
Proof. intros Hi. unfold table. simpl. by rewrite list_lookup_fmap, Hi. Qed.

Lemma getitem_None d key : key ∉ keys d → getitem d key = None.
Proof.
  induction d as [|[k v] d IH]; simpl; [done|].
  intros [? ?]%not_elem_of_cons. by rewrite decide_False, IH.
Qed.

(** The example of the specification: three empty cells for the three
    [None], [False] for the flag, and the instructions in quotes because
    of the line break in them. *)
Example push_up_export :
  output (complete_export_run [push_up] fresh)
  = Some (header_text
          +:+ "1,Push-up," +:+ String DQUOTE ("Step 1" +:+ String LF "Step 2")
          +:+ String DQUOTE ",,,chest,,,False,{bodyweight},"
          +:+ csv.lineterminator)
  ∧ succeeds (complete_export_run [push_up] fresh) 1.
Proof. split; [reflexivity|compute_done]. Qed.

(** ** Cells *)

(** C1.  For every record and every one of the eleven fields, in the row
    the export wrote for the record the cell of a field whose value is
    [None] is the empty string and the cell of any other value is its
    string form ([True] or [False] for a boolean), as a reader of the
    output finds them.  This holds for every run whose destination
    opened, for as many rows as the run wrote; a run on records without
    foreign keys into a destination that takes every write wrote a row for
    every record. *)
Theorem null_cell_empty_others_verbatim (exs : list dict) (dest : destination)
    (r : result () * world) :
  Forall dict_wf exs → open_error dest = None →
  r ∈ [complete_export_run exs dest; export_all_exercises_run exs dest;
       json_to_csv_run exs dest] →
  ∃ rows, read_output r = Some rows ∧
    (∀ i d cells, exs !! i = Some d → rows !! S i = Some cells →
       ∀ j field v, fieldnames !! j = Some field → getitem d field = Some v →
         cells !! j = Some (if is_None v then "" else str v)) ∧
    (Forall (accepted fieldnames) exs → takes dest (S (length exs)) →
       length rows = S (length exs)).
Proof.
  intros Hwf Hopen Hr.
  destruct (read_output_prefix exs dest r Hwf Hopen Hr) as [m Hm].
  exists (take m (table fieldnames exs)). split; [done|]. split.
  - intros i d cells Hi Hcells j field v Hj Hv.
    apply lookup_take_Some in Hcells as [Hcells _].
    assert (cells = cell d <$> fieldnames) as ->.
    { pose proof (table_lookup exs i d Hi). congruence. }
    rewrite list_lookup_fmap, Hj. simpl. unfold cell. by rewrite Hv.
  - intros Hacc Hdest.
    destruct (read_output_Ok exs dest r Hwf Hacc Hdest Hr) as [_ Hread].
    rewrite Hm in Hread. injection Hread as ->.
    unfold table. simpl. by rewrite length_fmap.
Qed.

Lemma null_cell_empty_others_verbatim_witness :
  Forall dict_wf [push_up] ∧ open_error fresh = None ∧
  ∃ rows, read_output (complete_export_run [push_up] fresh) = Some rows ∧
    (∀ i d cells, [push_up] !! i = Some d → rows !! S i = Some cells →
       ∀ j field v, fieldnames !! j = Some field → getitem d field = Some v →
         cells !! j = Some (if is_None v then "" else str v)) ∧
    (Forall (accepted fieldnames) [push_up] → takes fresh 2 →
       length rows = 2).
Proof.
  assert (Forall dict_wf [push_up]) as Hwf by compute_done.
  split; [done|]. split; [done|].
  apply (null_cell_empty_others_verbatim [push_up] fresh); [done|done|].
  apply list_elem_of_here.
Defined.

(** C6.  The text of the [instructions] field of every record, whatever
    line breaks, commas or quotes it holds, is what an RFC 4180 reader
    finds in the third cell of the record's row: writing and reading back
    is the identity on the field.  This holds for as many rows as the run
    wrote; a run on records without foreign keys into a destination that
    takes every write wrote a row for every record. *)
Theorem instructions_round_trip (exs : list dict) (dest : destination)
    (r : result () * world) :
  Forall dict_wf exs → open_error dest = None →
  r ∈ [complete_export_run exs dest; export_all_exercises_run exs dest;
       json_to_csv_run exs dest] →
  ∃ rows, read_output r = Some rows ∧
    (∀ i d cells s, exs !! i = Some d → rows !! S i = Some cells →
       getitem d "instructions" = Some (VStr s) → cells !! 2 = Some s) ∧
    (Forall (accepted fieldnames) exs → takes dest (S (length exs)) →
       length rows = S (length exs)).
Proof.
  intros Hwf Hopen Hr.
  destruct (read_output_prefix exs dest r Hwf Hopen Hr) as [m Hm].
  exists (take m (table fieldnames exs)). split; [done|]. split.
  - intros i d cells s Hi Hcells Hs.
    apply lookup_take_Some in Hcells as [Hcells _].
    assert (cells = cell d <$> fieldnames) as ->.
    { pose proof (table_lookup exs i d Hi). congruence. }
    rewrite list_lookup_fmap. simpl. unfold cell. by rewrite Hs.
  - intros Hacc Hdest.
    destruct (read_output_Ok exs dest r Hwf Hacc Hdest Hr) as [_ Hread].
    rewrite Hm in Hread. injection Hread as ->.
    unfold table. simpl. by rewrite length_fmap.
Qed.

(** A record whose instructions run over two lines. *)
Lemma instructions_round_trip_witness :
  Forall dict_wf [push_up] ∧ open_error fresh = None ∧
  ∃ rows, read_output (json_to_csv_run [push_up] fresh) = Some rows ∧
    (∀ i d cells s, [push_up] !! i = Some d → rows !! S i = Some cells →
       getitem d "instructions" = Some (VStr s) → cells !! 2 = Some s) ∧
    (Forall (accepted fieldnames) [push_up] → takes fresh 2 →
       length rows = 2).
Proof.
  assert (Forall dict_wf [push_up]) as Hwf by compute_done.
  split; [done|]. split; [done|].
  apply (instructions_round_trip [push_up] fresh); [done|done|].
  do 2 apply list_elem_of_further. apply list_elem_of_here.
Defined.

(** ** Rows and counts *)

(** C5, as stated, fails: of three records the second has a foreign key,
    and the output ends after the row of the first. *)
Lemma header_then_rows_in_order_counterexample :
  Forall dict_wf [push_up; with_notes; push_up] ∧ takes fresh 4 ∧
  ¬ ∃ rows,
      read_output (complete_export_run [push_up; with_notes; push_up] fresh)
      = Some rows
      ∧ length rows = S (length [push_up; with_notes; push_up]).
Proof.
  split; [compute_done|]. split; [compute_done|].
  intros (rows & Hrows & Hlen). vm_compute in Hrows.
  injection Hrows as <-. discriminate Hlen.
Qed.

(** C5, amended.  For every input sequence in which no record has a key
    outside the eleven field names, written to a destination that takes
    every write, the output is the header line followed by one line per
    record in input order; a reader finds the field names in the first
    row and, for the record at position [i], its cells in row [i + 1]. *)
Theorem header_then_rows_in_order (exs : list dict) (dest : destination)
    (r : result () * world) :
  Forall dict_wf exs → Forall (accepted fieldnames) exs →
  takes dest (S (length exs)) →
  r ∈ [complete_export_run exs dest; export_all_exercises_run exs dest;
       json_to_csv_run exs dest] →
  output r = Some (cat (header_line fieldnames :: data_lines fieldnames exs))
  ∧ ∃ rows, read_output r = Some rows
      ∧ rows !! 0 = Some fieldnames
      ∧ length rows = S (length exs)
      ∧ ∀ i d, exs !! i = Some d → rows !! S i = Some (cell d <$> fieldnames).
Proof.
  intros Hwf Hacc Hdest Hr.
  destruct (read_output_Ok exs dest r Hwf Hacc Hdest Hr) as [Hout Hread].
  split; [done|]. exists (table fieldnames exs).
  repeat split; [done| |].
  - unfold table. simpl. by rewrite length_fmap.
  - intros i d Hi. by apply table_lookup.
Qed.

Lemma header_then_rows_in_order_witness :
  Forall dict_wf [without_id; push_up] ∧
  Forall (accepted fieldnames) [without_id; push_up] ∧ takes fresh 3 ∧
  output (complete_export_run [without_id; push_up] fresh)
  = Some (cat (header_line fieldnames
               :: data_lines fieldnames [without_id; push_up]))
  ∧ ∃ rows, read_output (complete_export_run [without_id; push_up] fresh)
            = Some rows
      ∧ rows !! 0 = Some fieldnames
      ∧ length rows = 3
      ∧ ∀ i d, [without_id; push_up] !! i = Some d →
               rows !! S i = Some (cell d <$> fieldnames).
Proof.
  assert (Forall dict_wf [without_id; push_up]) as Hwf by compute_done.
  assert (Forall (accepted fieldnames) [without_id; push_up]) as Hacc
    by compute_done.
  assert (takes fresh 3) as Hdest by compute_done.
  split; [done|]. split; [done|]. split; [done|].
  apply (header_then_rows_in_order [without_id; push_up] fresh);
    [done..|apply list_elem_of_here].
Defined.

(** C2, as stated, fails: a record with all eleven keys and one more is
    refused, and no count is reported. *)
Lemma count_is_length_counterexample :
  Forall dict_wf [with_notes] ∧ Forall has_all_keys [with_notes] ∧
  takes fresh 2 ∧
  ¬ succeeds (complete_export_run [with_notes] fresh) (length [with_notes]) ∧
  ¬ succeeds (export_all_exercises_run [with_notes] fresh) (length [with_notes]).
Proof. repeat split; compute_done. Qed.

(** C2, amended.  For every finite input sequence in which every key of
    every record is one of the eleven field names (in particular when
    every record has exactly the eleven keys), written to a destination
    that takes every write, the export succeeds and reports a row count
    equal to the length of the sequence. *)
Theorem count_is_length (exs : list dict) (dest : destination)
    (r : result () * world) :
  Forall dict_wf exs → Forall (accepted fieldnames) exs →
  takes dest (S (length exs)) →
  r ∈ [complete_export_run exs dest; export_all_exercises_run exs dest;
       json_to_csv_run exs dest] →
  succeeds r (length exs).
Proof.
  intros Hwf Hacc Hdest Hr.
  repeat (apply elem_of_cons in Hr as [->|Hr]).
  - by rewrite complete_export_Ok.
  - by rewrite export_all_exercises_Ok.
  - by rewrite json_to_csv_Ok.
  - by apply elem_of_nil in Hr.
Qed.

Lemma count_is_length_witness :
  Forall dict_wf [push_up; push_up] ∧
  Forall (accepted fieldnames) [push_up; push_up] ∧ takes fresh 3 ∧
  succeeds (export_all_exercises_run [push_up; push_up] fresh) 2.
Proof.
  assert (Forall dict_wf [push_up; push_up]) as Hwf by compute_done.
  assert (Forall (accepted fieldnames) [push_up; push_up]) as Hacc
    by compute_done.
  assert (takes fresh 3) as Hdest by compute_done.
  split; [done|]. split; [done|]. split; [done|].
  apply (count_is_length [push_up; push_up] fresh); [done..|].
  apply list_elem_of_further, list_elem_of_here.
Defined.

(** C3, as stated, fails: the first record has no [id] key, yet the
    export succeeds, reports both rows, and the row of the later record is
    in the output. *)
Lemma missing_key_counterexample :
  ¬ has_all_keys without_id ∧ takes fresh 3 ∧
  succeeds (complete_export_run [without_id; push_up] fresh) 2 ∧
  (∀ e, ¬ fails (complete_export_run [without_id; push_up] fresh) e) ∧
  read_output (complete_export_run [without_id; push_up] fresh)
  = Some [fieldnames; cell without_id <$> fieldnames;
          cell push_up <$> fieldnames].
Proof.
  split; [compute_done|]. split; [compute_done|]. split; [compute_done|].
  split; [|by vm_compute].
  intros e (_ & Hcounts & _). vm_compute in Hcounts. discriminate Hcounts.
Qed.

(** C3, amended.  A record that lacks one of the eleven keys raises no
    error: in a sequence whose records have no key outside the eleven
    field names, written to a destination that takes every write, the
    export succeeds, the row of every record has eleven cells, and the
    cell of a field the record lacks is the empty string, as for [None];
    the rows of the later records follow. *)
Theorem missing_key_is_empty_cell (exs : list dict) (dest : destination)
    (r : result () * world) :
  Forall dict_wf exs → Forall (accepted fieldnames) exs →
  takes dest (S (length exs)) →
  r ∈ [complete_export_run exs dest; export_all_exercises_run exs dest;
       json_to_csv_run exs dest] →
  succeeds r (length exs)
  ∧ ∃ rows, read_output r = Some rows
      ∧ ∀ i d, exs !! i = Some d →
          ∃ cells, rows !! S i = Some cells ∧ length cells = 11
            ∧ ∀ j field, fieldnames !! j = Some field → field ∉ keys d →
                cells !! j = Some "".
Proof.
  intros Hwf Hacc Hdest Hr. split.
  - repeat (apply elem_of_cons in Hr as [->|Hr]).
    + by rewrite complete_export_Ok.
    + by rewrite export_all_exercises_Ok.
    + by rewrite json_to_csv_Ok.
    + by apply elem_of_nil in Hr.
  - destruct (read_output_Ok exs dest r Hwf Hacc Hdest Hr) as [_ Hread].
    exists (table fieldnames exs). split; [done|].
    intros i d Hi. exists (cell d <$> fieldnames).
    split; [by apply table_lookup|]. split; [done|].
    intros j field Hj Hfield. rewrite list_lookup_fmap, Hj. simpl.
    unfold cell. by rewrite getitem_None.
Qed.

Lemma missing_key_is_empty_cell_witness :
  Forall dict_wf [without_id; push_up] ∧
  Forall (accepted fieldnames) [without_id; push_up] ∧ takes fresh 3 ∧
  succeeds (json_to_csv_run [without_id; push_up] fresh) 2
  ∧ ∃ rows, read_output (json_to_csv_run [without_id; push_up] fresh)
            = Some rows
      ∧ ∀ i d, [without_id; push_up] !! i = Some d →
          ∃ cells, rows !! S i = Some cells ∧ length cells = 11
            ∧ ∀ j field, fieldnames !! j = Some field → field ∉ keys d →
                cells !! j = Some "".
Proof.
  assert (Forall dict_wf [without_id; push_up]) as Hwf by compute_done.
  assert (Forall (accepted fieldnames) [without_id; push_up]) as Hacc
    by compute_done.
  assert (takes fresh 3) as Hdest by compute_done.
  split; [done|]. split; [done|]. split; [done|].
  apply (missing_key_is_empty_cell [without_id; push_up] fresh); [done..|].
  do 2 apply list_elem_of_further. apply list_elem_of_here.
Defined.

(** ** The header *)

Lemma header_line_fieldnames : header_line fieldnames = header_text.
Proof. done. Qed.

Lemma header_line_fields :
  header_line export_exercises.fields = export_to_csv_header_text.
Proof. done. Qed.

(** C10.  For the empty input sequence and a destination that opens and
    takes one write, the export succeeds, reports the count 0, and the
    output is the header line and nothing else: a reader finds the one
    row of the eleven field names. *)
Theorem empty_input_header_only (dest : destination) (r : result () * world) :
  takes dest 1 →
  r ∈ [complete_export_run [] dest; export_all_exercises_run [] dest] →
  succeeds r 0 ∧ output r = Some header_text
  ∧ read_output r = Some [fieldnames].
Proof.
  intros Hdest Hr.
  assert (output r = Some header_text ∧ succeeds r 0) as [Hout Hok].
  { repeat (apply elem_of_cons in Hr as [->|Hr]).
    - by rewrite complete_export_Ok.
    - by rewrite export_all_exercises_Ok.
    - by apply elem_of_nil in Hr. }
  split; [done|]. split; [done|].
  unfold read_output. by rewrite Hout.
Qed.

Lemma empty_input_header_only_witness :
  takes fresh 1 ∧
  succeeds (complete_export_run [] fresh) 0
  ∧ output (complete_export_run [] fresh) = Some header_text
  ∧ read_output (complete_export_run [] fresh) = Some [fieldnames].
Proof.
  assert (takes fresh 1) as Hdest by compute_done.
  split; [done|].
  apply (empty_input_header_only fresh); [done|apply list_elem_of_here].
Defined.

(** C4, as stated, fails: [export_to_csv] of [export_exercises.py] writes
    its columns in another order. *)
Lemma header_fixed_counterexample :
  takes fresh 1 ∧
  ¬ begins_with header_text (output (export_to_csv_run [push_up] fresh)).
Proof.
  split; [compute_done|]. intros [rest Hrest].
  vm_compute in Hrest. discriminate Hrest.
Qed.

(** C4, amended.  Every script writes its header line first, and the line
    is the same for every input and whatever the order of the keys in the
    records; in a complete export it is written once, and only the lines
    of the records follow it.  It holds the eleven field names in the order id, name, instructions,
    video_url, created_at, type, difficulty, category_id, is_variation,
    equipment, muscle for [complete_export.py], [export_all_exercises.py]
    and [json_to_csv.py], and in the order id, name, type, muscle,
    instructions, equipment, video_url, difficulty, category_id,
    is_variation, created_at for [export_to_csv] of
    [export_exercises.py]. *)
Theorem header_fixed_per_script (exs : list dict) (dest : destination) :
  takes dest 1 →
  begins_with header_text (output (complete_export_run exs dest))
  ∧ begins_with header_text (output (export_all_exercises_run exs dest))
  ∧ begins_with header_text (output (json_to_csv_run exs dest))
  ∧ begins_with export_to_csv_header_text (output (export_to_csv_run exs dest))
  ∧ rfc4180.read header_text = Some [fieldnames]
  ∧ rfc4180.read export_to_csv_header_text = Some [export_exercises.fields]
  ∧ (Forall dict_wf exs → Forall (accepted fieldnames) exs →
     takes dest (S (length exs)) →
     output (complete_export_run exs dest)
     = Some (header_text +:+ cat (data_lines fieldnames exs))
     ∧ output (export_all_exercises_run exs dest)
       = Some (header_text +:+ cat (data_lines fieldnames exs))
     ∧ output (json_to_csv_run exs dest)
       = Some (header_text +:+ cat (data_lines fieldnames exs))
     ∧ output (export_to_csv_run exs dest)
       = Some (export_to_csv_header_text
               +:+ cat (data_lines export_exercises.fields exs))).
Proof.
  intros Hdest. rewrite <- header_line_fieldnames, <- header_line_fields.
  split; [by apply complete_export_header|].
  split; [by apply export_all_exercises_header|].
  split; [by apply json_to_csv_header|].
  split; [by apply export_to_csv_header|].
  split; [reflexivity|]. split; [reflexivity|].
  intros Hwf Hacc Hall.
  rewrite complete_export_Ok, export_all_exercises_Ok, json_to_csv_Ok,
    export_to_csv_Ok by done.
  done.
Qed.

Lemma header_fixed_per_script_witness :
  takes fresh 1 ∧
  begins_with header_text (output (complete_export_run [with_notes] fresh))
  ∧ begins_with header_text
      (output (export_all_exercises_run [with_notes] fresh))
  ∧ begins_with header_text (output (json_to_csv_run [with_notes] fresh))
  ∧ begins_with export_to_csv_header_text
      (output (export_to_csv_run [with_notes] fresh))
  ∧ rfc4180.read header_text = Some [fieldnames]
  ∧ rfc4180.read export_to_csv_header_text = Some [export_exercises.fields]
  ∧ (Forall dict_wf [with_notes] → Forall (accepted fieldnames) [with_notes] →
     takes fresh 2 →
     output (complete_export_run [with_notes] fresh)
     = Some (header_text +:+ cat (data_lines fieldnames [with_notes]))
     ∧ output (export_all_exercises_run [with_notes] fresh)
       = Some (header_text +:+ cat (data_lines fieldnames [with_notes]))
     ∧ output (json_to_csv_run [with_notes] fresh)
       = Some (header_text +:+ cat (data_lines fieldnames [with_notes]))
     ∧ output (export_to_csv_run [with_notes] fresh)
       = Some (export_to_csv_header_text
               +:+ cat (data_lines export_exercises.fields [with_notes]))).
Proof.
  assert (takes fresh 1) as Hdest by compute_done.
  split; [done|]. by apply (header_fixed_per_script [with_notes] fresh).
Defined.

(** ** Failures *)

Lemma complete_export_Raised exs dest e w' :
  export_block sound (World exs dest []) = (Raised e, w') → stdout w' = [] →
  complete_export_run exs dest
  = (Ok (), World (heap w') (csvfile w') (Error e :: instructions)).
Proof.
  intros Hblock Hout. unfold complete_export_run, run.
  by rewrite complete_export_block, Hblock, Hout.
Qed.

Lemma export_all_exercises_Raised exs dest e w' :
  export_block sound (World exs dest [exporting]) = (Raised e, w') →
  stdout w' = [exporting] →
  export_all_exercises_run exs dest
  = (Ok (), World (heap w') (csvfile w') [exporting; Error e; please]).
Proof.
  intros Hblock Hout. unfold export_all_exercises_run, run.
  rewrite export_all_exercises_block. simpl. by rewrite Hblock, Hout.
Qed.

Lemma json_to_csv_Raised exs dest e w' :
  plain_block sound (World exs dest []) = (Raised e, w') →
  json_to_csv_run exs dest = (Raised e, w').
Proof.
  intros Hblock. unfold json_to_csv_run, run.
  by rewrite json_to_csv_block, Hblock.
Qed.

(** [l] is none of the given lines. *)
Ltac not_printed :=
  let H := fresh in
  intros H;
  repeat (apply elem_of_cons in H as [H|H]; [discriminate H|]);
  by apply elem_of_nil in H.

Lemma fails_complete_export h f e :
  fails (Ok (), World h f (Error e :: instructions)) e.
Proof. split; [by right|]. split; [done|]. simpl. not_printed. Qed.

Lemma fails_export_all_exercises h f e :
  fails (Ok (), World h f [exporting; Error e; please]) e.
Proof. split; [by right|]. split; [done|]. simpl. not_printed. Qed.

Lemma fails_json_to_csv h f e : fails (Raised e, World h f []) e.
Proof. split; [by left|]. split; [done|]. simpl. not_printed. Qed.

Lemma content_closed disk f :
  content (closed disk f)
  = match capacity disk with
    | Some c => first_bytes c <$> content f
    | None => content f
    end.
Proof. unfold closed. by destruct (capacity disk). Qed.

(** The block on a device that cannot hold the document, when no [write]
    flushes: the body has gone through and printed before [close]
    raises. *)
Lemma export_block_late disk exs dest out :
  Forall dict_wf exs → Forall (accepted fieldnames) exs →
  takes dest (S (length exs)) → calm disk "" (document fieldnames exs) →
  ¬ holds disk (cat (document fieldnames exs)) →
  export_block disk (World exs dest out)
  = (Raised (OSError (device_error disk)),
     World (none_to_empty <$> exs)
       (closed disk (written (opened dest) (document fieldnames exs)))
       (out ++ [Created; Exported (length exs)])).
Proof.
  intros Hwf Hacc [Hopen Hroom] Hcalm Hfull.
  rewrite export_block_settle by done.
  rewrite export_body_Ok; [by rewrite settle_full|done..|].
  apply goes_opened; [|done]. by rewrite length_document.
Qed.

Lemma plain_block_late disk exs dest out :
  Forall (accepted fieldnames) exs →
  takes dest (S (length exs)) → calm disk "" (document fieldnames exs) →
  ¬ holds disk (cat (document fieldnames exs)) →
  plain_block disk (World exs dest out)
  = (Raised (OSError (device_error disk)),
     World exs (closed disk (written (opened dest) (document fieldnames exs)))
       out).
Proof.
  intros Hacc [Hopen Hroom] Hcalm Hfull.
  rewrite plain_block_settle by done.
  rewrite rows_body_Ok; [by rewrite settle_full|done|].
  apply goes_opened; [|done]. by rewrite length_document.
Qed.

(** C7 fails on [complete_export.py] and [export_all_exercises.py].  They
    print the success message and the count inside the [with] block,
    before the file is closed.  When the records are in order, the
    destination opens and every [write] returns, but the device cannot
    hold the document, the failure shows when the block closes the file:
    the run has then reported the file as created and the full count,
    and reports the [OSError] after them, while the file holds only what
    the device took.  So a success message and a count are reported by a
    run that failed.  [json_to_csv.py], which prints after the block,
    fails on the same input with the one error and no count. *)
Theorem count_reported_then_close_fails (disk : device) (exs : list dict)
    (dest : destination) (r : result () * world) :
  Forall dict_wf exs → Forall (accepted fieldnames) exs →
  takes dest (S (length exs)) → calm disk "" (document fieldnames exs) →
  ¬ holds disk (cat (document fieldnames exs)) →
  r ∈ [complete_export_on disk exs dest; export_all_exercises_on disk exs dest] →
  r.1 = Ok ()
  ∧ (∃ before rest,
       stdout r.2
       = before ++ [Created; Exported (length exs);
                    Error (OSError (device_error disk))] ++ rest)
  ∧ counts r.2 = [length exs]
  ∧ errors r.2 = [OSError (device_error disk)]
  ∧ (∀ e, ¬ fails r e)
  ∧ (∃ c, capacity disk = Some c
       ∧ c < String.length (cat (document fieldnames exs))
       ∧ output r = Some (first_bytes c (cat (document fieldnames exs))))
  ∧ fails (json_to_csv_on disk exs dest) (OSError (device_error disk)).
Proof.
  intros Hwf Hacc Hdest Hcalm Hfull Hr.
  assert (∃ c, capacity disk = Some c
            ∧ c < String.length (cat (document fieldnames exs))
            ∧ content (closed disk (written (opened dest)
                                      (document fieldnames exs)))
              = Some (first_bytes c (cat (document fieldnames exs))))
    as Hfile.
  { unfold holds, overflows in Hfull. rewrite content_closed.
    destruct (capacity disk) as [c|]; [|done]. exists c.
    split; [done|]. split; [|done].
    apply not_false_is_true, bool_decide_eq_true in Hfull. done. }
  assert (fails (json_to_csv_on disk exs dest) (OSError (device_error disk)))
    as Hsibling.
  { unfold json_to_csv_on, run.
    rewrite json_to_csv_block, plain_block_late by done.
    apply fails_json_to_csv. }
  repeat (apply elem_of_cons in Hr as [->|Hr]); [..|by apply elem_of_nil in Hr].
  - unfold complete_export_on, run.
    rewrite complete_export_block, export_block_late by done.
    cbn [fst snd heap csvfile stdout output].
    split; [done|]. split; [by exists [], instructions|].
    split; [done|]. split; [done|]. split; [|done].
    intros e (_ & Hcounts & _). discriminate Hcounts.
  - unfold export_all_exercises_on, run.
    rewrite export_all_exercises_block, export_block_late by done.
    cbn [fst snd heap csvfile stdout output].
    split; [done|]. split; [by exists [exporting], [please]|].
    split; [done|]. split; [done|]. split; [|done].
    intros e (_ & Hcounts & _). discriminate Hcounts.
Qed.

(** One record, a destination that opens, and a device that is full: the
    file object takes the two lines, and [close] cannot flush them. *)
Lemma count_reported_then_close_fails_witness :
  Forall dict_wf [push_up] ∧ Forall (accepted fieldnames) [push_up] ∧
  takes fresh 2 ∧ calm full_disk "" (document fieldnames [push_up]) ∧
  ¬ holds full_disk (cat (document fieldnames [push_up])) ∧
  (complete_export_on full_disk [push_up] fresh).1 = Ok ()
  ∧ (∃ before rest,
       stdout (complete_export_on full_disk [push_up] fresh).2
       = before ++ [Created; Exported 1;
                    Error (OSError (device_error full_disk))] ++ rest)
  ∧ counts (complete_export_on full_disk [push_up] fresh).2 = [1]
  ∧ errors (complete_export_on full_disk [push_up] fresh).2
    = [OSError (device_error full_disk)]
  ∧ (∀ e, ¬ fails (complete_export_on full_disk [push_up] fresh) e)
  ∧ (∃ c, capacity full_disk = Some c
       ∧ c < String.length (cat (document fieldnames [push_up]))
       ∧ output (complete_export_on full_disk [push_up] fresh)
         = Some (first_bytes c (cat (document fieldnames [push_up]))))
  ∧ fails (json_to_csv_on full_disk [push_up] fresh)
      (OSError (device_error full_disk)).
Proof.
  assert (Forall dict_wf [push_up]) as Hwf by compute_done.
  assert (Forall (accepted fieldnames) [push_up]) as Hacc by compute_done.
  assert (takes fresh 2) as Hdest by compute_done.
  assert (calm full_disk "" (document fieldnames [push_up])) as Hcalm
    by compute_done.
  assert (¬ holds full_disk (cat (document fieldnames [push_up]))) as Hfull
    by compute_done.
  split; [done|]. split; [done|]. split; [done|]. split; [done|].
  split; [done|].
  apply (count_reported_then_close_fails full_disk [push_up] fresh);
    [done..|apply list_elem_of_here].
Defined.

(** The run of [complete_export.py] on that input, line by line: the
    success message, the count, the error, and an empty file. *)
Example full_disk_run :
  complete_export_on full_disk [push_up] fresh
  = (Ok (),
     World [none_to_empty push_up]
       (Destination None None "" (Some ""))
       ([Created; Exported 1;
         Error (OSError "[Errno 28] No space left on device")]
        ++ instructions)).
Proof. reflexivity. Qed.

(** C9.  When the record at position [k] is the first with a key that is
    none of the eleven field names, and the destination takes the header
    and the [k] rows before it, the export fails with the [ValueError]
    that names the foreign keys.  The row is refused before anything of
    it is written: the output is the header line and the rows of the [k]
    records before it, with no row for the record or for any later
    one. *)
Theorem foreign_key_rejected (exs : list dict) (dest : destination)
    (k : nat) (d : dict) (r : result () * world) :
  exs !! k = Some d → ¬ accepted fieldnames d →
  Forall dict_wf (take (S k) exs) →
  Forall (accepted fieldnames) (take k exs) →
  takes dest (S k) →
  r ∈ [complete_export_run exs dest; export_all_exercises_run exs dest;
       json_to_csv_run exs dest] →
  fails r (ValueError (filter (λ key, key ∉ fieldnames) (keys d)))
  ∧ output r
    = Some (cat (header_line fieldnames
                 :: data_lines fieldnames (take k exs))).
Proof.
  intros Hk Hd Hwf Hacc Hdest Hr.
  repeat (apply elem_of_cons in Hr as [->|Hr]); [..|by apply elem_of_nil in Hr].
  - erewrite complete_export_Raised;
      [|by apply (export_block_ValueError exs dest [] k d)|done].
    split; [apply fails_complete_export|done].
  - erewrite export_all_exercises_Raised;
      [|by apply (export_block_ValueError exs dest [exporting] k d)|done].
    split; [apply fails_export_all_exercises|done].
  - erewrite json_to_csv_Raised;
      [|by apply (plain_block_ValueError exs dest [] k d)].
    split; [apply fails_json_to_csv|done].
Qed.

Lemma foreign_key_rejected_witness :
  [push_up; with_notes; push_up] !! 1 = Some with_notes ∧
  ¬ accepted fieldnames with_notes ∧
  Forall dict_wf (take 2 [push_up; with_notes; push_up]) ∧
  Forall (accepted fieldnames) (take 1 [push_up; with_notes; push_up]) ∧
  takes fresh 2 ∧
  fails (json_to_csv_run [push_up; with_notes; push_up] fresh)
    (ValueError (filter (λ key, key ∉ fieldnames) (keys with_notes)))
  ∧ output (json_to_csv_run [push_up; with_notes; push_up] fresh)
    = Some (cat (header_line fieldnames
                 :: data_lines fieldnames
                      (take 1 [push_up; with_notes; push_up]))).
Proof.
  assert (¬ accepted fieldnames with_notes) as Hd by compute_done.
  assert (Forall dict_wf (take 2 [push_up; with_notes; push_up])) as Hwf
    by compute_done.
  assert (Forall (accepted fieldnames) (take 1 [push_up; with_notes; push_up]))
    as Hacc by compute_done.
  assert (takes fresh 2) as Hdest by compute_done.
  split; [done|]. split; [done|]. split; [done|]. split; [done|].
  split; [done|].
  apply (foreign_key_rejected [push_up; with_notes; push_up] fresh 1 with_notes);
    [done..|].
  do 2 apply list_elem_of_further. apply list_elem_of_here.
Defined.

(** ** The records after the run *)

(** Whatever happens, the block has replaced [None] in the records it
    reached and has not touched the others. *)
Lemma export_block_heap exs dest out :
  Forall dict_wf exs →
  ∃ k, heap (export_block sound (World exs dest out)).2
       = (none_to_empty <$> take k exs) ++ drop k exs.
Proof.
  intros Hwf. destruct (open_error dest) as [msg|] eqn:Hopen.
  { exists 0. by rewrite (export_block_open_error exs dest out sound msg). }
  assert (∀ q, writes_left dest = Some q → q ≤ length exs →
               Forall (accepted fieldnames) (take q exs) →
               ∃ k, heap (export_block sound (World exs dest out)).2
                    = (none_to_empty <$> take k exs) ++ drop k exs)
    as Hshort.
  { intros q Hq Hlen Hacc. exists q.
    by rewrite (export_block_refused exs dest out q)
      by auto using Forall_take. }
  destruct (Forall_or_first (accepted fieldnames) exs)
    as [Hacc|(k & d & Hk & Hd & Hacc)].
  - destruct (decide (room dest (S (length exs)))) as [Hroom|Hroom].
    + exists (length exs).
      rewrite export_block_Ok by first [done | by split].
      simpl. by rewrite take_ge, drop_ge, app_nil_r.
    + unfold room in Hroom. destruct (writes_left dest) as [q|] eqn:Hq; [|done].
      apply (Hshort q); auto using Forall_take. lia.
  - pose proof (lookup_lt_Some _ _ _ Hk).
    destruct (decide (room dest (S k))) as [Hroom|Hroom].
    + exists (S k).
      by rewrite (export_block_ValueError exs dest out k d)
        by first [done | by apply Forall_take | by split].
    + unfold room in Hroom. destruct (writes_left dest) as [q|] eqn:Hq; [|done].
      apply (Hshort q); [done|lia|].
      replace q with (q `min` k) by lia. rewrite <- take_take.
      by apply Forall_take.
Qed.

(** C8, as stated, fails: the run replaces the three [None] of the
    record by empty strings. *)
Lemma records_unchanged_counterexample :
  Forall dict_wf [push_up] ∧
  heap (complete_export_run [push_up] fresh).2 ≠ [push_up] ∧
  heap (export_all_exercises_run [push_up] fresh).2 ≠ [push_up].
Proof. repeat split; compute_done. Qed.

(** C8, amended.  [complete_export.py] and [export_all_exercises.py]
    change their input in place, and only in this way: after the run the
    records up to some position have every [None] replaced by the empty
    string, with the same keys in the same order and every other value as
    it was, and the records from that position on are untouched.  After a
    run that succeeds every record has been so treated; a record that
    holds no [None] is the same before and after. *)
Theorem records_change_only_null_values (exs : list dict)
    (dest : destination) (r : result () * world) :
  Forall dict_wf exs →
  r ∈ [complete_export_run exs dest; export_all_exercises_run exs dest] →
  (∃ k, heap r.2 = (none_to_empty <$> take k exs) ++ drop k exs)
  ∧ (Forall (accepted fieldnames) exs → takes dest (S (length exs)) →
       heap r.2 = none_to_empty <$> exs)
  ∧ (∀ d, keys (none_to_empty d) = keys d)
  ∧ (∀ d key, getitem (none_to_empty d) key
              = (λ v, if is_None v then VStr "" else v) <$> getitem d key)
  ∧ (∀ d, Forall (λ v, v ≠ VNone) d.*2 → none_to_empty d = d).
Proof.
  intros Hwf Hr. split; [|split].
  - repeat (apply elem_of_cons in Hr as [->|Hr]); [..|by apply elem_of_nil in Hr].
    + destruct (export_block_heap exs dest [] Hwf) as [k Hk]. exists k.
      unfold complete_export_run, run. rewrite complete_export_block.
      by destruct (export_block sound _) as [[[]|e] w'].
    + destruct (export_block_heap exs dest ([] ++ [exporting]) Hwf) as [k Hk].
      exists k. unfold export_all_exercises_run, run.
      rewrite export_all_exercises_block. simpl in *.
      by destruct (export_block sound _) as [[[]|e] w'].
  - intros Hacc Hdest.
    repeat (apply elem_of_cons in Hr as [->|Hr]); [..|by apply elem_of_nil in Hr].
    + by rewrite complete_export_Ok.
    + by rewrite export_all_exercises_Ok.
  - auto using keys_none_to_empty, getitem_none_to_empty, none_to_empty_id.
Qed.

Lemma records_change_only_null_values_witness :
  Forall dict_wf [push_up; with_notes] ∧
  (∃ k, heap (complete_export_run [push_up; with_notes] fresh).2
        = (none_to_empty <$> take k [push_up; with_notes])
          ++ drop k [push_up; with_notes])
  ∧ (Forall (accepted fieldnames) [push_up; with_notes] → takes fresh 3 →
       heap (complete_export_run [push_up; with_notes] fresh).2
       = none_to_empty <$> [push_up; with_notes])
  ∧ (∀ d, keys (none_to_empty d) = keys d)
  ∧ (∀ d key, getitem (none_to_empty d) key
              = (λ v, if is_None v then VStr "" else v) <$> getitem d key)
  ∧ (∀ d, Forall (λ v, v ≠ VNone) d.*2 → none_to_empty d = d).
Proof.
  assert (Forall dict_wf [push_up; with_notes]) as Hwf by compute_done.
  split; [done|].
  apply (records_change_only_null_values [push_up; with_notes] fresh);
    [done|apply list_elem_of_here].
Defined.

(** * Further properties of the scripts *)

Example fetch_not_found :
  fetch_and_export_run (export_exercises_fetch.Response 404 "Not Found" None)
    two_lines_only
  = (Ok (),
     World [] two_lines_only
       [Text "Fetching exercises from Supabase...";
        Text "Error fetching data: 404"; Text "Not Found";
        Text "No exercises to export"]).
Proof. reflexivity. Qed.

Example export_complete_counts_one :
  succeeds (export_complete_run fresh) 1
  ∧ read_output (export_complete_run fresh)
    = Some (table fieldnames [ab_wheel_rollout]).
Proof. split; [compute_done|reflexivity]. Qed.

(** ** The ways a run can go *)

Lemma situation_total fields exs dest : situation fields exs dest.
Proof.
  destruct (open_error dest) as [msg|] eqn:Hopen; [by eapply CannotOpen|].
  destruct (Forall_or_first (accepted fields) exs)
    as [Hacc|(k & d & Hk & Hd & Hacc)].
  - destruct (decide (room dest (S (length exs)))) as [Hroom|Hroom].
    + by apply Complete.
    + unfold room in Hroom. destruct (writes_left dest) as [q|] eqn:Hq; [|done].
      apply (WriteRefused _ _ _ q); auto using Forall_take. lia.
  - pose proof (lookup_lt_Some _ _ _ Hk).
    destruct (decide (room dest (S k))) as [Hroom|Hroom].
    + by apply (ForeignKey _ _ _ k d).
    + unfold room in Hroom. destruct (writes_left dest) as [q|] eqn:Hq; [|done].
      apply (WriteRefused _ _ _ q); [done..|lia|].
      replace q with (q `min` k) by lia. rewrite <- take_take.
      by apply Forall_take.
Qed.

Lemma accepted_prefix_all fields exs :
  Forall (accepted fields) exs → accepted_prefix fields exs = length exs.
Proof.
  induction 1 as [|d exs Hd _ IH]; simpl; [done|].
  by rewrite decide_True, IH.
Qed.

Lemma accepted_prefix_first fields exs k d :
  exs !! k = Some d → ¬ accepted fields d →
  Forall (accepted fields) (take k exs) →
  accepted_prefix fields exs = k.
Proof.
  revert k. induction exs as [|a exs IH]; intros [|k] Hk Hd Hacc;
    simplify_eq/=.
  - by rewrite decide_False.
  - apply Forall_cons in Hacc as [Ha Hacc].
    rewrite decide_True by done. f_equal. by apply IH.
Qed.

Lemma accepted_prefix_take fields exs q :
  q ≤ length exs → Forall (accepted fields) (take q exs) →
  q ≤ accepted_prefix fields exs.
Proof.
  revert q. induction exs as [|a exs IH]; intros [|q] Hq Hacc;
    simpl in *; try lia.
  apply Forall_cons in Hacc as [Ha Hacc].
  rewrite decide_True by done. apply le_n_S, IH; [lia|done].
Qed.

(** [lines_written] in each situation. *)
Lemma lines_written_Complete fields exs dest :
  Forall (accepted fields) exs → room dest (S (length exs)) →
  lines_written fields exs dest = S (length exs).
Proof.
  intros Hacc Hroom. unfold lines_written, room in *.
  rewrite accepted_prefix_all by done.
  destruct (writes_left dest); lia.
Qed.

Lemma lines_written_ForeignKey fields exs dest k d :
  exs !! k = Some d → ¬ accepted fields d →
  Forall (accepted fields) (take k exs) → room dest (S k) →
  lines_written fields exs dest = S k.
Proof.
  intros Hk Hd Hacc Hroom. unfold lines_written, room in *.
  rewrite (accepted_prefix_first fields exs k d) by done.
  destruct (writes_left dest); lia.
Qed.

Lemma lines_written_WriteRefused fields exs dest q :
  writes_left dest = Some q → q ≤ length exs →
  Forall (accepted fields) (take q exs) →
  lines_written fields exs dest = q.
Proof.
  intros Hq Hlen Hacc. unfold lines_written. rewrite Hq.
  pose proof (accepted_prefix_take fields exs q Hlen Hacc). lia.
Qed.

Lemma take_lines fields exs k :
  take (S k) (header_line fields :: data_lines fields exs)
  = header_line fields :: data_lines fields (take k exs).
Proof. apply take_document. Qed.

Lemma take_lines_all fields exs :
  take (S (length exs)) (header_line fields :: data_lines fields exs)
  = header_line fields :: data_lines fields exs.
Proof. apply take_document_all. Qed.

(** ** The file after the blocks *)

Lemma export_block_file exs dest out :
  Forall dict_wf exs →
  csvfile (export_block sound (World exs dest out)).2 = file_after fieldnames exs dest.
Proof.
  intros Hwf. unfold file_after.
  destruct (situation_total fieldnames exs dest)
    as [msg Hopen|Hopen Hacc Hroom|k d Hopen Hk Hd Hacc Hroom|q Hopen Hq Hlen Hacc];
    rewrite Hopen.
  - by rewrite (export_block_open_error exs dest out sound msg).
  - rewrite export_block_Ok by first [done | by split].
    rewrite lines_written_Complete by done. by rewrite take_lines_all.
  - rewrite (export_block_ValueError exs dest out k d)
      by first [done | by apply Forall_take | by split].
    rewrite (lines_written_ForeignKey _ _ _ k d) by done.
    by rewrite take_lines.
  - rewrite (export_block_refused exs dest out q)
      by auto using Forall_take.
    by rewrite (lines_written_WriteRefused _ _ _ q).
Qed.

Lemma plain_block_file exs dest out :
  csvfile (plain_block sound (World exs dest out)).2 = file_after fieldnames exs dest.
Proof.
  unfold file_after.
  destruct (situation_total fieldnames exs dest)
    as [msg Hopen|Hopen Hacc Hroom|k d Hopen Hk Hd Hacc Hroom|q Hopen Hq Hlen Hacc];
    rewrite Hopen.
  - by rewrite (plain_block_open_error exs dest out sound msg).
  - rewrite plain_block_Ok by first [done | by split].
    rewrite lines_written_Complete by done. by rewrite take_lines_all.
  - rewrite (plain_block_ValueError exs dest out k d)
      by first [done | by split].
    rewrite (lines_written_ForeignKey _ _ _ k d) by done.
    by rewrite take_lines.
  - rewrite (plain_block_refused exs dest out q) by done.
    by rewrite (lines_written_WriteRefused _ _ _ q).
Qed.

Lemma plain_block_heap exs dest out :
  heap (plain_block sound (World exs dest out)).2 = exs.
Proof.
  destruct (situation_total fieldnames exs dest)
    as [msg Hopen|Hopen Hacc Hroom|k d Hopen Hk Hd Hacc Hroom|q Hopen Hq Hlen Hacc].
  - by rewrite (plain_block_open_error exs dest out sound msg).
  - by rewrite plain_block_Ok by first [done | by split].
  - by rewrite (plain_block_ValueError exs dest out k d)
      by first [done | by split].
  - by rewrite (plain_block_refused exs dest out q).
Qed.

(** ** The block of [export_to_csv] *)

Section fields_block_file.
Variables (exs : list dict) (dest : destination) (out : list line).

Lemma fields_block_file :
  csvfile (fields_block sound (World exs dest out)).2
  = file_after export_exercises.fields exs dest.
Proof.
  unfold file_after.
  destruct (situation_total export_exercises.fields exs dest)
    as [msg Hopen|Hopen Hacc Hroom|k d Hopen Hk Hd Hacc Hroom|q Hopen Hq Hlen Hacc];
    rewrite Hopen.
  - by rewrite (fields_block_open_error exs dest out sound msg).
  - rewrite (fields_block_Ok exs dest out) by first [done | by split].
    rewrite lines_written_Complete by done. by rewrite take_lines_all.
  - rewrite (fields_block_ValueError exs dest out k d) by first [done | by split].
    rewrite (lines_written_ForeignKey _ _ _ k d) by done.
    by rewrite take_lines.
  - rewrite (fields_block_refused exs dest out q) by done.
    by rewrite (lines_written_WriteRefused _ _ _ q).
Qed.

Lemma fields_block_heap : heap (fields_block sound (World exs dest out)).2 = exs.
Proof.
  destruct (situation_total export_exercises.fields exs dest)
    as [msg Hopen|Hopen Hacc Hroom|k d Hopen Hk Hd Hacc Hroom|q Hopen Hq Hlen Hacc].
  - by rewrite (fields_block_open_error exs dest out sound msg).
  - by rewrite (fields_block_Ok exs dest out) by first [done | by split].
  - by rewrite (fields_block_ValueError exs dest out k d) by first [done | by split].
  - by rewrite (fields_block_refused exs dest out q).
Qed.

End fields_block_file.

Lemma export_to_csv_file exs dest out :
  csvfile (export_exercises.export_to_csv sound (Records exs)
             (World exs dest out)).2
  = file_after export_exercises.fields exs dest.
Proof.
  rewrite export_to_csv_block.
  pose proof (fields_block_file exs dest
                (out ++ [Writing (length exs)])) as H.
  by destruct (fields_block sound _) as [[[]|e] w'].
Qed.

(** ** The ways a run can go on any device *)

(** Either every [write] of the lines [ls] returns, or there is a first
    line whose [write] does not: the encoding refuses it, or its flush
    finds the device full. *)
Lemma first_stop disk dest ls :
  (room dest (length ls) ∧ calm disk "" ls)
  ∨ ∃ q, q < length ls ∧ room dest q ∧ calm disk "" (take q ls)
      ∧ (writes_left dest = Some q
         ∨ room dest (S q)
           ∧ detects disk (String.length (cat (take (S q) ls))) = true).
Proof.
  induction ls as [|l ls IH] using rev_ind.
  { left. split; [|by constructor].
    unfold room. destruct (writes_left dest); simpl; [lia|done]. }
  destruct IH as [[Hroom Hcalm]|(q & Hq & Hroomq & Hcalmq & Hstop)].
  - destruct (decide (writes_left dest = Some (length ls))) as [Hwl|Hwl].
    { right. exists (length ls). rewrite length_app. simpl.
      split; [lia|]. split; [done|].
      rewrite take_app_length. split; [done|by left]. }
    assert (room dest (S (length ls))) as Hroom'.
    { unfold room in *. destruct (writes_left dest) as [w|]; [|done].
      destruct (decide (w = length ls)) as [->|]; [done|lia]. }
    destruct (detects disk (String.length (cat (ls ++ [l])))) eqn:Hfull.
    + right. exists (length ls). rewrite length_app. simpl.
      split; [lia|]. split; [done|].
      rewrite take_app_length. split; [done|]. right. split; [done|].
      by rewrite take_ge by (rewrite length_app; simpl; lia).
    + left. rewrite length_app. simpl. split; [by rewrite Nat.add_1_r|].
      apply calm_app; [done|].
      unfold calm. simpl. constructor; [|constructor].
      rewrite cat_app in Hfull. exact Hfull.
  - right. exists q. rewrite length_app. split; [lia|]. split; [done|].
    rewrite !take_app_le by lia. done.
Qed.

Lemma course_total disk fields exs dest : course disk fields exs dest.
Proof.
  destruct (Forall_or_first (accepted fields) exs)
    as [Hacc|(k & d & Hk & Hd & Hacc)].
  - destruct (first_stop disk dest (document fields exs))
      as [[Hroom Hcalm]|(q & Hq & Hroomq & Hcalmq & Hstop)];
      rewrite length_document in *.
    + by apply AllRows.
    + destruct Hstop as [Hwl|[Hroom Hfull]].
      * apply (Unencodable _ _ _ _ q); [done|lia|by apply Forall_take|done].
      * apply (DeviceFull _ _ _ _ q); [lia|by apply Forall_take|done..].
  - pose proof (lookup_lt_Some _ _ _ Hk) as Hlt.
    destruct (first_stop disk dest (take (S k) (document fields exs)))
      as [[Hroom Hcalm]|(q & Hq & Hroomq & Hcalmq & Hstop)];
      rewrite length_take_le in * by (rewrite length_document; lia).
    + by apply (BadKey _ _ _ _ k d).
    + rewrite !take_take in *.
      replace (q `min` S k) with q in * by lia.
      replace (S q `min` S k) with (S q) in * by lia.
      assert (Forall (accepted fields) (take q exs)) as Haccq.
      { replace q with (q `min` k) by lia. rewrite <- take_take.
        by apply Forall_take. }
      destruct Hstop as [Hwl|[Hroom Hfull]].
      * apply (Unencodable _ _ _ _ q); [done|lia|done..].
      * apply (DeviceFull _ _ _ _ q); [lia|done..].
Qed.

(** A run that does not take every line has one of the other courses. *)
Lemma BadKey_not_through disk fields exs dest k d :
  exs !! k = Some d → ¬ accepted fields d → ¬ through disk fields exs dest.
Proof.
  intros Hk Hd [Hacc _]. apply Hd. by eapply Forall_lookup_1.
Qed.

Lemma Unencodable_not_through disk fields exs dest q :
  writes_left dest = Some q → q ≤ length exs → ¬ through disk fields exs dest.
Proof. intros Hq Hlen (_ & Hroom & _). unfold room in Hroom. rewrite Hq in Hroom. lia. Qed.

Lemma DeviceFull_not_through disk fields exs dest q :
  q ≤ length exs →
  detects disk (String.length (cat (take (S q) (document fields exs)))) = true →
  ¬ through disk fields exs dest.
Proof.
  intros Hlen Hfull (_ & _ & Hcalm).
  pose proof (calm_lookup disk "" (document fields exs) q Hcalm) as H.
  rewrite length_document in H. simpl in H, Hfull. rewrite H in Hfull; [done|lia].
Qed.

Lemma text_written_opened dest ls :
  default "" (content (written (opened dest) ls)) = cat ls.
Proof. done. Qed.

Lemma length_take_document fields exs q :
  q ≤ S (length exs) → length (take q (document fields exs)) = q.
Proof. intros Hq. rewrite length_take_le; [done|]. by rewrite length_document. Qed.

(** *** The outcome of the blocks *)

(** The block of [json_to_csv.main] and of [export_to_csv], for any
    columns: either every line went through and the device holds the
    document, and the block returns with the document in the file; or the
    block raises, and the file holds what the device took of the lines
    the file object had taken. *)
Lemma rows_outcome disk fields exs dest out :
  let rw := settle disk (rows_body fields (TextIO None disk)
                           (World exs (opened dest) out)) in
  (through disk fields exs dest ∧ holds disk (cat (document fields exs))
   ∧ rw = (Ok (), World exs (written (opened dest) (document fields exs)) out))
  ∨ (¬ (through disk fields exs dest ∧ holds disk (cat (document fields exs)))
     ∧ ∃ e m, rw = (Raised e,
                    World exs
                      (closed disk
                         (written (opened dest)
                            (take m (document fields exs))))
                      out)).
Proof.
  intros rw. subst rw.
  assert (∀ e m,
    settle disk (Raised e,
                 World exs (written (opened dest) (take m (document fields exs)))
                   out)
    = (Raised (if decide (holds disk (cat (take m (document fields exs))))
               then e else OSError (device_error disk)),
       World exs
         (closed disk (written (opened dest) (take m (document fields exs))))
         out)) as Hraised.
  { intros e m. unfold settle. cbn [snd csvfile heap stdout].
    rewrite text_written_opened.
    case_decide as Hfits; [|done].
    rewrite closed_holds; [done|]. by rewrite text_written_opened. }
  destruct (course_total disk fields exs dest)
    as [Hall|k d Hk Hd Hacc Hroom Hcalm|q Hq Hlen Hacc Hcalm
        |q Hlen Hacc Hroom Hcalm Hfull].
  - destruct Hall as (Hacc & Hroom & Hcalm).
    rewrite rows_body_Ok; [|done|by apply goes_opened; rewrite ?length_document].
    destruct (decide (holds disk (cat (document fields exs)))) as [Hfits|Hfits].
    + left. split; [done|]. split; [done|]. by apply settle_holds.
    + right. split; [tauto|].
      exists (OSError (device_error disk)), (S (length exs)).
      rewrite settle_full by done. by rewrite take_document_all.
  - pose proof (lookup_lt_Some _ _ _ Hk).
    right. split; [intros [? _]; by eapply BadKey_not_through|].
    rewrite (rows_body_ValueError _ _ _ _ _ k d); [|done..|]; cycle 1.
    { apply goes_opened; [|done]. by rewrite length_take_document by lia. }
    rewrite Hraised. eauto.
  - right. split; [intros [? _]; by eapply Unencodable_not_through|].
    rewrite (rows_body_refused _ _ _ _ _ q); [|done..|]; cycle 1.
    { apply goes_opened; [|done]. rewrite length_take_document by lia.
      unfold room. by rewrite Hq. }
    rewrite Hraised. eauto.
  - right. split; [intros [? _]; by eapply DeviceFull_not_through|].
    rewrite (rows_body_detected _ _ _ _ _ q); [|done..| |done|done]; cycle 1.
    { apply goes_opened; [|done]. rewrite length_take_document by lia.
      eapply room_le; [|done]. lia. }
    rewrite Hraised. eauto.
Qed.

(** The block of the scripts that replace [None]: the same, but the
    success message and the count are printed inside the block, so they
    are there when every line went through, also when [close] then
    raises because the device does not hold the document. *)
Lemma export_outcome disk exs dest out :
  Forall dict_wf exs →
  let rw := settle disk (export_body (TextIO (Some "utf-8") disk)
                           (World exs (opened dest) out)) in
  (through disk fieldnames exs dest
   ∧ holds disk (cat (document fieldnames exs))
   ∧ rw = (Ok (),
           World (none_to_empty <$> exs)
             (written (opened dest) (document fieldnames exs))
             (out ++ [Created; Exported (length exs)])))
  ∨ (through disk fieldnames exs dest
     ∧ ¬ holds disk (cat (document fieldnames exs))
     ∧ rw = (Raised (OSError (device_error disk)),
             World (none_to_empty <$> exs)
               (closed disk (written (opened dest) (document fieldnames exs)))
               (out ++ [Created; Exported (length exs)])))
  ∨ (¬ through disk fieldnames exs dest
     ∧ ∃ e k m, rw = (Raised e,
                      World ((none_to_empty <$> take k exs) ++ drop k exs)
                        (closed disk
                           (written (opened dest)
                              (take m (document fieldnames exs))))
                        out)).
Proof.
  intros Hwf rw. subst rw.
  assert (∀ e h m,
    settle disk (Raised e,
                 World h
                   (written (opened dest) (take m (document fieldnames exs)))
                   out)
    = (Raised (if decide (holds disk (cat (take m (document fieldnames exs))))
               then e else OSError (device_error disk)),
       World h
         (closed disk
            (written (opened dest) (take m (document fieldnames exs))))
         out)) as Hraised.
  { intros e h m. unfold settle. cbn [snd csvfile heap stdout].
    rewrite text_written_opened.
    case_decide as Hfits; [|done].
    rewrite closed_holds; [done|]. by rewrite text_written_opened. }
  destruct (course_total disk fieldnames exs dest)
    as [Hall|k d Hk Hd Hacc Hroom Hcalm|q Hq Hlen Hacc Hcalm
        |q Hlen Hacc Hroom Hcalm Hfull].
  - pose proof Hall as (Hacc & Hroom & Hcalm).
    rewrite export_body_Ok;
      [|done..|by apply goes_opened; rewrite ?length_document].
    destruct (decide (holds disk (cat (document fieldnames exs))))
      as [Hfits|Hfits].
    + left. split; [done|]. split; [done|]. by apply settle_holds.
    + right. left. split; [done|]. split; [done|]. by rewrite settle_full.
  - pose proof (lookup_lt_Some _ _ _ Hk).
    right. right. split; [by eapply BadKey_not_through|].
    rewrite (export_body_ValueError _ _ _ _ k d);
      [|done|by apply Forall_take|done..|]; cycle 1.
    { apply goes_opened; [|done]. by rewrite length_take_document by lia. }
    rewrite Hraised. eauto.
  - right. right. split; [by eapply Unencodable_not_through|].
    rewrite (export_body_refused _ _ _ _ q);
      [|done..|by apply Forall_take|done|]; cycle 1.
    { apply goes_opened; [|done]. rewrite length_take_document by lia.
      unfold room. by rewrite Hq. }
    rewrite Hraised. eauto.
  - right. right. split; [by eapply DeviceFull_not_through|].
    rewrite (export_body_detected _ _ _ _ q);
      [|done|by apply Forall_take|done| |done|done]; cycle 1.
    { apply goes_opened; [|done]. rewrite length_take_document by lia.
      eapply room_le; [|done]. lia. }
    rewrite Hraised. eauto.
Qed.

(** ** The file a run leaves *)

(** A beginning of the lines is a beginning of the text. *)
Lemma first_bytes_first_bytes n m s :
  first_bytes n (first_bytes m s) = first_bytes (n `min` m) s.
Proof.
  revert n m. induction s as [|c s IH]; intros [|n] [|m]; simpl; try done.
  by rewrite IH.
Qed.

Lemma cat_take_first_bytes ls m :
  cat (take m ls) = first_bytes (String.length (cat (take m ls))) (cat ls).
Proof.
  rewrite <- (take_drop m ls) at 3. rewrite cat_app, first_bytes_append.
  rewrite first_bytes_ge, Nat.sub_diag, first_bytes_0 by done.
  by rewrite append_nil_r.
Qed.

Lemma beginning_closed disk dest ls m :
  ∃ n, content (closed disk (written (opened dest) (take m ls)))
       = Some (first_bytes n (cat ls)).
Proof.
  rewrite content_closed, content_written_opened.
  destruct (capacity disk) as [c|]; simpl.
  - eexists. by rewrite (cat_take_first_bytes ls m) at 1;
      rewrite first_bytes_first_bytes.
  - eexists. apply f_equal, cat_take_first_bytes.
Qed.

Lemma beginning_written dest ls :
  ∃ n, content (written (opened dest) ls) = Some (first_bytes n (cat ls)).
Proof.
  exists (String.length (cat ls)).
  by rewrite content_written_opened, first_bytes_ge.
Qed.

(** The file after the blocks, on any device. *)
Lemma export_block_beginning disk exs dest out :
  Forall dict_wf exs → open_error dest = None →
  ∃ n, content (csvfile (export_block disk (World exs dest out)).2)
       = Some (first_bytes n (cat (document fieldnames exs))).
Proof.
  intros Hwf Hopen. rewrite export_block_settle by done.
  destruct (export_outcome disk exs dest out Hwf)
    as [(_ & _ & ->)|[(_ & _ & ->)|(_ & e & k & m & ->)]];
    cbn [snd csvfile].
  - apply beginning_written.
  - pose proof (beginning_closed disk dest (document fieldnames exs)
                  (S (length exs))) as H.
    by rewrite take_document_all in H.
  - apply beginning_closed.
Qed.

Lemma rows_block_beginning disk fields exs dest out :
  ∃ n, content (csvfile (settle disk (rows_body fields (TextIO None disk)
                                        (World exs (opened dest) out))).2)
       = Some (first_bytes n (cat (document fields exs))).
Proof.
  destruct (rows_outcome disk fields exs dest out)
    as [(_ & _ & ->)|(_ & e & m & ->)]; cbn [snd csvfile].
  - apply beginning_written.
  - apply beginning_closed.
Qed.

(** X1.  Whatever the records, the destination and the device, a run
    leaves the destination as it was when it cannot be opened, and
    otherwise leaves in the file a beginning of the text of the complete
    document, which may end at any character: the header line, or the
    header and rows up to some point, but never anything else.  This is
    so for the three scripts with the canonical columns and, with its own
    columns, for [export_to_csv]. *)
Theorem file_is_a_beginning (disk : device) (exs : list dict)
    (dest : destination) (r : result () * world) :
  Forall dict_wf exs →
  r ∈ [complete_export_on disk exs dest; export_all_exercises_on disk exs dest;
       json_to_csv_on disk exs dest] →
  match open_error dest with
  | Some _ =>
      csvfile r.2 = dest ∧ csvfile (export_to_csv_on disk exs dest).2 = dest
  | None =>
      (∃ n, output r = Some (first_bytes n (cat (document fieldnames exs))))
      ∧ ∃ n, output (export_to_csv_on disk exs dest)
             = Some (first_bytes n
                       (cat (document export_exercises.fields exs)))
  end.
Proof.
  intros Hwf Hr. unfold output.
  assert (csvfile r.2
          = csvfile (export_block disk (World exs dest [])).2
          ∨ csvfile r.2
            = csvfile (export_block disk (World exs dest ([] ++ [exporting]))).2
          ∨ csvfile r.2 = csvfile (plain_block disk (World exs dest [])).2)
    as Hfile.
  { repeat (apply elem_of_cons in Hr as [->|Hr]);
      [..|by apply elem_of_nil in Hr].
    - left. unfold complete_export_on, run. apply complete_export_csvfile.
    - right. left. unfold export_all_exercises_on, run.
      apply export_all_exercises_csvfile.
    - right. right. unfold json_to_csv_on, run. apply json_to_csv_csvfile. }
  unfold export_to_csv_on, run. rewrite export_to_csv_csvfile.
  cbn [heap csvfile stdout].
  destruct (open_error dest) as [msg|] eqn:Hopen.
  - rewrite (fields_block_open_error exs dest _ disk msg) by done.
    split; [|done].
    destruct Hfile as [->|[->| ->]].
    + by rewrite (export_block_open_error exs dest _ disk msg).
    + by rewrite (export_block_open_error exs dest _ disk msg).
    + by rewrite (plain_block_open_error exs dest _ disk msg).
  - split.
    + destruct Hfile as [->|[->| ->]].
      * by apply export_block_beginning.
      * by apply export_block_beginning.
      * rewrite plain_block_settle by done. apply rows_block_beginning.
    + rewrite fields_block_settle by done. apply rows_block_beginning.
Qed.

(** Two records on a device with room for 150 characters: the file ends
    in the middle of the first row. *)
Lemma file_is_a_beginning_witness :
  Forall dict_wf [push_up; push_up] ∧
  match open_error fresh with
  | Some _ =>
      csvfile (json_to_csv_on small_disk [push_up; push_up] fresh).2 = fresh
      ∧ csvfile (export_to_csv_on small_disk [push_up; push_up] fresh).2
        = fresh
  | None =>
      (∃ n, output (json_to_csv_on small_disk [push_up; push_up] fresh)
            = Some (first_bytes n
                      (cat (document fieldnames [push_up; push_up]))))
      ∧ ∃ n, output (export_to_csv_on small_disk [push_up; push_up] fresh)
             = Some (first_bytes n
                       (cat (document export_exercises.fields
                               [push_up; push_up])))
  end.
Proof.
  assert (Forall dict_wf [push_up; push_up]) as Hwf by compute_done.
  split; [done|].
  apply (file_is_a_beginning small_disk [push_up; push_up] fresh); [done|].
  do 2 apply list_elem_of_further. apply list_elem_of_here.
Defined.

Example small_disk_run :
  output (json_to_csv_on small_disk [push_up; push_up] fresh)
  = Some (header_text +:+ "1,Push-up," +:+ String DQUOTE ("Step 1"
          +:+ String LF "Step 2") +:+ String DQUOTE ",,,chest,,,False,{bodywe")
  ∧ (json_to_csv_on small_disk [push_up; push_up] fresh).1
    = Raised (OSError "[Errno 28] No space left on device")
  ∧ read_output (json_to_csv_on small_disk [push_up; push_up] fresh)
    = Some [fieldnames;
            ["1"; "Push-up"; "Step 1" +:+ String LF "Step 2"; ""; ""; "chest";
             ""; ""; "False"; "{bodywe"]].
Proof. by vm_compute. Qed.







(** X3.  The file is opened for writing, not for appending: when the
    destination opens, what it held before the run has no part in what it
    holds after. *)
Theorem old_content_never_survives (exs : list dict) (dest : destination)
    (old : option string) :
  Forall dict_wf exs → open_error dest = None →
  let dest' := Destination None (writes_left dest) (write_error dest) old in
  csvfile (complete_export_run exs dest').2 = csvfile (complete_export_run exs dest).2
  ∧ csvfile (export_all_exercises_run exs dest').2
    = csvfile (export_all_exercises_run exs dest).2
  ∧ csvfile (json_to_csv_run exs dest').2 = csvfile (json_to_csv_run exs dest).2
  ∧ csvfile (export_to_csv_run exs dest').2 = csvfile (export_to_csv_run exs dest).2.
Proof.
  intros Hwf Hopen dest'.
  unfold complete_export_run, export_all_exercises_run, json_to_csv_run,
    export_to_csv_run, run.
  rewrite !complete_export_csvfile, !export_all_exercises_csvfile,
    !json_to_csv_csvfile, !export_to_csv_block.
  assert (∀ fields, file_after fields exs dest' = file_after fields exs dest)
    as Hsame.
  { intros fields. unfold file_after. simpl. by rewrite Hopen. }
  rewrite !export_block_file, !plain_block_file by done.
  repeat split; [by rewrite Hsame..|].
  simpl.
  pose proof (fields_block_file exs dest' [Writing (length exs)]) as H1.
  pose proof (fields_block_file exs dest [Writing (length exs)]) as H2.
  destruct (fields_block sound (World exs dest' _)) as [[[]|e1] w1],
    (fields_block sound (World exs dest _)) as [[[]|e2] w2]; simpl in *;
    by rewrite H1, H2, Hsame.
Qed.

Lemma old_content_never_survives_witness :
  Forall dict_wf [push_up] ∧ open_error fresh = None ∧
  let dest' := Destination None (writes_left fresh) (write_error fresh)
                 (Some "old text") in
  csvfile (complete_export_run [push_up] dest').2
  = csvfile (complete_export_run [push_up] fresh).2
  ∧ csvfile (export_all_exercises_run [push_up] dest').2
    = csvfile (export_all_exercises_run [push_up] fresh).2
  ∧ csvfile (json_to_csv_run [push_up] dest').2
    = csvfile (json_to_csv_run [push_up] fresh).2
  ∧ csvfile (export_to_csv_run [push_up] dest').2
    = csvfile (export_to_csv_run [push_up] fresh).2.
Proof.
  assert (Forall dict_wf [push_up]) as Hwf by compute_done.
  split; [done|]. split; [done|].
  by apply (old_content_never_survives [push_up] fresh (Some "old text")).
Defined.


(** ** Outcomes *)

(** The scripts in terms of the outcome of their block. *)
Lemma complete_export_outcome disk exs dest :
  complete_export_on disk exs dest
  = match export_block disk (World exs dest []) with
    | (Ok _, w') =>
        (Ok (), World (heap w') (csvfile w') (stdout w' ++ instructions))
    | (Raised e, w') =>
        (Ok (), World (heap w') (csvfile w')
                  (stdout w' ++ Error e :: instructions))
    end.
Proof. apply complete_export_block. Qed.

Lemma export_all_exercises_outcome disk exs dest :
  export_all_exercises_on disk exs dest
  = match export_block disk (World exs dest [exporting]) with
    | (Ok _, w') => (Ok (), w')
    | (Raised e, w') =>
        (Ok (), World (heap w') (csvfile w') (stdout w' ++ [Error e; please]))
    end.
Proof. apply export_all_exercises_block. Qed.

(** X5.  A run of [complete_export.py] or [export_all_exercises.py] goes
    one of three ways, whatever the records, the destination and the
    device.  Either the export is complete: the run succeeds, reports the
    number of records, and the whole document is in the file.  Or every
    line was taken but the device does not hold the document: the run
    reports the number of records and then the [OSError] of [close].  Or
    the destination did not open or a line was not taken: the run fails
    with exactly one error and reports no success and no count. *)
Theorem complete_late_or_failed (disk : device) (exs : list dict)
    (dest : destination) (r : result () * world) :
  Forall dict_wf exs →
  r ∈ [complete_export_on disk exs dest; export_all_exercises_on disk exs dest] →
  (complete_on disk fieldnames exs dest ∧ succeeds r (length exs)
   ∧ output r = Some (cat (document fieldnames exs)))
  ∨ (open_error dest = None ∧ through disk fieldnames exs dest
     ∧ ¬ holds disk (cat (document fieldnames exs))
     ∧ r.1 = Ok () ∧ counts r.2 = [length exs]
     ∧ errors r.2 = [OSError (device_error disk)])
  ∨ (¬ (open_error dest = None ∧ through disk fieldnames exs dest)
     ∧ ∃ e, fails r e).
Proof.
  intros Hwf Hr.
  destruct (open_error dest) as [msg|] eqn:Hopen.
  { right. right. split; [by intros [? _]|]. exists (OSError msg).
    repeat (apply elem_of_cons in Hr as [->|Hr]);
      [..|by apply elem_of_nil in Hr].
    - rewrite complete_export_outcome,
        (export_block_open_error exs dest _ disk msg) by done.
      apply fails_complete_export.
    - rewrite export_all_exercises_outcome,
        (export_block_open_error exs dest _ disk msg) by done.
      apply fails_export_all_exercises. }
  repeat (apply elem_of_cons in Hr as [->|Hr]); [..|by apply elem_of_nil in Hr].
  - rewrite complete_export_outcome, export_block_settle by done.
    destruct (export_outcome disk exs dest [] Hwf)
      as [(Hall & Hfits & ->)|[(Hall & Hfull & ->)|(Hnot & e & k & m & ->)]].
    + left. split; [by split|]. split; [|done]. by cbn.
    + right. left. do 3 (split; [done|]). by cbn.
    + right. right. split; [by intros [_ ?]|]. exists e.
      apply fails_complete_export.
  - rewrite export_all_exercises_outcome, export_block_settle by done.
    destruct (export_outcome disk exs dest [exporting] Hwf)
      as [(Hall & Hfits & ->)|[(Hall & Hfull & ->)|(Hnot & e & k & m & ->)]].
    + left. split; [by split|]. split; [|done]. by cbn.
    + right. left. do 3 (split; [done|]). by cbn.
    + right. right. split; [by intros [_ ?]|]. exists e.
      apply fails_export_all_exercises.
Qed.

(** Three records of which the second has a foreign key: the third
    way. *)
Lemma complete_late_or_failed_witness :
  Forall dict_wf [push_up; with_notes; push_up] ∧
  ((complete_on full_disk fieldnames [push_up; with_notes; push_up] fresh
    ∧ succeeds (complete_export_on full_disk [push_up; with_notes; push_up]
                  fresh) 3
    ∧ output (complete_export_on full_disk [push_up; with_notes; push_up] fresh)
      = Some (cat (document fieldnames [push_up; with_notes; push_up])))
   ∨ (open_error fresh = None
      ∧ through full_disk fieldnames [push_up; with_notes; push_up] fresh
      ∧ ¬ holds full_disk
            (cat (document fieldnames [push_up; with_notes; push_up]))
      ∧ (complete_export_on full_disk [push_up; with_notes; push_up] fresh).1
        = Ok ()
      ∧ counts (complete_export_on full_disk [push_up; with_notes; push_up]
                  fresh).2 = [3]
      ∧ errors (complete_export_on full_disk [push_up; with_notes; push_up]
                  fresh).2 = [OSError (device_error full_disk)])
   ∨ (¬ (open_error fresh = None
         ∧ through full_disk fieldnames [push_up; with_notes; push_up] fresh)
      ∧ ∃ e, fails (complete_export_on full_disk
                      [push_up; with_notes; push_up] fresh) e)).
Proof.
  assert (Forall dict_wf [push_up; with_notes; push_up]) as Hwf
    by compute_done.
  split; [done|].
  apply (complete_late_or_failed full_disk [push_up; with_notes; push_up] fresh);
    [done|apply list_elem_of_here].
Defined.


(** X6.  The scripts that wrap their work in [try ... except Exception]
    never end with an exception, whatever the records, the data file and
    the destination; and [complete_export.py] prints its instructions
    last in every run, failed or not. *)
Theorem handlers_catch_everything (disk : device) (w : world)
    (f : export_all_exercises.data_file) :
  (complete_export.main disk w).1 = Ok ()
  ∧ (∃ before, stdout (complete_export.main disk w).2 = before ++ instructions)
  ∧ (export_all_exercises.export_exercises disk f w).1 = Ok ()
  ∧ (export_complete.main disk w).1 = Ok ().
Proof.
  split; [|split; [|split]].
  - rewrite complete_export_block.
    by destruct (export_block disk w) as [[[]|e] w'].
  - rewrite complete_export_block.
    destruct (export_block disk w) as [[[]|e] w']; simpl.
    + by exists (stdout w').
    + exists (stdout w' ++ [Error e]). by rewrite <- app_assoc.
  - unfold export_all_exercises.export_exercises, try_except.
    match goal with |- (match ?b with _ => _ end).1 = _ =>
      destruct b as [[[]|e] w'] end; done.
  - unfold export_complete.main, try_except.
    match goal with |- (match ?b with _ => _ end).1 = _ =>
      destruct b as [[[]|e] w'] end; done.
Qed.

(** X7.  [json_to_csv.py] prints after the [with] block, so after the
    file is closed, and catches nothing.  Whatever the records, the
    destination and the device: either the export is complete, and the run
    prints the success message and the number of records with the whole
    document in the file; or the run ends with the exception and has
    printed nothing.  A count is reported only with the whole document in
    the file.  The records are as they were in both cases. *)
Theorem json_to_csv_reports_after_close (disk : device) (exs : list dict)
    (dest : destination) :
  heap (json_to_csv_on disk exs dest).2 = exs
  ∧ ((complete_on disk fieldnames exs dest
      ∧ succeeds (json_to_csv_on disk exs dest) (length exs)
      ∧ stdout (json_to_csv_on disk exs dest).2
        = [Created; Exported (length exs)]
      ∧ output (json_to_csv_on disk exs dest)
        = Some (cat (document fieldnames exs)))
     ∨ (¬ complete_on disk fieldnames exs dest
        ∧ stdout (json_to_csv_on disk exs dest).2 = []
        ∧ ∃ e, (json_to_csv_on disk exs dest).1 = Raised e
               ∧ fails (json_to_csv_on disk exs dest) e)).
Proof.
  unfold json_to_csv_on, run. rewrite json_to_csv_block.
  destruct (open_error dest) as [msg|] eqn:Hopen.
  { rewrite (plain_block_open_error exs dest _ disk msg) by done.
    split; [done|]. right. split; [unfold complete_on; by rewrite Hopen; intros [? _]|].
    split; [done|]. exists (OSError msg). split; [done|].
    apply fails_json_to_csv. }
  rewrite plain_block_settle by done.
  destruct (rows_outcome disk fieldnames exs dest [])
    as [(Hall & Hfits & ->)|(Hnot & e & m & ->)].
  - split; [done|]. left. split; [by split|]. split; [|done]. by cbn.
  - split; [done|]. right. split; [by intros (_ & ? & ?); apply Hnot|].
    split; [done|]. exists e. split; [done|]. apply fails_json_to_csv.
Qed.


(** X8.  [json_to_csv.py] and [export_to_csv] only read the records: in
    every run, complete or not, the records are after the run what they
    were before it. *)
Theorem records_only_read (exs : list dict) (dest : destination) :
  heap (json_to_csv_run exs dest).2 = exs
  ∧ heap (export_to_csv_run exs dest).2 = exs.
Proof.
  split.
  - unfold json_to_csv_run, run. rewrite json_to_csv_block.
    pose proof (plain_block_heap exs dest []) as Hheap.
    by destruct (plain_block sound _) as [[[]|e] w'].
  - unfold export_to_csv_run, run. rewrite export_to_csv_block. simpl.
    pose proof (fields_block_heap exs dest [Writing (length exs)]) as Hheap.
    by destruct (fields_block sound _) as [[[]|e] w'].
Qed.

(** ** [export_to_csv] *)

Lemma table_lookup_fields fields exs i d :
  exs !! i = Some d → table fields exs !! S i = Some (cell d <$> fields).
Proof. intros Hi. unfold table. simpl. by rewrite list_lookup_fmap, Hi. Qed.

(** X9.  A complete run of [export_to_csv]: on records without foreign
    keys and a destination that takes every write it announces the
    number of records, succeeds and reports the same number, and a reader
    finds its own eleven columns in the first row and, for the record at
    position [i], the cells of the record under those columns in row
    [i + 1], with an empty cell for [None] and for a key the record
    lacks. *)
Theorem export_to_csv_complete (exs : list dict) (dest : destination) :
  Forall (accepted fieldnames) exs → takes dest (S (length exs)) →
  succeeds (export_to_csv_run exs dest) (length exs)
  ∧ stdout (export_to_csv_run exs dest).2
    = [Writing (length exs); Created; Exported (length exs)]
  ∧ ∃ rows, read_output (export_to_csv_run exs dest) = Some rows
      ∧ rows !! 0 = Some export_exercises.fields
      ∧ length rows = S (length exs)
      ∧ ∀ i d, exs !! i = Some d →
          rows !! S i = Some (cell d <$> export_exercises.fields).
Proof.
  intros Hacc Hdest. rewrite export_to_csv_Ok by done.
  split; [done|]. split; [done|].
  exists (table export_exercises.fields exs).
  split; [|split; [done|split]].
  - unfold read_output, output. simpl.
    by apply (read_document_all export_exercises.fields).
  - unfold table. simpl. by rewrite length_fmap.
  - intros i d Hi. by apply table_lookup_fields.
Qed.

Lemma export_to_csv_complete_witness :
  Forall (accepted fieldnames) [push_up; without_id] ∧ takes fresh 3 ∧
  succeeds (export_to_csv_run [push_up; without_id] fresh) 2
  ∧ stdout (export_to_csv_run [push_up; without_id] fresh).2
    = [Writing 2; Created; Exported 2]
  ∧ ∃ rows, read_output (export_to_csv_run [push_up; without_id] fresh)
            = Some rows
      ∧ rows !! 0 = Some export_exercises.fields
      ∧ length rows = 3
      ∧ ∀ i d, [push_up; without_id] !! i = Some d →
          rows !! S i = Some (cell d <$> export_exercises.fields).
Proof.
  assert (Forall (accepted fieldnames) [push_up; without_id]) as Hacc
    by compute_done.
  assert (takes fresh 3) as Hdest by compute_done.
  split; [done|]. split; [done|].
  by apply (export_to_csv_complete [push_up; without_id] fresh).
Defined.

(** X10.  [export_to_csv] prints its success message and the count
    after the [with] block, and catches nothing.  Whatever the records,
    the destination and the device: either the export is complete, and
    after the announcement the run prints the success message and the
    number of records, with the whole document in the file; or the
    exception ends the run after the announcement and before any success
    message or count.  The records are as they were in both cases. *)
Theorem export_to_csv_reports_after_close (disk : device) (exs : list dict)
    (dest : destination) :
  heap (export_to_csv_on disk exs dest).2 = exs
  ∧ ((complete_on disk export_exercises.fields exs dest
      ∧ succeeds (export_to_csv_on disk exs dest) (length exs)
      ∧ stdout (export_to_csv_on disk exs dest).2
        = [Writing (length exs); Created; Exported (length exs)]
      ∧ output (export_to_csv_on disk exs dest)
        = Some (cat (document export_exercises.fields exs)))
     ∨ (¬ complete_on disk export_exercises.fields exs dest
        ∧ stdout (export_to_csv_on disk exs dest).2 = [Writing (length exs)]
        ∧ ∃ e, (export_to_csv_on disk exs dest).1 = Raised e
               ∧ fails (export_to_csv_on disk exs dest) e)).
Proof.
  unfold export_to_csv_on, run. rewrite export_to_csv_block.
  cbn [heap csvfile stdout app].
  assert (∀ h f e, fails (Raised e, World h f [Writing (length exs)]) e)
    as Hfails.
  { intros h f e. split; [by left|]. split; [done|]. simpl. not_printed. }
  destruct (open_error dest) as [msg|] eqn:Hopen.
  { rewrite (fields_block_open_error exs dest _ disk msg) by done.
    split; [done|]. right.
    split; [unfold complete_on; by rewrite Hopen; intros [? _]|].
    split; [done|]. exists (OSError msg). by split. }
  rewrite fields_block_settle by done.
  destruct (rows_outcome disk export_exercises.fields exs dest
              [Writing (length exs)])
    as [(Hall & Hfits & ->)|(Hnot & e & m & ->)].
  - split; [done|]. left. split; [by split|]. split; [|done]. by cbn.
  - split; [done|]. right. split; [by intros (_ & ? & ?); apply Hnot|].
    split; [done|]. exists e. by split.
Qed.


(** X11.  [export_to_csv] and [json_to_csv.py] write the same cells in
    another column order: in complete runs on the same records, the cell
    a reader finds under a field name in the row of a record is the same
    in both files. *)
Theorem same_cells_other_columns (exs : list dict) (dest dest' : destination) :
  Forall (accepted fieldnames) exs →
  takes dest (S (length exs)) → takes dest' (S (length exs)) →
  ∃ rows rows',
    read_output (json_to_csv_run exs dest) = Some rows
    ∧ read_output (export_to_csv_run exs dest') = Some rows'
    ∧ ∀ i d j j' field,
        exs !! i = Some d → fieldnames !! j = Some field →
        export_exercises.fields !! j' = Some field →
        ∃ c, rows !! S i ≫= (.!! j) = Some c
             ∧ rows' !! S i ≫= (.!! j') = Some c.
Proof.
  intros Hacc Hdest Hdest'.
  exists (table fieldnames exs), (table export_exercises.fields exs).
  rewrite json_to_csv_Ok, export_to_csv_Ok by done.
  split; [|split].
  - unfold read_output, output. simpl. by apply (read_document_all fieldnames).
  - unfold read_output, output. simpl.
    by apply (read_document_all export_exercises.fields).
  - intros i d j j' field Hi Hj Hj'. exists (cell d field).
    rewrite !(table_lookup_fields _ exs i d Hi). cbn [mbind option_bind].
    by rewrite !list_lookup_fmap, Hj, Hj'.
Qed.

Lemma same_cells_other_columns_witness :
  Forall (accepted fieldnames) [push_up] ∧ takes fresh 2 ∧ takes fresh 2 ∧
  ∃ rows rows',
    read_output (json_to_csv_run [push_up] fresh) = Some rows
    ∧ read_output (export_to_csv_run [push_up] fresh) = Some rows'
    ∧ ∀ i d j j' field,
        [push_up] !! i = Some d → fieldnames !! j = Some field →
        export_exercises.fields !! j' = Some field →
        ∃ c, rows !! S i ≫= (.!! j) = Some c
             ∧ rows' !! S i ≫= (.!! j') = Some c.
Proof.
  assert (Forall (accepted fieldnames) [push_up]) as Hacc by compute_done.
  assert (takes fresh 2) as Hdest by compute_done.
  split; [done|]. split; [done|]. split; [done|].
  by apply (same_cells_other_columns [push_up] fresh fresh).
Defined.

(** ** Statements that print nothing *)

(** What [m] returns or raises and what it makes of the records and of
    the file does not depend on what was printed before, and [m] prints
    nothing. *)
Local Definition silent {A} (m : M A) : Prop :=
  ∀ h f, ∃ r h' f', ∀ out, m (World h f out) = (r, World h' f' out).

Lemma silent_ret {A} (a : A) : silent (mret a).
Proof. intros h f. by exists (Ok a), h, f. Qed.

Lemma silent_raise {A} e : silent (@raise A e).
Proof. intros h f. by exists (Raised e), h, f. Qed.

Lemma silent_load i : silent (load i).
Proof. intros h f. by exists (Ok (default [] (h !! i))), h, f. Qed.

Lemma silent_len_exercises : silent len_exercises.
Proof. intros h f. by exists (Ok (length h)), h, f. Qed.

Lemma silent_store_setitem i key v : silent (store_setitem i key v).
Proof.
  intros h f. by exists (Ok ()), (alter (λ d, setitem d key v) i h), f.
Qed.

Lemma silent_write file l : silent (write file l).
Proof.
  intros h f. unfold write. cbn [csvfile heap stdout].
  destruct (writes_left f) as [[|q]|]; [by eexists _, _, _|..];
    destruct (detects _ _); by eexists _, _, _.
Qed.

Lemma silent_bind {A B} (m : M A) (f : A → M B) :
  silent m → (∀ a, silent (f a)) → silent (m ≫= f).
Proof.
  intros Hm Hf h g. unfold mbind, M_bind.
  destruct (Hm h g) as ([a|e] & h1 & g1 & H1).
  - destruct (Hf a h1 g1) as (r & h2 & g2 & H2).
    exists r, h2, g2. intros out. by rewrite H1, H2.
  - exists (Raised e), h1, g1. intros out. by rewrite H1.
Qed.

Lemma silent_for_in {A S} (xs : list A) (body : A → S → M S) s :
  (∀ x s, silent (body x s)) → silent (for_in xs body s).
Proof.
  intros Hbody. revert s. induction xs as [|x xs IH]; intros s; simpl.
  - apply silent_ret.
  - apply silent_bind; auto.
Qed.

Create HintDb silent discriminated.

#[local] Hint Resolve silent_ret silent_raise silent_load silent_len_exercises
  silent_store_setitem silent_write silent_bind silent_for_in : silent.

Lemma silent_writerow self d : silent (DictWriter.writerow self d).
Proof.
  unfold DictWriter.writerow, DictWriter._dict_to_list.
  destruct (filter _ (keys d)); auto with silent.
Qed.

Lemma silent_blank i x u : silent (blank i x u).
Proof. destruct x as [key v]. simpl. destruct (is_None v); auto with silent. Qed.

#[local] Hint Resolve silent_writerow silent_blank : silent.

Lemma silent_writerows self rows : silent (DictWriter.writerows self rows).
Proof. unfold DictWriter.writerows. auto with silent. Qed.

Lemma silent_write_exercises writer : silent (write_exercises writer).
Proof.
  unfold write_exercises. apply silent_bind; [auto with silent|].
  intros n. apply silent_for_in. intros exercise count.
  change (silent (turn writer exercise count)). unfold turn.
  auto 10 with silent.
Qed.

Lemma silent_fields_body file : silent (fields_body file).
Proof.
  unfold fields_body, DictWriter.writeheader. cbv zeta.
  apply silent_bind; [apply silent_writerow|]. intros _.
  apply silent_bind; [|intros; apply silent_writerows].
  intros h f. by exists (Ok h), h, f.
Qed.

(** ** The guard of [export_exercises.py] and the fetch *)

(** X12.  A fetch that brings no records leaves the file of an earlier
    export alone.  When the request fails, or is answered with a status
    other than 200, or with status 200 and a body that is no JSON, or that
    decodes to the empty list or to a value without a length, the
    [__main__] block of [export_exercises.py] does not open the
    destination, whatever the device: the destination is as it was and no
    success or count is printed.  The run ends normally, after [No
    exercises to export], when the status is not 200 and when the list is
    empty, and with the exception in the other cases. *)
Theorem fetch_without_records (disk : device)
    (r : export_exercises_fetch.reply) (dest : destination) :
  match r with
  | export_exercises_fetch.ConnectionError _ => True
  | export_exercises_fetch.Response status_code _ json =>
      status_code ≠ 200 ∨ json = None ∨ json = Some (Records [])
      ∨ ∃ type_name truth, json = Some (Scalar type_name truth)
  end →
  csvfile (fetch_and_export_on disk r dest).2 = dest
  ∧ counts (fetch_and_export_on disk r dest).2 = []
  ∧ (Created ∉ stdout (fetch_and_export_on disk r dest).2)
  ∧ match r with
    | export_exercises_fetch.ConnectionError msg =>
        (fetch_and_export_on disk r dest).1 = Raised (OSError msg)
    | export_exercises_fetch.Response status_code text json =>
        if decide (status_code = 200)
        then
          match json with
          | None =>
              (fetch_and_export_on disk r dest).1 = Raised (LoadError text)
          | Some (Scalar type_name _) =>
              (fetch_and_export_on disk r dest).1
              = Raised (TypeError ("object of type '" +:+ type_name
                                   +:+ "' has no len()"))
          | Some _ =>
              (fetch_and_export_on disk r dest).1 = Ok ()
              ∧ last (stdout (fetch_and_export_on disk r dest).2)
                = Some (Text "No exercises to export")
          end
        else (fetch_and_export_on disk r dest).1 = Ok ()
             ∧ last (stdout (fetch_and_export_on disk r dest).2)
               = Some (Text "No exercises to export")
    end.
Proof.
  intros Hr. destruct r as [msg|status_code text json].
  { repeat split; try done. simpl. not_printed. }
  unfold fetch_and_export_on, run, export_exercises_fetch.main,
    export_exercises_fetch.fetch_exercises.
  destruct (decide (status_code = 200)) as [->|Hcode].
  - destruct Hr as [?|[->|[->|(type_name & truth & ->)]]]; [done|..];
      repeat split; try done; simpl; not_printed.
  - repeat split; try done. simpl. not_printed.
Qed.

Lemma fetch_without_records_witness :
  (200 ≠ 200 ∨ Some (Scalar "NoneType" false) = None
   ∨ Some (Scalar "NoneType" false) = Some (Records [])
   ∨ ∃ type_name truth,
       Some (Scalar "NoneType" false) = Some (Scalar type_name truth))
  ∧ csvfile (fetch_and_export_on full_disk
               (export_exercises_fetch.Response 200 "null"
                  (Some (Scalar "NoneType" false)))
               two_lines_only).2 = two_lines_only
  ∧ (fetch_and_export_on full_disk
       (export_exercises_fetch.Response 200 "null"
          (Some (Scalar "NoneType" false)))
       two_lines_only).1
    = Raised (TypeError "object of type 'NoneType' has no len()").
Proof.
  assert (200 ≠ 200 ∨ Some (Scalar "NoneType" false) = None
          ∨ Some (Scalar "NoneType" false) = Some (Records [])
          ∨ ∃ type_name truth,
              Some (Scalar "NoneType" false) = Some (Scalar type_name truth))
    as Hr by (right; right; right; by do 2 eexists).
  split; [exact Hr|].
  pose proof (fetch_without_records full_disk
                (export_exercises_fetch.Response 200 "null"
                   (Some (Scalar "NoneType" false)))
                two_lines_only Hr) as (Hfile & _ & _ & Hend).
  split; [exact Hfile|exact Hend].
Defined.

Example fetched_an_object :
  fetch_and_export_on sound
    (export_exercises_fetch.Response 200 "{...}" (Some (Broken [] "str" 1)))
    fresh
  = (Raised (AttributeError "str" "keys"),
     World [] (written (opened fresh) [header_line export_exercises.fields])
       [Text "Fetching exercises from Supabase...";
        Text "Successfully fetched 2 exercises"; Writing 2]).
Proof. reflexivity. Qed.

(** On a document with an item that is no record, the body of the block
    of [export_to_csv] is the one on the records at the front, and then
    the exception. *)
Lemma stopped_fields_body exercises e file w :
  stop exercises "keys" = Some e →
  (let writer := DictWriter.new file export_exercises.fields in
   DictWriter.writeheader writer ;;
   rowdicts ← (λ w, (Ok (heap w), w));
   DictWriter.writerows writer rowdicts ;;
   after_records exercises "keys") w
  = match fields_body file w with
    | (Ok _, w') => (Raised e, w')
    | (Raised e', w') => (Raised e', w')
    end.
Proof.
  intros Hstop. unfold fields_body. cbv zeta. unfold mbind, M_bind.
  destruct (DictWriter.writeheader _ w) as [[[]|e'] w1]; [|done].
  destruct (DictWriter.writerows _ _ w1) as [[[]|e'] w2]; [|done].
  destruct exercises; simpl in Hstop; by simplify_eq.
Qed.

(** The run on such a document, in terms of the block on the records at
    its front. *)
Lemma fetched_broken_block disk front type_name text rest dest :
  fetch_and_export_on disk
    (export_exercises_fetch.Response 200 text
       (Some (Broken front type_name rest))) dest
  = match with_open disk None
            (λ file w,
               match fields_body file w with
               | (Ok _, w') => (Raised (AttributeError type_name "keys"), w')
               | (Raised e', w') => (Raised e', w')
               end)
            (World front dest
               [Text "Fetching exercises from Supabase...";
                Text ("Successfully fetched "
                      +:+ pretty (length front + 1 + rest) +:+ " exercises");
                Writing (length front + 1 + rest)]) with
    | (Ok _, w') =>
        (Ok (), World (heap w') (csvfile w')
                  (stdout w'
                   ++ [Created; Exported (length front + 1 + rest)]))
    | (Raised e, w') => (Raised e, w')
    end.
Proof.
  unfold fetch_and_export_on, run.
  unfold export_exercises_fetch.main, export_exercises_fetch.fetch_exercises.
  rewrite decide_True by done.
  set (n := length front + 1 + rest).
  set (out := [Text "Fetching exercises from Supabase...";
               Text ("Successfully fetched " +:+ pretty n +:+ " exercises")]).
  rewrite (bind_Ok _ _ _ (Broken front type_name rest) (World [] dest out))
    by done.
  rewrite (bind_Ok _ _ _ () (World front dest out)) by done.
  unfold export_exercises.main. cbn [truth_value].
  unfold export_exercises.export_to_csv.
  rewrite (bind_Ok _ _ _ n (World front dest out)) by done.
  rewrite (bind_Ok _ _ _ () (World front dest (out ++ [Writing n]))) by done.
  unfold mbind at 1, M_bind at 1.
  rewrite (with_open_ext _ _ _
             (λ file w,
                match fields_body file w with
                | (Ok _, w') => (Raised (AttributeError type_name "keys"), w')
                | (Raised e', w') => (Raised e', w')
                end))
    by (intros; by apply stopped_fields_body).
  subst out. cbn [app].
  destruct (with_open _ _ _ _) as [[[]|e] w']; [|done].
  unfold mbind, M_bind, print. simpl. by rewrite <- app_assoc.
Qed.

(** X21.  When the response has status 200 and its body decodes to
    something with items that is no list of records (an object, a string,
    a list with an item that is no object), the [__main__] block of
    [export_exercises.py] announces the number of items and opens the
    destination: the file and the records are left as [export_to_csv]
    leaves them on the records at the front of the document.  The run
    ends with an exception, that of this export if it has one and
    otherwise the one of the item that is no record, and prints no
    success and no count. *)
Theorem fetched_no_list_of_records (disk : device) (front : list dict)
    (type_name text : string) (rest : nat) (dest : destination) :
  let r := fetch_and_export_on disk
             (export_exercises_fetch.Response 200 text
                (Some (Broken front type_name rest))) dest in
  let rows := export_to_csv_on disk front dest in
  csvfile r.2 = csvfile rows.2 ∧ heap r.2 = heap rows.2
  ∧ counts r.2 = [] ∧ (Created ∉ stdout r.2)
  ∧ last (stdout r.2) = Some (Writing (length front + 1 + rest))
  ∧ r.1 = match rows.1 with
          | Ok _ => Raised (AttributeError type_name "keys")
          | Raised e => Raised e
          end.
Proof.
  intros r rows. subst r rows.
  rewrite fetched_broken_block.
  unfold export_to_csv_on, run. rewrite export_to_csv_block.
  destruct (open_error dest) as [msg|] eqn:Hopen.
  { rewrite (with_open_Raised _ _ _ _ msg) by done.
    rewrite (fields_block_open_error front dest _ disk msg) by done.
    repeat split; try done. simpl. not_printed. }
  unfold fields_block. rewrite !with_open_settle by done.
  destruct (silent_fields_body (TextIO None disk) front (opened dest))
    as ([[]|e'] & h & f & Hbody).
  all: rewrite !Hbody; unfold settle; cbn [snd csvfile].
  all: case_decide; repeat split; try done; simpl; not_printed.
Qed.

(** ** The data file of [export_all_exercises.py] *)

(** X14.  [export_exercises] reads its data file before it opens the
    destination: when the file is missing, or cannot be read or decoded,
    the destination is as it was whatever the device, nothing is reported
    as exported, and the run still ends normally; only the file that
    cannot be read or decoded goes through the handler and prints an
    error. *)
Theorem data_file_problem_leaves_destination (disk : device)
    (f : export_all_exercises.data_file) (heap0 : list dict)
    (dest : destination) :
  f = export_all_exercises.Missing
  ∨ (∃ msg, f = export_all_exercises.Unreadable msg) →
  let r := run (export_all_exercises.export_exercises disk f) heap0 dest in
  r.1 = Ok () ∧ csvfile r.2 = dest ∧ heap r.2 = heap0
  ∧ counts r.2 = [] ∧ (Created ∉ stdout r.2)
  ∧ errors r.2 = match f with
                 | export_all_exercises.Unreadable msg => [LoadError msg]
                 | _ => []
                 end.
Proof.
  intros [->|[msg ->]] r.
  - repeat split; try done. subst r. simpl. not_printed.
  - repeat split; try done. subst r. simpl. not_printed.
Qed.

Lemma data_file_problem_leaves_destination_witness :
  (export_all_exercises.Unreadable "Expecting value"
   = export_all_exercises.Missing
   ∨ ∃ msg, export_all_exercises.Unreadable "Expecting value"
            = export_all_exercises.Unreadable msg) ∧
  let r := run (export_all_exercises.export_exercises full_disk
                  (export_all_exercises.Unreadable "Expecting value"))
             [] two_lines_only in
  r.1 = Ok () ∧ csvfile r.2 = two_lines_only ∧ heap r.2 = []
  ∧ counts r.2 = [] ∧ (Created ∉ stdout r.2)
  ∧ errors r.2 = [LoadError "Expecting value"].
Proof.
  assert (export_all_exercises.Unreadable "Expecting value"
          = export_all_exercises.Missing
          ∨ ∃ msg, export_all_exercises.Unreadable "Expecting value"
                   = export_all_exercises.Unreadable msg) as Hf
    by (right; by eexists).
  split; [exact Hf|].
  exact (data_file_problem_leaves_destination full_disk
           (export_all_exercises.Unreadable "Expecting value")
           [] two_lines_only Hf).
Defined.


(** ** A data file that holds no list of records *)

Example data_file_holds_an_object :
  run (export_all_exercises.export_exercises sound
         (export_all_exercises.Holds (Broken [] "str" 1))) [] fresh
  = (Ok (),
     World [] (written (opened fresh) [header_line fieldnames])
       [exporting; Error (AttributeError "str" "items"); please]).
Proof. reflexivity. Qed.

Example data_file_holds_null :
  run (export_all_exercises.export_exercises sound
         (export_all_exercises.Holds (Scalar "NoneType" false))) [] fresh
  = (Ok (),
     World [] (written (opened fresh) [header_line fieldnames])
       [exporting; Error (TypeError "'NoneType' object is not iterable");
        please]).
Proof. reflexivity. Qed.

(** The header and the record loop, which the body of the block starts
    with. *)
Local Definition export_loop (file : TextIOWrapper) : M nat :=
  let writer := DictWriter.new file fieldnames in
  DictWriter.writeheader writer ;;
  write_exercises writer.

Lemma silent_export_loop file : silent (export_loop file).
Proof.
  unfold export_loop, DictWriter.writeheader. cbv zeta.
  apply silent_bind; [apply silent_writerow|].
  intros _. apply silent_write_exercises.
Qed.

Lemma export_body_loop file w :
  export_body file w
  = match export_loop file w with
    | (Ok count, w') =>
        (Ok (), World (heap w') (csvfile w')
                  (stdout w' ++ [Created; Exported count]))
    | (Raised e, w') => (Raised e, w')
    end.
Proof.
  unfold export_body, export_loop. cbv zeta. unfold mbind, M_bind.
  destruct (DictWriter.writeheader _ w) as [[[]|e] w1]; [|done].
  destruct (write_exercises _ w1) as [[count|e] w2]; [|done].
  unfold print. simpl. by rewrite <- app_assoc.
Qed.

(** On a document that is no list of records the body of the block is
    the same header and loop, and then the exception. *)
Lemma stopped_body_loop exercises_data e file w :
  stop exercises_data "items" = Some e →
  (let writer := DictWriter.new file fieldnames in
   DictWriter.writeheader writer ;;
   count ← write_exercises writer;
   after_records exercises_data "items" ;;
   print Created ;;
   print (Exported count)) w
  = match export_loop file w with
    | (Ok _, w') => (Raised e, w')
    | (Raised e', w') => (Raised e', w')
    end.
Proof.
  intros Hstop. unfold export_loop. cbv zeta. unfold mbind, M_bind.
  destruct (DictWriter.writeheader _ w) as [[[]|e'] w1]; [|done].
  destruct (write_exercises _ w1) as [[count|e'] w2]; [|done].
  destruct exercises_data; simpl in Hstop; by simplify_eq.
Qed.

(** X20.  When [exercises_data.json] decodes to something that is no
    list of records (an object, a string, a number, [null], a list with
    an item that is no object), [export_exercises] opens the destination
    all the same and goes through the records at the front of the
    document, if there are any: the file and the records are left as the
    export of those records leaves them.  But the run reports no success
    and no count: it prints one error, the one that export runs into if
    there is one, and otherwise that of the item the loop cannot take,
    and ends normally. *)
Theorem no_list_of_records (disk : device) (exercises_data : decoded)
    (dest : destination) (e : exn) :
  stop exercises_data "items" = Some e →
  let r := run (export_all_exercises.export_exercises disk
                  (export_all_exercises.Holds exercises_data)) [] dest in
  let front := export_all_exercises_on disk (records exercises_data) dest in
  r.1 = Ok ()
  ∧ csvfile r.2 = csvfile front.2 ∧ heap r.2 = heap front.2
  ∧ counts r.2 = [] ∧ (Created ∉ stdout r.2)
  ∧ errors r.2 = match errors front.2 with [] => [e] | es => es end.
Proof.
  intros Hstop r front. subst r front.
  unfold export_all_exercises_on, run.
  rewrite export_all_exercises_block.
  unfold export_all_exercises.export_exercises, try_except.
  rewrite (bind_Ok _ _ _ () (World [] dest [exporting])) by done.
  rewrite (bind_Ok _ _ _ exercises_data
             (World (records exercises_data) dest [exporting])) by done.
  cbn [heap csvfile stdout app].
  destruct (open_error dest) as [msg|] eqn:Hopen.
  { rewrite (with_open_Raised _ _ _ _ msg) by done.
    rewrite (export_block_open_error _ _ _ _ msg) by done.
    repeat split; try done. simpl. not_printed. }
  rewrite with_open_settle, export_block_settle by done.
  rewrite (stopped_body_loop _ e) by done. rewrite export_body_loop.
  destruct (silent_export_loop (TextIO (Some "utf-8") disk)
              (records exercises_data) (opened dest))
    as ([count|e'] & h & f & ->).
  all: unfold settle; cbn [snd csvfile].
  all: case_decide; repeat split; try done; simpl; not_printed.
Qed.

Lemma no_list_of_records_witness :
  stop (Broken [push_up] "int" 0) "items" = Some (AttributeError "int" "items")
  ∧ let r := run (export_all_exercises.export_exercises small_disk
                    (export_all_exercises.Holds (Broken [push_up] "int" 0)))
               [] fresh in
    let front := export_all_exercises_on small_disk
                   (records (Broken [push_up] "int" 0)) fresh in
    r.1 = Ok ()
    ∧ csvfile r.2 = csvfile front.2 ∧ heap r.2 = heap front.2
    ∧ counts r.2 = [] ∧ (Created ∉ stdout r.2)
    ∧ errors r.2 = match errors front.2 with
                   | [] => [AttributeError "int" "items"]
                   | es => es
                   end.
Proof.
  split; [reflexivity|].
  exact (no_list_of_records small_disk (Broken [push_up] "int" 0) fresh
           (AttributeError "int" "items") eq_refl).
Defined.

(** ** [export_complete.py] *)

(** The two lines [export_complete.py] prints after its [with] block. *)
Definition export_complete_note : list line :=
  [Text (String LF "Note: This script exports a single exercise as an example.");
   Text "To export all exercises, run 'python3 export_all_exercises.py'"].

(** The [with] block of [export_complete.main]. *)
Local Definition complete_body (file : TextIOWrapper) : M () :=
  let writer := DictWriter.new file fieldnames in
  DictWriter.writeheader writer ;;
  print (Text "Processing exercise data...") ;;
  export_complete.json_loads ;;
  count ← write_exercises writer;
  print Created ;;
  print (Exported count).

Lemma export_complete_block disk w :
  export_complete.main disk w
  = match with_open disk (Some "utf-8") complete_body w with
    | (Ok _, w') =>
        (Ok (), World (heap w') (csvfile w')
                  (stdout w' ++ export_complete_note))
    | (Raised e, w') =>
        (Ok (), World (heap w') (csvfile w') (stdout w' ++ [Error e]))
    end.
Proof.
  unfold export_complete.main, try_except, mbind, M_bind.
  change (with_open disk (Some "utf-8") _)
    with (with_open disk (Some "utf-8") complete_body).
  destruct (with_open disk (Some "utf-8") complete_body w) as [[[]|e] w'];
    unfold print; simpl; by rewrite <- ?app_assoc.
Qed.

(** Once the header line is taken, the body goes on as the body of
    [complete_export.main] does on the inline record. *)
Lemma complete_body_export_body file dest :
  accepts file (opened dest) (header_line fieldnames) →
  complete_body file (World [] (opened dest) [])
  = export_body file
      (World [ab_wheel_rollout] (opened dest)
         [Text "Processing exercise data..."]).
Proof.
  intros Haccepts. unfold complete_body, export_body.
  rewrite (bind_Ok _ _ _ () _
             (writeheader_Ok file fieldnames (World [] (opened dest) [])
                Haccepts)).
  rewrite (bind_Ok _ _ _ () _
             (writeheader_Ok file fieldnames
                (World [ab_wheel_rollout] (opened dest)
                   [Text "Processing exercise data..."])
                Haccepts)).
  done.
Qed.

(** When it is not, the [write] of the header line raises. *)
Lemma complete_body_header file dest :
  ¬ accepts file (opened dest) (header_line fieldnames) →
  ∃ e m, complete_body file (World [] (opened dest) [])
         = (Raised e,
            World [] (written (opened dest)
                        (take m (document fieldnames [ab_wheel_rollout])))
              []).
Proof.
  intros Hnot. unfold complete_body.
  destruct (decide (writes_left (opened dest) = Some 0)) as [Hq|Hq].
  - exists (UnicodeEncodeError (encoding file) (write_error dest)), 0.
    erewrite bind_Raised; [|by apply writeheader_refused].
    rewrite take_0. unfold written, opened in *. cbn in *. by rewrite Hq.
  - exists (OSError (device_error (raw file))), 1.
    erewrite bind_Raised; cycle 1.
    { apply writeheader_detected; [done|].
      apply not_false_is_true. intros Hcalm. by apply Hnot. }
    by rewrite take_document, take_0.
Qed.

Lemma settle_Raised disk e w :
  ∃ e', settle disk (Raised e, w)
        = (Raised e', World (heap w) (closed disk (csvfile w)) (stdout w)).
Proof.
  unfold settle. cbn [snd]. case_decide as Hfits.
  - exists e. rewrite closed_holds by done. by destruct w.
  - by eexists.
Qed.

(** X15.  [export_complete.py] on any destination and device.  The run
    never ends with an exception.  The file is opened, and so emptied,
    before the inline data is decoded, and after the run holds a
    beginning of the document of the inline record.  When the export is
    complete the run succeeds, reports one exercise and prints its note.
    When both lines were taken but the device does not hold them, the run
    reports one exercise and then the [OSError] of [close], without the
    note.  Otherwise it fails with one error, reports no count and does
    not print the note. *)
Theorem export_complete_outcome (disk : device) (dest : destination) :
  (export_complete_on disk dest).1 = Ok ()
  ∧ match open_error dest with
    | Some msg => csvfile (export_complete_on disk dest).2 = dest
    | None =>
        ∃ n, output (export_complete_on disk dest)
             = Some (first_bytes n
                       (cat (document fieldnames [ab_wheel_rollout])))
    end
  ∧ (complete_on disk fieldnames [ab_wheel_rollout] dest →
     succeeds (export_complete_on disk dest) 1
     ∧ stdout (export_complete_on disk dest).2
       = [Text "Processing exercise data..."; Created; Exported 1]
         ++ export_complete_note
     ∧ output (export_complete_on disk dest)
       = Some (cat (document fieldnames [ab_wheel_rollout])))
  ∧ (open_error dest = None ∧ through disk fieldnames [ab_wheel_rollout] dest
     ∧ ¬ holds disk (cat (document fieldnames [ab_wheel_rollout])) →
     stdout (export_complete_on disk dest).2
     = [Text "Processing exercise data..."; Created; Exported 1;
        Error (OSError (device_error disk))])
  ∧ (¬ (open_error dest = None
        ∧ through disk fieldnames [ab_wheel_rollout] dest) →
     ∃ e, fails (export_complete_on disk dest) e
       ∧ ∀ l, l ∈ export_complete_note →
           l ∉ stdout (export_complete_on disk dest).2).
Proof.
  assert (Forall dict_wf [ab_wheel_rollout]) as Hwf by compute_done.
  unfold export_complete_on, run. rewrite export_complete_block.
  destruct (open_error dest) as [msg|] eqn:Hopen.
  { rewrite with_open_Raised with (msg := msg) by done.
    split; [done|]. split; [done|].
    split; [intros [? _]; congruence|]. split; [by intros [? _]|].
    intros _. exists (OSError msg). split.
    - split; [by right|]. split; [done|]. simpl. not_printed.
    - intros l Hl. simpl.
      repeat (apply elem_of_cons in Hl as [->|Hl]; [not_printed|]).
      by apply elem_of_nil in Hl. }
  rewrite with_open_settle by done.
  destruct (decide (accepts (TextIO (Some "utf-8") disk) (opened dest)
                      (header_line fieldnames))) as [Hheader|Hheader].
  - rewrite complete_body_export_body by done.
    destruct (export_outcome disk [ab_wheel_rollout] dest
                [Text "Processing exercise data..."] Hwf)
      as [(Hall & Hfits & ->)|[(Hall & Hfull & ->)|(Hnot & e & k & m & ->)]].
    + split; [done|]. split; [apply beginning_written|].
      split; [by intros _|]. split; [by intros (_ & _ & ?)|].
      by intros [].
    + split; [done|].
      split.
      { pose proof (beginning_closed disk dest
                      (document fieldnames [ab_wheel_rollout])
                      (S (length [ab_wheel_rollout]))) as H.
        by rewrite take_document_all in H. }
      split; [by intros (_ & _ & ?)|]. split; [by intros _|].
      by intros [].
    + split; [done|]. split; [apply beginning_closed|].
      split; [by intros (_ & ? & _)|]. split; [by intros (_ & ? & _)|].
      intros _. exists e. split.
      * split; [by right|]. split; [done|]. simpl. not_printed.
      * intros l Hl. simpl.
        repeat (apply elem_of_cons in Hl as [->|Hl]; [not_printed|]).
        by apply elem_of_nil in Hl.
  - assert (¬ through disk fieldnames [ab_wheel_rollout] dest) as Hnot.
    { intros (_ & Hroom & Hcalm). apply Hheader.
      apply (goes_first _ _ _ (data_lines fieldnames [ab_wheel_rollout])).
      by apply goes_opened. }
    destruct (complete_body_header _ dest Hheader) as (e & m & ->).
    destruct (settle_Raised disk e
                (World [] (written (opened dest)
                             (take m (document fieldnames [ab_wheel_rollout])))
                   [])) as [e' ->].
    split; [done|]. split; [apply beginning_closed|].
    split; [by intros (_ & ? & _)|]. split; [by intros (_ & ? & _)|].
    intros _. exists e'. split.
    + split; [by right|]. split; [done|]. simpl. not_printed.
    + intros l Hl. simpl.
      repeat (apply elem_of_cons in Hl as [->|Hl]; [not_printed|]).
      by apply elem_of_nil in Hl.
Qed.


(** ** Running the export again *)

Lemma none_to_empty_idem d : none_to_empty (none_to_empty d) = none_to_empty d.
Proof.
  unfold none_to_empty. rewrite <- list_fmap_compose.
  apply list_fmap_ext. intros _ [k v] _. simpl. by destruct v.
Qed.

Lemma none_to_empty_no_None d : Forall (λ v, v ≠ VNone) (none_to_empty d).*2.
Proof.
  induction d as [|[k v] d IH]; simpl; constructor; [by destruct v|done].
Qed.

Lemma data_lines_none_to_empty fields exs :
  data_lines fields (none_to_empty <$> exs) = data_lines fields exs.
Proof.
  unfold data_lines. rewrite <- list_fmap_compose.
  apply list_fmap_ext. intros _ d _. apply format_row_none_to_empty.
Qed.

(** X16.  After a complete run of [complete_export.py] the records are
    still dictionaries with the keys they had and hold no [None], so a
    second run on them changes them no more and writes the same file:
    the export reaches its fixed point in one run. *)
Theorem second_export_changes_nothing (exs : list dict)
    (dest dest' : destination) :
  Forall dict_wf exs → Forall (accepted fieldnames) exs →
  takes dest (S (length exs)) → takes dest' (S (length exs)) →
  let exs' := heap (complete_export_run exs dest).2 in
  Forall dict_wf exs'
  ∧ Forall (λ d, Forall (λ v, v ≠ VNone) d.*2) exs'
  ∧ heap (complete_export_run exs' dest').2 = exs'
  ∧ output (complete_export_run exs' dest') = output (complete_export_run exs dest).
Proof.
  intros Hwf Hacc Hdest Hdest' exs'. subst exs'.
  rewrite (complete_export_Ok exs dest) by done. simpl heap.
  assert (Forall dict_wf (none_to_empty <$> exs)) as Hwf'.
  { apply Forall_fmap. eapply Forall_impl; [exact Hwf|].
    intros d Hd. unfold dict_wf. simpl. by rewrite keys_none_to_empty. }
  assert (Forall (accepted fieldnames) (none_to_empty <$> exs)) as Hacc'.
  { apply Forall_fmap. eapply Forall_impl; [exact Hacc|].
    intros d Hd. simpl. by apply accepted_none_to_empty. }
  split; [done|]. split.
  { apply Forall_fmap, Forall_true. intros d. apply none_to_empty_no_None. }
  rewrite complete_export_Ok by by rewrite ?length_fmap.
  simpl. split.
  - rewrite <- list_fmap_compose. apply list_fmap_ext.
    intros _ d _. apply none_to_empty_idem.
  - unfold output. simpl. unfold document.
    by rewrite data_lines_none_to_empty.
Qed.

Lemma second_export_changes_nothing_witness :
  Forall dict_wf [push_up; without_id] ∧
  Forall (accepted fieldnames) [push_up; without_id] ∧
  takes fresh 3 ∧ takes fresh 3 ∧
  let exs' := heap (complete_export_run [push_up; without_id] fresh).2 in
  Forall dict_wf exs'
  ∧ Forall (λ d, Forall (λ v, v ≠ VNone) d.*2) exs'
  ∧ heap (complete_export_run exs' fresh).2 = exs'
  ∧ output (complete_export_run exs' fresh)
    = output (complete_export_run [push_up; without_id] fresh).
Proof.
  assert (Forall dict_wf [push_up; without_id]) as Hwf by compute_done.
  assert (Forall (accepted fieldnames) [push_up; without_id]) as Hacc
    by compute_done.
  assert (takes fresh 3) as Hdest by compute_done.
  split; [done|]. split; [done|]. split; [done|]. split; [done|].
  by apply (second_export_changes_nothing [push_up; without_id] fresh fresh).
Defined.

(** ** The order of the keys in a record *)

Lemma getitem_Some d key v :
  dict_wf d → getitem d key = Some v ↔ (key, v) ∈ d.
Proof.
  unfold dict_wf, keys. induction d as [|[k u] d IH]; simpl.
  - intros _. split; [done|]. by intros ?%elem_of_nil.
  - intros [Hk Hd]%NoDup_cons. rewrite elem_of_cons. case_decide as Hkey.
    + subst k. split.
      * intros [= ->]. by left.
      * intros [[= ->]|Hin]; [done|]. destruct Hk.
        apply list_elem_of_fmap. by exists (key, v).
    + rewrite IH by done. split; [by right|].
      intros [[= -> ->]|Hin]; [done|done].
Qed.

Lemma getitem_Permutation d d' key :
  dict_wf d → d ≡ₚ d' → getitem d key = getitem d' key.
Proof.
  intros Hwf Hperm.
  assert (dict_wf d') as Hwf'.
  { unfold dict_wf, keys in *. by rewrite <- Hperm. }
  apply option_eq. intros v.
  rewrite !getitem_Some by done. by rewrite Hperm.
Qed.

Lemma row_Permutation fields d d' :
  dict_wf d → d ≡ₚ d' → row fields d = row fields d'.
Proof.
  intros Hwf Hperm. unfold row, get. apply list_fmap_ext.
  intros _ key _. by rewrite (getitem_Permutation d d').
Qed.

Lemma accepted_Permutation fields d d' :
  d ≡ₚ d' → accepted fields d ↔ accepted fields d'.
Proof. intros Hperm. unfold accepted, keys. by rewrite Hperm. Qed.

Lemma file_after_Permutation fields exs exs' dest :
  Forall dict_wf exs → Forall2 (≡ₚ) exs exs' →
  file_after fields exs dest = file_after fields exs' dest.
Proof.
  intros Hwf Hperm.
  assert (accepted_prefix fields exs = accepted_prefix fields exs'
          ∧ data_lines fields exs = data_lines fields exs') as [Hp Hl].
  { induction Hperm as [|d d' exs exs' Hd _ IH]; [done|].
    apply Forall_cons in Hwf as [Hwfd Hwf]. destruct (IH Hwf) as [IHp IHl].
    simpl. rewrite IHp, IHl, (row_Permutation fields d d') by done.
    split; [|done].
    destruct (decide (accepted fields d)) as [Ha|Ha];
      [rewrite decide_True|rewrite decide_False]; try done;
      by rewrite <- (accepted_Permutation fields d d'). }
  unfold file_after, lines_written. by rewrite Hp, Hl.
Qed.

(** X17.  The order in which a record lists its keys has no part in the
    output: two lists of records that differ only in the order of the
    keys inside the records give the same file, in every run of every
    script, complete or not. *)
Theorem key_order_is_irrelevant (exs exs' : list dict) (dest : destination) :
  Forall dict_wf exs → Forall2 (≡ₚ) exs exs' →
  csvfile (complete_export_run exs dest).2 = csvfile (complete_export_run exs' dest).2
  ∧ csvfile (export_all_exercises_run exs dest).2
    = csvfile (export_all_exercises_run exs' dest).2
  ∧ csvfile (json_to_csv_run exs dest).2 = csvfile (json_to_csv_run exs' dest).2
  ∧ csvfile (export_to_csv_run exs dest).2 = csvfile (export_to_csv_run exs' dest).2.
Proof.
  intros Hwf Hperm.
  assert (Forall dict_wf exs') as Hwf'.
  { clear dest. induction Hperm as [|d d' exs exs' Hd _ IH]; [done|].
    apply Forall_cons in Hwf as [Hwfd Hwf]. constructor; [|by apply IH].
    unfold dict_wf, keys in *. by rewrite <- Hd. }
  unfold complete_export_run, export_all_exercises_run, json_to_csv_run,
    export_to_csv_run, run.
  rewrite !complete_export_csvfile, !export_all_exercises_csvfile,
    !json_to_csv_csvfile, !export_to_csv_file.
  rewrite !export_block_file, !plain_block_file by done. simpl.
  by rewrite !(file_after_Permutation _ exs exs').
Qed.

Lemma key_order_is_irrelevant_witness :
  Forall dict_wf [push_up; with_notes] ∧
  Forall2 (≡ₚ) [push_up; with_notes] [reverse push_up; reverse with_notes] ∧
  csvfile (complete_export_run [push_up; with_notes] fresh).2
  = csvfile (complete_export_run [reverse push_up; reverse with_notes] fresh).2
  ∧ csvfile (export_all_exercises_run [push_up; with_notes] fresh).2
    = csvfile (export_all_exercises_run
                 [reverse push_up; reverse with_notes] fresh).2
  ∧ csvfile (json_to_csv_run [push_up; with_notes] fresh).2
    = csvfile (json_to_csv_run [reverse push_up; reverse with_notes] fresh).2
  ∧ csvfile (export_to_csv_run [push_up; with_notes] fresh).2
    = csvfile (export_to_csv_run [reverse push_up; reverse with_notes] fresh).2.
Proof.
  assert (Forall dict_wf [push_up; with_notes]) as Hwf by compute_done.
  assert (Forall2 (≡ₚ) [push_up; with_notes]
            [reverse push_up; reverse with_notes]) as Hperm.
  { repeat constructor; symmetry; apply reverse_Permutation. }
  split; [done|]. split; [done|].
  by apply (key_order_is_irrelevant [push_up; with_notes]
              [reverse push_up; reverse with_notes] fresh).
Defined.

(** ** Rows stand for their records alone *)

(** X18.  Nothing is lost or confused in the file: when the complete
    exports of two lists of records are the same text, the two lists have
    the same number of records and, record by record and field by field,
    the same cells.  Commas, quotes and line breaks inside a value never
    make two different tables look alike. *)
Theorem same_file_same_cells (exs exs' : list dict) (dest dest' : destination) :
  Forall (accepted fieldnames) exs → Forall (accepted fieldnames) exs' →
  takes dest (S (length exs)) → takes dest' (S (length exs')) →
  output (json_to_csv_run exs dest) = output (json_to_csv_run exs' dest') →
  length exs = length exs'
  ∧ ∀ i d d' field, exs !! i = Some d → exs' !! i = Some d' →
      field ∈ fieldnames → cell d field = cell d' field.
Proof.
  intros Hacc Hacc' Hdest Hdest' Hout.
  assert (cat (document fieldnames exs) = cat (document fieldnames exs'))
    as Hdoc.
  { rewrite !json_to_csv_Ok in Hout by done.
    assert (∀ A (x y : A), Some x = Some y → x = y) as Hinj by congruence.
    apply Hinj. exact Hout. }
  assert (table fieldnames exs = table fieldnames exs') as Htable.
  { assert (fieldnames ≠ []) as Hne by done.
    pose proof (read_document_all fieldnames exs Hne) as H.
    pose proof (read_document_all fieldnames exs' Hne) as H'.
    rewrite Hdoc, H' in H. congruence. }
  split.
  - apply (f_equal length) in Htable. unfold table in Htable.
    simpl in Htable. rewrite !length_fmap in Htable. lia.
  - intros i d d' field Hi Hi' Hfield.
    pose proof (table_lookup_fields fieldnames exs i d Hi) as H.
    rewrite Htable, (table_lookup_fields fieldnames exs' i d' Hi') in H.
    assert (cell d <$> fieldnames = cell d' <$> fieldnames) as Hcells
      by congruence.
    apply list_elem_of_lookup in Hfield as [j Hj].
    apply (f_equal (λ l : list string, l !! j)) in Hcells.
    rewrite !list_lookup_fmap, Hj in Hcells. simpl in Hcells. congruence.
Qed.

Lemma same_file_same_cells_witness :
  Forall (accepted fieldnames) [push_up] ∧
  Forall (accepted fieldnames) [none_to_empty push_up] ∧
  takes fresh 2 ∧ takes two_lines_only 2 ∧
  output (json_to_csv_run [push_up] fresh)
  = output (json_to_csv_run [none_to_empty push_up] two_lines_only) ∧
  length [push_up] = length [none_to_empty push_up]
  ∧ ∀ i d d' field, [push_up] !! i = Some d →
      [none_to_empty push_up] !! i = Some d' →
      field ∈ fieldnames → cell d field = cell d' field.
Proof.
  assert (Forall (accepted fieldnames) [push_up]) as Hacc by compute_done.
  assert (Forall (accepted fieldnames) [none_to_empty push_up]) as Hacc'
    by compute_done.
  assert (takes fresh 2) as Hdest by compute_done.
  assert (takes two_lines_only 2) as Hdest' by compute_done.
  assert (output (json_to_csv_run [push_up] fresh)
          = output (json_to_csv_run [none_to_empty push_up] two_lines_only))
    as Hout by reflexivity.
  split; [done|]. split; [done|]. split; [done|]. split; [done|].
  split; [done|].
  by apply (same_file_same_cells [push_up] [none_to_empty push_up]
              fresh two_lines_only).
Defined.

Lemma data_lines_app fields exs more :
  data_lines fields (exs ++ more)
  = data_lines fields exs ++ data_lines fields more.
Proof. apply fmap_app. Qed.

(** X19.  The row of a record depends on that record alone: in complete
    runs, the export of a list followed by further records is the export
    of the list followed by the rows of the further records, so adding
    records at the end of the input only adds lines at the end of the
    file. *)
Theorem appending_records_appends_rows (exs more : list dict)
    (dest dest' : destination) (text : string) :
  Forall dict_wf (exs ++ more) → Forall (accepted fieldnames) (exs ++ more) →
  takes dest (S (length exs)) → takes dest' (S (length (exs ++ more))) →
  output (complete_export_run exs dest) = Some text →
  output (complete_export_run (exs ++ more) dest')
  = Some (text +:+ cat (data_lines fieldnames more))
  ∧ output (json_to_csv_run (exs ++ more) dest')
    = Some (text +:+ cat (data_lines fieldnames more)).
Proof.
  intros Hwf Hacc Hdest Hdest' Htext.
  pose proof Hwf as [Hwf1 _]%Forall_app.
  pose proof Hacc as [Hacc1 _]%Forall_app.
  rewrite complete_export_Ok in Htext by done.
  assert (text = cat (document fieldnames exs)) as ->.
  { assert (∀ A (x y : A), Some x = Some y → y = x) as Hinj by congruence.
    apply Hinj. exact Htext. }
  rewrite complete_export_Ok, json_to_csv_Ok by done.
  assert (cat (document fieldnames (exs ++ more))
          = cat (document fieldnames exs) +:+ cat (data_lines fieldnames more))
    as Hdoc.
  { unfold document. by rewrite data_lines_app, app_comm_cons, cat_app. }
  split; unfold output; cbn [snd csvfile]; rewrite content_written_opened;
    by rewrite Hdoc.
Qed.

Lemma appending_records_appends_rows_witness :
  Forall dict_wf ([push_up] ++ [without_id]) ∧
  Forall (accepted fieldnames) ([push_up] ++ [without_id]) ∧
  takes fresh 2 ∧ takes fresh 3 ∧
  output (complete_export_run [push_up] fresh)
  = Some (cat (header_line fieldnames :: data_lines fieldnames [push_up])) ∧
  output (complete_export_run ([push_up] ++ [without_id]) fresh)
  = Some (cat (header_line fieldnames :: data_lines fieldnames [push_up])
          +:+ cat (data_lines fieldnames [without_id]))
  ∧ output (json_to_csv_run ([push_up] ++ [without_id]) fresh)
    = Some (cat (header_line fieldnames :: data_lines fieldnames [push_up])
            +:+ cat (data_lines fieldnames [without_id])).
Proof.
  assert (Forall dict_wf ([push_up] ++ [without_id])) as Hwf by compute_done.
  assert (Forall (accepted fieldnames) ([push_up] ++ [without_id])) as Hacc
    by compute_done.
  assert (takes fresh 2) as Hdest by compute_done.
  assert (takes fresh 3) as Hdest' by compute_done.
  assert (output (complete_export_run [push_up] fresh)
          = Some (cat (header_line fieldnames
                       :: data_lines fieldnames [push_up]))) as Htext
    by reflexivity.
  split; [done|]. split; [done|]. split; [done|]. split; [done|].
  split; [done|].
  by apply (appending_records_appends_rows [push_up] [without_id] fresh fresh).
Defined.
